(** * SFDX-Falcon: action contracts, error normalisation and Git URI helpers

    A shallow embedding of the parts of the SFDX-Falcon plugin that its
    specification makes claims about:

    - [modules/sfdx-falcon-recipe/types/index.ts]
      ([SfdxFalconError2.wrap], the [SfdxCliError] constructor),
    - [modules/sfdx-falcon-util/git.ts]
      ([getRepoNameFromUri], [isGitUriValid] and their two patterns),
    - the actions [create-user], [deploy-metadata], [delete-scratch-org],
    - the command [falcon:demo:deploy].

    Beyond these, it covers the functions of [git.ts] that drive Git
    through the shell, the methods [addToStack] and [bubble] of
    [SfdxFalconError2], the action [configure-admin-user] and the option
    checks of the actions.

    JavaScript values are an inductive type, objects are finite maps from
    property names to values, synchronous code that may throw returns a
    [Completion], a promise is represented by the way it settles. *)

From Stdlib Require Import ZArith Ascii String List Bool Lia.
From stdpp Require Import base option strings pretty gmap list.

#[local] Set Warnings "-register-all".
#[local] Open Scope string_scope.

(* ===================================================================== *)
(** * JavaScript values                                                   *)
(* ===================================================================== *)

Module Js.

(** A finite number, kept as the exact decimal [mantissa * 10 ^ exponent]
    that was written for it ([NaN] is a constructor of [JsValue] of its
    own). *)
Record JsNumber : Type := Dec { mantissa : Z; exponent : Z }.

(** The values that cross the modelled code: primitives, arrays and plain
    objects (own properties only). *)
Inductive JsValue : Type :=
| JUndefined
| JNull
| JBool (b : bool)
| JNaN
| JNum (n : JsNumber)
| JStr (s : string)
| JArr (items : list JsValue)
| JObj (fields : gmap string JsValue).

Definition JInt (z : Z) : JsValue := JNum (Dec z 0).

(** [ToBoolean]: [undefined], [null], [false], [0], [NaN] and the empty
    string are falsy, everything else (every object and array) is truthy. *)
Definition to_boolean (v : JsValue) : bool :=
  match v with
  | JUndefined | JNull | JNaN => false
  | JBool b => b
  | JNum n => negb (mantissa n =? 0)%Z
  | JStr s => negb (String.eqb s "")
  | JArr _ | JObj _ => true
  end.

(** [typeof v]. *)
Definition typeof (v : JsValue) : string :=
  match v with
  | JUndefined => "undefined"
  | JNull => "object"
  | JBool _ => "boolean"
  | JNaN | JNum _ => "number"
  | JStr _ => "string"
  | JArr _ | JObj _ => "object"
  end.

(** [a || b]. *)
Definition js_or (a b : JsValue) : JsValue :=
  if to_boolean a then a else b.

(** Synchronous code: returns normally or throws. *)
Inductive Completion (A E : Type) : Type :=
| Normal (a : A)
| Throw (e : E).
Arguments Normal {A E} a.
Arguments Throw {A E} e.

(** A promise, represented by how it settles. *)
Inductive Settled (A E : Type) : Type :=
| Resolved (a : A)
| Rejected (e : E).
Arguments Resolved {A E} a.
Arguments Rejected {A E} e.

(** [p.then(h)]: [h] runs on fulfilment; a throwing handler rejects. *)
Definition p_then {A B E : Type}
    (p : Settled A E) (h : A -> Completion B E) : Settled B E :=
  match p with
  | Resolved a =>
      match h a with Normal b => Resolved b | Throw e => Rejected e end
  | Rejected e => Rejected e
  end.

(** [p.catch(h)]: [h] runs on rejection; a throwing handler rejects. *)
Definition p_catch {A E E' : Type}
    (p : Settled A E) (h : E -> Completion A E') : Settled A E' :=
  match p with
  | Resolved a => Resolved a
  | Rejected e =>
      match h e with Normal a => Resolved a | Throw e' => Rejected e' end
  end.

(** The built-in error raised by the runtime itself. *)
Record RuntimeError : Type := MkRuntimeError
  { rt_name : string; rt_message : string }.

(** [o.k] on an arbitrary value: [null] and [undefined] have no properties
    (a [TypeError]); primitives and arrays have none of the data properties
    read by the modelled code; an object yields its own property or
    [undefined]. *)
Definition get_prop (v : JsValue) (k : string)
  : Completion JsValue RuntimeError :=
  match v with
  | JUndefined =>
      Throw (MkRuntimeError "TypeError"
               ("Cannot read property '" ++ k ++ "' of undefined"))
  | JNull =>
      Throw (MkRuntimeError "TypeError"
               ("Cannot read property '" ++ k ++ "' of null"))
  | JObj fields => Normal (default JUndefined (fields !! k))
  | _ => Normal JUndefined
  end.

(** [o.k] on a value known to be an object literal / options bag. *)
Definition get_own (fields : gmap string JsValue) (k : string) : JsValue :=
  default JUndefined (fields !! k).

(** [o.k = v] in strict mode on a value known to be an object. *)
Definition set_own (fields : gmap string JsValue) (k : string) (v : JsValue)
  : gmap string JsValue := <[k := v]> fields.

(** An object literal [{k1: v1, ..., kn: vn}]. *)
Definition obj (props : list (string * JsValue)) : gmap string JsValue :=
  list_to_map props.

Fixpoint zeros (n : nat) : string :=
  match n with O => "" | S n' => String "0" (zeros n') end.

(** Drop the trailing zeros of a mantissa: [1500e-2] is [15e0]. *)
Fixpoint strip_zeros (fuel : nat) (m e : Z) : Z * Z :=
  match fuel with
  | O => (m, e)
  | S fuel' =>
      if (m mod 10 =? 0)%Z
      then strip_zeros fuel' (m / 10)%Z (e + 1)%Z
      else (m, e)
  end.

(** A number is a double: a decimal [m * 10 ^ e] of magnitude at least
    [2 ^ 1024 - 2 ^ 970], half an ulp above the greatest double, stands
    for an infinity. *)
Definition overflows (m e : Z) : bool :=
  (if 0 <=? e
   then 2 ^ 1024 - 2 ^ 970 <=? Z.abs m * 10 ^ e
   else (2 ^ 1024 - 2 ^ 970) * 10 ^ (- e) <=? Z.abs m)%Z.

(** [Number::toString].  With [k] significant digits [ds] and the decimal
    point after the [n]-th of them: plain digits and zeros when
    [k <= n <= 21], a point inside the digits when [0 < n <= 21], a
    fraction [0.00ds] when [-6 < n <= 0], and otherwise the exponent
    notation [d.dde+x] or [d.dde-x] (from [1e21] up and below [1e-6]).
    The decimal stands for the double nearest to it, which prints back
    these digits when there are at most 15 of them. *)
Definition number_to_string (x : JsNumber) : string :=
  if (mantissa x =? 0)%Z then "0"
  else if overflows (mantissa x) (exponent x)
  then (if (mantissa x <? 0)%Z then "-Infinity" else "Infinity")
  else
    let '(m, e) :=
      strip_zeros (S (Z.to_nat (Z.log2 (Z.abs (mantissa x))))) (mantissa x) (exponent x) in
    let sign := if (m <? 0)%Z then "-" else "" in
    let ds := pretty (Z.abs m) in
    let k := Z.of_nat (String.length ds) in
    let n := (k + e)%Z in
    if ((k <=? n) && (n <=? 21))%Z
    then sign ++ ds ++ zeros (Z.to_nat (n - k))
    else if ((0 <? n) && (n <=? 21))%Z
    then sign ++ String.substring 0 (Z.to_nat n) ds ++ "."
           ++ String.substring (Z.to_nat n) (Z.to_nat (k - n)) ds
    else if ((-6 <? n) && (n <=? 0))%Z
    then sign ++ "0." ++ zeros (Z.to_nat (- n)) ++ ds
    else
      let power :=
        (if (n - 1 <? 0)%Z then "e-" else "e+") ++ pretty (Z.abs (n - 1)) in
      if (k =? 1)%Z then sign ++ ds ++ power
      else sign ++ String.substring 0 1 ds ++ "."
             ++ String.substring 1 (Z.to_nat (k - 1)) ds ++ power.

(** What [ToString] throws for an object that has no way to a primitive. *)
Definition cannot_convert : RuntimeError :=
  MkRuntimeError "TypeError" "Cannot convert object to primitive value".

(** [ToString], the conversion behind a template literal [`${v}`].  An
    array joins its elements with commas ([null] and [undefined] elements
    render empty).  A plain object renders as [[object Object]] through
    the inherited [toString]; an own property [toString] hides it, and
    since no value of this model is callable the conversion then throws a
    [TypeError], also from inside an array. *)
Fixpoint to_string (v : JsValue) : Completion string RuntimeError :=
  match v with
  | JUndefined => Normal "undefined"
  | JNull => Normal "null"
  | JBool true => Normal "true"
  | JBool false => Normal "false"
  | JNaN => Normal "NaN"
  | JNum n => Normal (number_to_string n)
  | JStr s => Normal s
  | JArr items =>
      (fix join (l : list JsValue) : Completion string RuntimeError :=
         match l with
         | [] => Normal ""
         | x :: rest =>
             match match x with
                   | JUndefined | JNull => Normal ""
                   | _ => to_string x
                   end with
             | Throw e => Throw e
             | Normal sx =>
                 match rest with
                 | [] => Normal sx
                 | _ :: _ =>
                     match join rest with
                     | Throw e => Throw e
                     | Normal sr => Normal (sx ++ "," ++ sr)
                     end
                 end
             end
         end) items
  | JObj fields =>
      match fields !! "toString" with
      | Some _ => Throw cannot_convert
      | None => Normal "[object Object]"
      end
  end.

(** The string that a value known to be of type string is. *)
Definition as_string (v : JsValue) : string :=
  match v with
  | JStr s => s
  | _ => ""
  end.

End Js.

Import Js.

(* ===================================================================== *)
(** * Regular expressions                                                 *)
(* ===================================================================== *)

Module RegExp.

(** One item of a character class [[...]]. *)
Inductive class_item : Type :=
| CChar (c : ascii)
| CWord.                       (* \w *)

(** The pattern syntax used by the sources. *)
Inductive regex : Type :=
| Eps
| Class (items : list class_item)
| Seq (r1 r2 : regex)
| Alt (r1 r2 : regex)
| Star (r : regex)
| Bol                          (* ^ *)
| Eol.                         (* $ *)

Definition Chr (c : ascii) : regex := Class [CChar c].
Definition Word : regex := Class [CWord].
Definition Plus (r : regex) : regex := Seq r (Star r).
Definition Opt (r : regex) : regex := Alt r Eps.

(** A literal run of characters. *)
Fixpoint Lit (cs : list ascii) : regex :=
  match cs with
  | [] => Eps
  | c :: rest => Seq (Chr c) (Lit rest)
  end.

Definition between (lo hi c : ascii) : bool :=
  ((nat_of_ascii lo <=? nat_of_ascii c) && (nat_of_ascii c <=? nat_of_ascii hi))%nat.

(** [\w] is [[A-Za-z0-9_]]. *)
Definition is_word (c : ascii) : bool :=
  between "a" "z" c || between "A" "Z" c || between "0" "9" c || Ascii.eqb c "_".

Definition item_matches (i : class_item) (c : ascii) : bool :=
  match i with
  | CChar d => Ascii.eqb d c
  | CWord => is_word c
  end.

Definition in_class (items : list class_item) (c : ascii) : bool :=
  existsb (fun i => item_matches i c) items.

(** The greedy star over a matcher [m] for its body: at most [fuel]
    iterations, each of which has to consume something, as in the runtime;
    [k] is what remains to be matched after the star. *)
Fixpoint iterate
    (m : list ascii -> (list ascii -> option (list ascii)) -> option (list ascii))
    (k : list ascii -> option (list ascii))
    (fuel : nat) (s : list ascii) {struct fuel} : option (list ascii) :=
  match fuel with
  | O => k s
  | S fuel' =>
      match m s (fun s' => if (length s' <? length s)%nat
                           then iterate m k fuel' s' else None) with
      | Some rest => Some rest
      | None => k s
      end
  end.

(** Backtracking matcher in continuation-passing style.  [total] is the
    length of the whole subject (so that [^] can tell position 0), [s] the
    rest of the subject at the current position, [k] what remains to be
    matched after [r]; the result is what is left of the subject after the
    whole match.  Alternation tries its left branch first; a star never
    needs more iterations than there are characters left. *)
Fixpoint rmatch (r : regex) (total : nat) (s : list ascii)
    (k : list ascii -> option (list ascii)) {struct r} : option (list ascii) :=
  match r with
  | Eps => k s
  | Class items =>
      match s with
      | c :: s' => if in_class items c then k s' else None
      | [] => None
      end
  | Seq r1 r2 => rmatch r1 total s (fun s' => rmatch r2 total s' k)
  | Alt r1 r2 =>
      match rmatch r1 total s k with
      | Some rest => Some rest
      | None => rmatch r2 total s k
      end
  | Star r' => iterate (rmatch r' total) k (length s) s
  | Bol => if (length s =? total)%nat then k s else None
  | Eol => match s with [] => k s | _ :: _ => None end
  end.

(** What the pattern means: [lang total r s s'] when [r] can match the
    characters between position [s] and position [s'] of a subject of
    length [total]. *)
Inductive lang (total : nat) : regex -> list ascii -> list ascii -> Prop :=
| lang_Eps s : lang total Eps s s
| lang_Class items c s :
    in_class items c = true -> lang total (Class items) (c :: s) s
| lang_Seq r1 r2 s mid s' :
    lang total r1 s mid -> lang total r2 mid s' -> lang total (Seq r1 r2) s s'
| lang_AltL r1 r2 s s' : lang total r1 s s' -> lang total (Alt r1 r2) s s'
| lang_AltR r1 r2 s s' : lang total r2 s s' -> lang total (Alt r1 r2) s s'
| lang_StarNil r s : lang total (Star r) s s
| lang_StarCons r s mid s' :
    lang total r s mid -> (length mid < length s)%nat ->
    lang total (Star r) mid s' -> lang total (Star r) s s'
| lang_Bol s : length s = total -> lang total Bol s s
| lang_Eol : lang total Eol [] [].

(** The text matched when [r] matches at the current position. *)
Definition match_here (r : regex) (total : nat) (s : list ascii)
  : option (list ascii) :=
  match rmatch r total s (fun rest => Some rest) with
  | Some rest => Some (firstn (length s - length rest) s)
  | None => None
  end.

(** Leftmost match: try every start position from left to right. *)
Fixpoint search (r : regex) (total : nat) (s : list ascii)
  : option (list ascii) :=
  match match_here r total s with
  | Some m => Some m
  | None =>
      match s with
      | [] => None
      | _ :: s' => search r total s'
      end
  end.

(** [r.exec(subject)[0]] for a pattern without the [g] or [y] flag, or
    [None] when [exec] returns [null]. *)
Definition exec (r : regex) (subject : string) : option string :=
  let cs := list_ascii_of_string subject in
  option_map string_of_list_ascii (search r (length cs) cs).

(** [r.test(subject)]. *)
Definition test (r : regex) (subject : string) : bool :=
  match exec r subject with Some _ => true | None => false end.

End RegExp.

(* ===================================================================== *)
(** * modules/sfdx-falcon-util/git.ts                                      *)
(* ===================================================================== *)

Module Git.
Import RegExp.

(** [SfdxFalconError(message, name, source)] as thrown by this file, and
    the runtime's own [TypeError]. *)
Inductive GitError : Type :=
| FalconError (message name source : string)
| TypeError (message : string).

Definition dbgNs : string := "UTILITY:git:".

(** [/\/(\w|-)+\.git\/*$/] *)
Definition repoNameRegEx : regex :=
  Seq (Chr "/")
 (Seq (Plus (Alt Word (Chr "-")))
 (Seq (Seq (Chr ".") (Lit ["g"; "i"; "t"]%char))
 (Seq (Star (Chr "/"))
      Eol))).

(** [/(^(git|ssh|http(s)?)|(git@[\w\.]+))(:(\/\/)?)([\w\.@\:\/\-~]+)(\.git)(\/)?$/] *)
Definition gitUriRegEx : regex :=
  Seq (Alt (Seq Bol (Alt (Lit ["g"; "i"; "t"]%char)
                    (Alt (Lit ["s"; "s"; "h"]%char)
                         (Seq (Lit ["h"; "t"; "t"; "p"]%char) (Opt (Chr "s"))))))
           (Seq (Lit ["g"; "i"; "t"; "@"]%char)
                (Plus (Class [CWord; CChar "."]))))
 (Seq (Seq (Chr ":") (Opt (Lit ["/"; "/"]%char)))
 (Seq (Plus (Class [CWord; CChar "."; CChar "@"; CChar ":"; CChar "/"; CChar "-"; CChar "~"]))
 (Seq (Seq (Chr ".") (Lit ["g"; "i"; "t"]%char))
 (Seq (Opt (Chr "/"))
      Eol)))).

(** [s.lastIndexOf(c)]: the last position of [c] at or after [i], if any. *)
Fixpoint lastIndexOf_from (c : ascii) (s : string) (i : nat) : option nat :=
  match s with
  | EmptyString => None
  | String d rest =>
      match lastIndexOf_from c rest (S i) with
      | Some j => Some j
      | None => if Ascii.eqb d c then Some i else None
      end
  end.

(** [s.lastIndexOf(c)], [-1] when [c] does not occur. *)
Definition lastIndexOf (c : ascii) (s : string) : Z :=
  match lastIndexOf_from c s 0 with
  | Some j => Z.of_nat j
  | None => (-1)%Z
  end.

(** [s.substring(0, e)]: a negative end counts as 0. *)
Definition substring0 (s : string) (e : Z) : string :=
  String.substring 0 (Z.to_nat e) s.

(** [s.substr(1)]. *)
Definition substr1 (s : string) : string :=
  match s with
  | EmptyString => EmptyString
  | String _ rest => rest
  end.

(** [getRepoNameFromUri]; the argument is a string, so the [typeof] guard
    does not fire. *)
Definition getRepoNameFromUri (gitRemoteUri : string) : Completion string GitError :=
  match exec repoNameRegEx gitRemoteUri with
  | None => Throw (TypeError "Cannot read property '0' of null")
  | Some repoName =>
      let repoName := substring0 repoName (lastIndexOf "." repoName) in
      let repoName := substr1 repoName in
      if String.eqb repoName ""
      then Throw (FalconError "Repository name could not be parsed from the Git Remote URI."
                              "UnreadableRepoName"
                              (dbgNs ++ "getRepoNameFromUri"))
      else Normal repoName
  end.

(** A character that [(\w|-)] accepts. *)
Definition is_name_char (c : ascii) : bool := is_word c || Ascii.eqb "-" c.

Definition all_chars (p : ascii -> bool) (s : string) : bool :=
  forallb p (list_ascii_of_string s).

(** The URI ends in [/<name>.git] followed by any number of slashes, where
    [<name>] is a non-empty run of word characters and dashes. *)
Definition has_repo_tail (uri name : string) : Prop :=
  exists prefix slashes,
    uri = prefix ++ "/" ++ name ++ ".git" ++ slashes
    /\ name <> ""
    /\ all_chars is_name_char name = true
    /\ all_chars (Ascii.eqb "/") slashes = true.

(** The characters of such a tail. *)
Definition repo_tail (name slashes : list ascii) : list ascii :=
  ("/"%char :: name ++ ["."; "g"; "i"; "t"]%char ++ slashes)%list.

(** [isGitUriValid]; [acceptedProtocols] is [None] when the optional
    argument is left out (a [RegExp] object is always truthy).  The
    argument is a string, so the [typeof] guard does not fire. *)
Definition isGitUriValid (gitRemoteUri : string) (acceptedProtocols : option regex) : bool :=
  if test gitUriRegEx gitRemoteUri then
    match acceptedProtocols with
    | Some protocols => test protocols gitRemoteUri
    | None => true
    end
  else false.

End Git.

(* ===================================================================== *)
(** * JSON.parse                                                          *)
(* ===================================================================== *)

Module Json.

Definition dquote : ascii := Eval cbv in ascii_of_nat 34.
Definition backslash : ascii := Eval cbv in ascii_of_nat 92.

Definition is_ws (c : ascii) : bool :=
  let n := nat_of_ascii c in
  ((n =? 32) || (n =? 9) || (n =? 10) || (n =? 13))%nat.

Fixpoint skip_ws (cs : list ascii) : list ascii :=
  match cs with
  | c :: rest => if is_ws c then skip_ws rest else cs
  | [] => []
  end.

Definition is_digit (c : ascii) : bool := RegExp.between "0" "9" c.

Definition digit_value (c : ascii) : Z :=
  Z.of_nat (nat_of_ascii c - nat_of_ascii "0").

Definition hex_value (c : ascii) : option nat :=
  if is_digit c then Some (nat_of_ascii c - nat_of_ascii "0")
  else if RegExp.between "a" "f" c then Some (nat_of_ascii c - nat_of_ascii "a" + 10)
  else if RegExp.between "A" "F" c then Some (nat_of_ascii c - nat_of_ascii "A" + 10)
  else None.

(** Strings hold UTF-8 text; the code unit of a [\uXXXX] escape is stored
    as its UTF-8 bytes. *)
Definition utf8 (n : nat) : list ascii :=
  if (n <? 128)%nat then [ascii_of_nat n]
  else if (n <? 2048)%nat
  then [ascii_of_nat (192 + n / 64); ascii_of_nat (128 + n mod 64)]
  else [ascii_of_nat (224 + n / 4096);
        ascii_of_nat (128 + (n / 64) mod 64);
        ascii_of_nat (128 + n mod 64)].

Definition simple_escape (e : ascii) : option ascii :=
  if Ascii.eqb e dquote then Some dquote
  else if Ascii.eqb e backslash then Some backslash
  else if Ascii.eqb e "/" then Some "/"%char
  else if Ascii.eqb e "b" then Some (ascii_of_nat 8)
  else if Ascii.eqb e "f" then Some (ascii_of_nat 12)
  else if Ascii.eqb e "n" then Some (ascii_of_nat 10)
  else if Ascii.eqb e "r" then Some (ascii_of_nat 13)
  else if Ascii.eqb e "t" then Some (ascii_of_nat 9)
  else None.

(** The characters of a string literal after its opening quote, up to and
    including the closing quote; [acc] is what was read, reversed. *)
Fixpoint parse_chars (cs : list ascii) (acc : list ascii)
  : option (string * list ascii) :=
  match cs with
  | [] => None
  | c :: rest =>
      if Ascii.eqb c dquote then Some (string_of_list_ascii (rev acc), rest)
      else if Ascii.eqb c backslash then
        match rest with
        | [] => None
        | e :: rest' =>
            match simple_escape e with
            | Some x => parse_chars rest' (x :: acc)
            | None =>
                if Ascii.eqb e "u" then
                  match rest' with
                  | h1 :: h2 :: h3 :: h4 :: rest'' =>
                      match hex_value h1, hex_value h2, hex_value h3, hex_value h4 with
                      | Some a, Some b, Some c', Some d =>
                          parse_chars rest''
                            (rev (utf8 (((a * 16 + b) * 16 + c') * 16 + d)) ++ acc)%list
                      | _, _, _, _ => None
                      end
                  | _ => None
                  end
                else None
            end
        end
      else if (nat_of_ascii c <? 32)%nat then None
      else parse_chars rest (c :: acc)
  end.

(** The longest run of digits at the front of [cs], and what follows. *)
Fixpoint span_digits (cs : list ascii) : list ascii * list ascii :=
  match cs with
  | c :: rest =>
      if is_digit c
      then let '(ds, r) := span_digits rest in (c :: ds, r)
      else ([], cs)
  | [] => ([], [])
  end.

Definition digits_to_Z (ds : list ascii) : Z :=
  fold_left (fun acc d => (acc * 10 + digit_value d)%Z) ds 0%Z.

(** A number is a double: a decimal [m * 10 ^ e] of magnitude at most
    [2 ^ -1075], half the least positive double, is read as zero. *)
Definition rounds_to_zero (m e : Z) : bool :=
  ((m =? 0) || ((e <? 0) && (Z.abs m * 2 ^ 1075 <=? 10 ^ (- e))))%Z.

(** A number literal: an optional minus sign, an integer part without
    leading zeros, an optional fraction, an optional exponent. *)
Definition parse_number (cs : list ascii) : option (JsNumber * list ascii) :=
  let '(negative, cs1) :=
    match cs with
    | "-"%char :: r => (true, r)
    | _ => (false, cs)
    end in
  let int_part :=
    match cs1 with
    | c :: r =>
        if Ascii.eqb c "0" then Some ([c], r)
        else if is_digit c then Some (span_digits cs1)
        else None
    | [] => None
    end in
  match int_part with
  | None => None
  | Some (ints, cs2) =>
      let frac_part :=
        match cs2 with
        | "."%char :: r =>
            match span_digits r with
            | ([], _) => None
            | (fs, r') => Some (fs, r')
            end
        | _ => Some ([], cs2)
        end in
      match frac_part with
      | None => None
      | Some (fracs, cs3) =>
          let exp_part :=
            match cs3 with
            | c :: r =>
                if Ascii.eqb c "e" || Ascii.eqb c "E" then
                  let '(eneg, r1) :=
                    match r with
                    | "-"%char :: r' => (true, r')
                    | "+"%char :: r' => (false, r')
                    | _ => (false, r)
                    end in
                  match span_digits r1 with
                  | ([], _) => None
                  | (es, r2) =>
                      Some (if eneg then (- digits_to_Z es)%Z else digits_to_Z es, r2)
                  end
                else Some (0%Z, cs3)
            | [] => Some (0%Z, cs3)
            end in
          match exp_part with
          | None => None
          | Some (e, cs4) =>
              let m := digits_to_Z (ints ++ fracs)%list in
              let e := (e - Z.of_nat (length fracs))%Z in
              if rounds_to_zero m e then Some (Dec 0 0, cs4)
              else Some (Dec (if negative then (- m)%Z else m) e, cs4)
          end
      end
  end.

(** [cs] starts with the characters of [word]: what follows them. *)
Fixpoint strip_prefix (word cs : list ascii) : option (list ascii) :=
  match word, cs with
  | [], _ => Some cs
  | w :: word', c :: cs' => if Ascii.eqb w c then strip_prefix word' cs' else None
  | _ :: _, [] => None
  end.

(** One JSON value at the front of [cs] and what follows it.  [depth]
    bounds the nesting of arrays and objects, the inner counters bound the
    number of elements of one array or object; both are at most the length
    of the text. *)
Fixpoint parse_value (depth : nat) (cs : list ascii) {struct depth}
  : option (JsValue * list ascii) :=
  match depth with
  | O => None
  | S depth' =>
      match skip_ws cs with
      | [] => None
      | c :: rest =>
          if Ascii.eqb c "[" then
            match skip_ws rest with
            | "]"%char :: rest' => Some (JArr [], rest')
            | rest1 =>
                (fix elements (n : nat) (cs : list ascii) (acc : list JsValue)
                   {struct n} : option (JsValue * list ascii) :=
                   match n with
                   | O => None
                   | S n' =>
                       match parse_value depth' cs with
                       | None => None
                       | Some (v, r) =>
                           match skip_ws r with
                           | ","%char :: r' => elements n' r' (acc ++ [v])%list
                           | "]"%char :: r' => Some (JArr (acc ++ [v])%list, r')
                           | _ => None
                           end
                       end
                   end) (length rest1) rest1 []
            end
          else if Ascii.eqb c "{" then
            match skip_ws rest with
            | "}"%char :: rest' => Some (JObj ∅, rest')
            | rest1 =>
                (fix members (n : nat) (cs : list ascii) (acc : gmap string JsValue)
                   {struct n} : option (JsValue * list ascii) :=
                   match n with
                   | O => None
                   | S n' =>
                       match skip_ws cs with
                       | q :: r0 =>
                           if Ascii.eqb q dquote then
                             match parse_chars r0 [] with
                             | None => None
                             | Some (key, r1) =>
                                 match skip_ws r1 with
                                 | ":"%char :: r2 =>
                                     match parse_value depth' r2 with
                                     | None => None
                                     | Some (v, r3) =>
                                         match skip_ws r3 with
                                         | ","%char :: r4 => members n' r4 (<[key := v]> acc)
                                         | "}"%char :: r4 => Some (JObj (<[key := v]> acc), r4)
                                         | _ => None
                                         end
                                     end
                                 | _ => None
                                 end
                             end
                           else None
                       | [] => None
                       end
                   end) (length rest1) rest1 ∅
            end
          else if Ascii.eqb c dquote then
            match parse_chars rest [] with
            | Some (str, r) => Some (JStr str, r)
            | None => None
            end
          else if Ascii.eqb c "t" then
            option_map (fun r => (JBool true, r)) (strip_prefix ["r"; "u"; "e"]%char rest)
          else if Ascii.eqb c "f" then
            option_map (fun r => (JBool false, r)) (strip_prefix ["a"; "l"; "s"; "e"]%char rest)
          else if Ascii.eqb c "n" then
            option_map (fun r => (JNull, r)) (strip_prefix ["u"; "l"; "l"]%char rest)
          else
            match parse_number (c :: rest) with
            | Some (n, r) => Some (JNum n, r)
            | None => None
            end
      end
  end.

(** [JSON.parse(text)]: [None] stands for the [SyntaxError] it throws. *)
Definition JSON_parse (text : string) : option JsValue :=
  let cs := list_ascii_of_string text in
  match parse_value (S (length cs)) cs with
  | Some (v, rest) =>
      match skip_ws rest with
      | [] => Some v
      | _ :: _ => None
      end
  | None => None
  end.

(** The text of a JSON string literal without escapes: [s] in quotes. *)
Definition quoted (s : string) : string :=
  String dquote (s ++ String dquote "").

End Json.

(* ===================================================================== *)
(** * modules/sfdx-falcon-recipe/types/index.ts                            *)
(* ===================================================================== *)

Module FalconTypes.

(** The state of an [SfdxFalconError2] instance: what [SfdxError] keeps
    ([name], [message], [actions], [exitCode], [data]) and the two private
    members added by the subclass. *)
Record SfdxFalconError2 : Type := MkFalconError
  { name : string;
    message : string;
    actions : list string;
    exitCode : Z;
    data : JsValue;
    _falconStack : string;
    _falconData : JsValue }.

(** An error object on the heap, tagged by its class:
    [Error] and its other subclasses, [SfdxFalconError2], and
    [SfdxCliError] (which extends [SfdxFalconError2]). *)
Inductive ErrorObject : Type :=
| PlainError (err_name err_message : string)
| FalconError2 (e : SfdxFalconError2)
| CliError (e : SfdxFalconError2) (cliError : gmap string JsValue).

(** [o instanceof SfdxFalconError2] *)
Definition instanceof_SfdxFalconError2 (o : ErrorObject) : bool :=
  match o with
  | PlainError _ _ => false
  | FalconError2 _ | CliError _ _ => true
  end.

Definition error_name (o : ErrorObject) : string :=
  match o with
  | PlainError n _ => n
  | FalconError2 e | CliError e _ => name e
  end.

Definition error_message (o : ErrorObject) : string :=
  match o with
  | PlainError _ m => m
  | FalconError2 e | CliError e _ => message e
  end.

(** [new SfdxFalconError2(message, name, actions, exitCode)] with the
    defaults of the signature; [name] is [None] when left out.  The parent
    [SfdxError] keeps [exitCode || 1]. *)
Definition new_SfdxFalconError2 (message : string) (name : option string)
    (actions : list string) (exitCode : Z) : SfdxFalconError2 :=
  let thisName :=
    match name with
    | Some n => if String.eqb n "" then "SfdxFalconError2" else n
    | None => "SfdxFalconError2"
    end in
  {| name := thisName;
     message := message;
     actions := actions;
     exitCode := if (exitCode =? 0)%Z then 1%Z else exitCode;
     data := JObj ∅;
     _falconStack := thisName ++ ": " ++ message;
     _falconData := JObj ∅ |}.

(** [addToStack(stackItem)] *)
Definition addToStack (stackItem : string) (e : SfdxFalconError2) : SfdxFalconError2 :=
  let indent := "    " in
  {| name := name e;
     message := message e;
     actions := actions e;
     exitCode := exitCode e;
     data := data e;
     _falconStack := _falconStack e ++ String (ascii_of_nat 10) (indent ++ stackItem);
     _falconData := _falconData e |}.

(** Object references and the heap of error objects. *)
Abbreviation loc := positive.
Abbreviation heap := (gmap positive ErrorObject).

(** What can be thrown or rejected: a reference to an error object, or
    any other value. *)
Inductive Value : Type :=
| Ref (l : loc)
| Plain (v : JsValue).

(** [new]: the object is stored at a location not in use. *)
Definition alloc (h : heap) (o : ErrorObject) : heap * loc :=
  let l := fresh (dom h) in
  (<[l := o]> h, l).

(** [SfdxFalconError2.wrap(error)]: the heap afterwards and the reference
    returned, or what the template literal of the last branch throws for a
    value that has no rendering.  [None] only for a reference to nothing,
    which no program can hold. *)
Definition wrap (h : heap) (error : Value)
  : option (Completion (heap * loc) RuntimeError) :=
  match error with
  | Ref l =>
      match h !! l with
      | None => None
      | Some o =>
          if instanceof_SfdxFalconError2 o then Some (Normal (h, l))
          else
            Some (Normal
                    (alloc h
                       (FalconError2
                          (new_SfdxFalconError2 (error_message o)
                             (Some ("SfdxFalconError2 (" ++ error_name o ++ ")")) [] 1))))
      end
  | Plain v =>
      match to_string v with
      | Throw e => Some (Throw e)
      | Normal rendered =>
          Some (Normal
                  (alloc h
                     (FalconError2
                        (new_SfdxFalconError2 rendered
                           (Some "SfdxFalconError2 (Unknown)") [] 1))))
      end
  end.

(** The body of the [try] block of the [SfdxCliError] constructor runs over
    the [cliError] object under construction and may throw. *)
Definition Try (A : Type) : Type :=
  gmap string JsValue -> Completion A RuntimeError * gmap string JsValue.

Definition ret {A : Type} (a : A) : Try A := fun st => (Normal a, st).

Definition bind {A B : Type} (m : Try A) (f : A -> Try B) : Try B :=
  fun st =>
    match m st with
    | (Normal a, st') => f a st'
    | (Throw e, st') => (Throw e, st')
    end.

Notation "'let!' x ':=' m 'in' k" := (bind m (fun x => k))
  (at level 10, x name, m at level 100, k at level 200).
Notation "m ;; k" := (bind m (fun _ => k))
  (at level 100, k at level 200, right associativity).

(** Run a computation that does not touch [cliError]. *)
Definition lift {A : Type} (c : Completion A RuntimeError) : Try A :=
  fun st => (c, st).

(** [this.cliError.k = v] *)
Definition assign (k : string) (v : JsValue) : Try unit :=
  fun st => (Normal tt, set_own st k v).

(** [JSON.parse(text)], throwing a [SyntaxError]. *)
Definition parse (text : string) : Completion JsValue RuntimeError :=
  match Json.JSON_parse text with
  | Some v => Normal v
  | None => Throw (MkRuntimeError "SyntaxError" "Unexpected token in JSON")
  end.

(** The [try] block. [thisName] is [this.name]. *)
Definition try_block (thisName stdErrBuffer : string) : Try unit :=
  let! parsedError := lift (parse stdErrBuffer) in
  let! v := lift (get_prop parsedError "name") in
  assign "name" (js_or v (JStr "Unknown CLI Error")) ;;
  let! v := lift (get_prop parsedError "message") in
  assign "message" (js_or v (JStr "Unknown CLI Error")) ;;
  let! v := lift (get_prop parsedError "status") in
  assign "status" (if negb (String.eqb (typeof v) "undefined") then v else JInt 1) ;;
  let! v := lift (get_prop parsedError "stack") in
  assign "stack" (js_or v (JStr thisName)) ;;
  let! v := lift (get_prop parsedError "result") in
  assign "result" (js_or v (JObj ∅)) ;;
  let! v := lift (get_prop parsedError "warnings") in
  assign "warnings" (js_or v (JArr [])).

(** The [catch] block. *)
Definition catch_block (stdErrBuffer : string) : Try unit :=
  assign "name" (JStr "ERROR_NOT_PARSEABLE") ;;
  assign "message" (JStr "Unparseable CLI Error (see 'cliError.result.rawResult' for raw error)") ;;
  assign "status" (JInt 999) ;;
  assign "stack" (JStr "Unparseable CLI Error (see 'cliError.result.rawResult' for raw error)") ;;
  assign "result" (JObj (obj [("rawResult", JStr stdErrBuffer)])) ;;
  assign "warnings" (JArr []).

(** An [SfdxCliError] instance. *)
Record SfdxCliError : Type := MkCliError
  { base : SfdxFalconError2;
    cliError : gmap string JsValue }.

(** [new SfdxCliError(stdErrBuffer, message)]; [message] is [None] when
    left out and then defaults to ['Unknown CLI Error'].  The template
    literal of the last statement stands after the [try] and [catch]
    blocks: when the name or the message kept in [cliError] has no
    rendering, the constructor throws. *)
Definition new_SfdxCliError (stdErrBuffer : string) (message : option string)
  : Completion SfdxCliError RuntimeError :=
  let message := default "Unknown CLI Error" message in
  let this := new_SfdxFalconError2 ("ERROR_SALESFORCE_CLI: " ++ message)
                (Some "SfdxCliError") [] 1 in
  let cliError : gmap string JsValue := ∅ in
  let cliError :=
    match try_block (name this) stdErrBuffer cliError with
    | (Normal _, cliError) => cliError
    | (Throw parsingError, cliError) => snd (catch_block stdErrBuffer cliError)
    end in
  match to_string (get_own cliError "name") with
  | Throw e => Throw e
  | Normal cliName =>
      match to_string (get_own cliError "message") with
      | Throw e => Throw e
      | Normal cliMessage =>
          let this := addToStack (cliName ++ ": " ++ cliMessage) this in
          Normal {| base := this; cliError := cliError |}
      end
  end.

(** The [cliError] of the synthetic error for a buffer that cannot be
    decoded. *)
Definition unparseable (stdErrBuffer : string) : gmap string JsValue :=
  obj [("name", JStr "ERROR_NOT_PARSEABLE");
       ("message", JStr "Unparseable CLI Error (see 'cliError.result.rawResult' for raw error)");
       ("status", JInt 999);
       ("stack", JStr "Unparseable CLI Error (see 'cliError.result.rawResult' for raw error)");
       ("result", JObj (obj [("rawResult", JStr stdErrBuffer)]));
       ("warnings", JArr [])].

(** The property [k] of a decoded value that is not [null]: an object
    has it or not, anything else has not. *)
Definition decoded_prop (v : JsValue) (k : string) : JsValue :=
  match v with
  | JObj fields => default JUndefined (fields !! k)
  | _ => JUndefined
  end.

(** The [cliError] copied from a decoded value: every member that is
    absent or falsy gets its default, [status] gets 1 only when absent. *)
Definition copied (v : JsValue) : gmap string JsValue :=
  obj [("name", js_or (decoded_prop v "name") (JStr "Unknown CLI Error"));
       ("message", js_or (decoded_prop v "message") (JStr "Unknown CLI Error"));
       ("status", match decoded_prop v "status" with
                  | JUndefined => JInt 1
                  | st => st
                  end);
       ("stack", js_or (decoded_prop v "stack") (JStr "SfdxCliError"));
       ("result", js_or (decoded_prop v "result") (JObj ∅));
       ("warnings", js_or (decoded_prop v "warnings") (JArr []))].

(** The members of [CliErrorDetail]. *)
Definition cliError_members : list string :=
  ["status"; "result"; "name"; "message"; "stack"; "warnings"].

End FalconTypes.

(* ===================================================================== *)
(** * The Result Node and the action context                              *)
(* ===================================================================== *)

Module Result.

Inductive SfdxFalconResultType : Type :=
| ENGINE | ACTION | EXECUTOR | UTILITY | COMMAND.

Inductive SfdxFalconResultStatus : Type :=
| INITIALIZED | EXECUTING | SUCCESS | FAILURE | ERROR.

Record SfdxFalconResultOptions : Type := MkOptions
  { startNow : bool;
    bubbleError : bool;
    bubbleFailure : bool;
    failureIsError : bool }.

(** Modelled from the spec: the class [SfdxFalconResult] of
    [modules/sfdx-falcon-result] is not among the sources. This is the
    Result Node of the data model: its kind, its status, its opaque detail,
    the cause absorbed when a child's error bubbles, its children in
    insertion order and its bubbling options. *)
Inductive SfdxFalconResult : Type := MkResult
  { name : string;
    kind : SfdxFalconResultType;
    status : SfdxFalconResultStatus;
    detail : JsValue;
    cause : JsValue;
    children : list SfdxFalconResult;
    options : SfdxFalconResultOptions }.

Definition with_status (st : SfdxFalconResultStatus) (r : SfdxFalconResult) :=
  MkResult (name r) (kind r) st (detail r) (cause r) (children r) (options r).

Definition with_detail (d : JsValue) (r : SfdxFalconResult) :=
  MkResult (name r) (kind r) (status r) d (cause r) (children r) (options r).

Definition with_cause (c : JsValue) (r : SfdxFalconResult) :=
  MkResult (name r) (kind r) (status r) (detail r) c (children r) (options r).

Definition with_children (cs : list SfdxFalconResult) (r : SfdxFalconResult) :=
  MkResult (name r) (kind r) (status r) (detail r) (cause r) cs (options r).

Definition is_terminal (st : SfdxFalconResultStatus) : bool :=
  match st with
  | SUCCESS | FAILURE | ERROR => true
  | INITIALIZED | EXECUTING => false
  end.

Definition is_status (a b : SfdxFalconResultStatus) : bool :=
  match a, b with
  | INITIALIZED, INITIALIZED | EXECUTING, EXECUTING | SUCCESS, SUCCESS
  | FAILURE, FAILURE | ERROR, ERROR => true
  | _, _ => false
  end.

(** Modelled from the spec: [addChild] is not among the sources.  The
    result is the parent afterwards, returned ([Normal]) or raised
    ([Throw]).  A terminal parent rejects the child and keeps its children;
    otherwise the child is appended, an [ERROR] child of a parent with
    [bubbleError] turns the parent into [ERROR] and raises it, a [FAILURE]
    child of a parent with [bubbleFailure] turns it into [FAILURE] (or
    [ERROR] with [failureIsError]) and returns, any other child leaves the
    status alone. *)
Definition addChild (parent child : SfdxFalconResult)
  : Completion SfdxFalconResult SfdxFalconResult :=
  if is_terminal (status parent) then Throw parent
  else
    let parent := with_children (children parent ++ [child]) parent in
    if is_status (status child) ERROR && bubbleError (options parent)
    then Throw (with_status ERROR (with_cause (detail child) parent))
    else if is_status (status child) FAILURE && bubbleFailure (options parent)
    then Normal (with_status (if failureIsError (options parent) then ERROR else FAILURE) parent)
    else Normal parent.

(** What an Executor settles with: a Result Node already, a runtime
    error, or any other value. *)
Inductive Outcome : Type :=
| IsResult (r : SfdxFalconResult)
| IsError (e : RuntimeError)
| IsValue (v : JsValue).

Definition outcome_detail (o : Outcome) : JsValue :=
  match o with
  | IsResult r => detail r
  | IsError e => JObj (obj [("name", JStr (rt_name e)); ("message", JStr (rt_message e))])
  | IsValue v => v
  end.

Definition default_options : SfdxFalconResultOptions :=
  MkOptions true true true false.

(** Modelled from the spec: [wrapRejectedPromise] is not among the
    sources.  A rejection that is not yet a Result Node becomes a node of
    the given kind with status [ERROR], or [FAILURE] when the error is a
    recognized expected negative outcome. *)
Definition wrapRejectedPromise (recognized : Outcome -> bool)
    (rejected : Outcome) (source : string) (kind : SfdxFalconResultType)
  : SfdxFalconResult :=
  match rejected with
  | IsResult r => r
  | _ =>
      MkResult source kind (if recognized rejected then FAILURE else ERROR)
        (outcome_detail rejected) JUndefined [] default_options
  end.

(** Modelled from the spec: the counterpart for a fulfilled Executor call,
    a node of the given kind with status [SUCCESS]. *)
Definition wrapResolvedPromise (resolved : Outcome) (source : string)
    (kind : SfdxFalconResultType) : SfdxFalconResult :=
  match resolved with
  | IsResult r => r
  | _ => MkResult source kind SUCCESS (outcome_detail resolved) JUndefined [] default_options
  end.

(** Modelled from the spec: [addRejectedChild] and [addResolvedChild] are
    not among the sources; they normalize and then attach. *)
Definition addRejectedChild (recognized : Outcome -> bool)
    (parent : SfdxFalconResult) (rejected : Outcome)
    (kind : SfdxFalconResultType) (source : string)
  : Completion SfdxFalconResult SfdxFalconResult :=
  addChild parent (wrapRejectedPromise recognized rejected source kind).

Definition addResolvedChild (parent : SfdxFalconResult) (resolved : Outcome)
    (kind : SfdxFalconResultType) (source : string)
  : Completion SfdxFalconResult SfdxFalconResult :=
  addChild parent (wrapResolvedPromise resolved source kind).

(** Modelled from the spec: the method [throw] is not among the sources;
    as [error(err)] followed by raising the node, it turns the node into
    [ERROR] with [err] as cause, and the node is what gets thrown. *)
Definition result_throw (r : SfdxFalconResult) (err : Outcome) : SfdxFalconResult :=
  with_status ERROR (with_cause (outcome_detail err) r).

End Result.

Module Appx.
Import Result.

Record TargetOrg : Type := { alias : string }.

Record ProjectContext : Type :=
  { configPath : string;
    mdapiSourcePath : string }.

Record ListrExecutionOptions : Type := { observer : JsValue }.

(** The members of [AppxEngineActionContext] that the actions read. *)
Record AppxEngineActionContext : Type :=
  { targetOrg : TargetOrg;
    devHubAlias : string;
    projectContext : ProjectContext;
    logLevel : string;
    listrExecOptions : ListrExecutionOptions }.

(** Modelled from the spec: [createActionResult] of the base class
    [AppxEngineAction] is not among the sources.  It builds the baseline
    [ACTION] node, seeded with the standard detail (the options echoed, the
    environment alias, a placeholder for the messages) and with the given
    options; [startNow] starts it. *)
Definition createActionResult (actionName : string)
    (actionContext : AppxEngineActionContext)
    (actionOptions : gmap string JsValue)
    (options : SfdxFalconResultOptions) : SfdxFalconResult :=
  MkResult actionName ACTION
    (if startNow options then EXECUTING else INITIALIZED)
    (JObj (obj [("actionOptions", JObj actionOptions);
                ("targetOrgAlias", JStr (alias (targetOrg actionContext)));
                ("executorMessages", JNull)]))
    JUndefined [] options.

(** [{...v}]: the own properties of an object; a primitive has none. *)
Definition spread (v : JsValue) : gmap string JsValue :=
  match v with
  | JObj fields => fields
  | _ => ∅
  end.

End Appx.

(* ===================================================================== *)
(** * create-user: option validation and default password                 *)
(* ===================================================================== *)

Module CreateUser.

(** [throw new Error(msg)]. *)
Record JsError : Type := MkError { error_message : string }.

(** [CreateUserAction.validateActionOptions] *)
Definition validateActionOptions (actionOptions : gmap string JsValue)
  : Completion unit JsError :=
  if String.eqb (typeof (get_own actionOptions "definitionFile")) "undefined"
  then Throw (MkError "ERROR_MISSING_OPTION: 'definitionFile'")
  else if String.eqb (typeof (get_own actionOptions "sfdxUserAlias")) "undefined"
  then Throw (MkError "ERROR_MISSING_OPTION: 'sfdxUserAlias'")
  else Normal tt.

(** An option is missing when the key is absent or holds [undefined]. *)
Definition is_missing (actionOptions : gmap string JsValue) (key : string) : bool :=
  match actionOptions !! key with
  | None | Some JUndefined => true
  | Some _ => false
  end.

(** The validation in the words of the specification, for a list of
    required keys: the error names the first one that is missing. *)
Definition validate_required (required : list string)
    (actionOptions : gmap string JsValue) : Completion unit JsError :=
  match find (is_missing actionOptions) required with
  | Some key => Throw (MkError ("ERROR_MISSING_OPTION: '" ++ key ++ "'"))
  | None => Normal tt
  end.

(** [determineDefaultPassword] *)
Definition determineDefaultPassword (suggestedPassword : JsValue) : JsValue :=
  if negb (to_boolean suggestedPassword)
  then JStr "1HappyCloud"
  else suggestedPassword.

Section ExecuteAction.
Import Result Appx.

(** The collaborators: how to tell an expected negative outcome, the file
    reader, the username utility and the hybrid Executor. *)
Variable recognized : Outcome -> bool.
Variable readConfigFile : string -> JsValue -> Settled JsValue Outcome.
Variable createUniqueUsername : JsValue -> string.
Variable createUser :
  string -> JsValue -> JsValue -> TargetOrg -> gmap string JsValue -> JsValue ->
  Settled SfdxFalconResult Outcome.

(** [CreateUserAction.executeAction].  [actionResult] is rebound at every
    mutation of the node; the handler of [.catch] sees the node as the
    handler of [.then] left it. *)
Definition executeAction (actionContext : AppxEngineActionContext)
    (actionOptions : gmap string JsValue) : Settled SfdxFalconResult Outcome :=
  let actionResult :=
    createActionResult "create-user" actionContext actionOptions
      {| startNow := true; bubbleError := true; bubbleFailure := true;
         failureIsError := false |} in
  let detail :=
    obj [("userDefinition", JNull); ("uniqueUsername", JNull);
         ("defaultPassword", JNull); ("executorMessages", JNull)] in
  let actionResult := with_detail (JObj detail) actionResult in
  match p_catch
          (readConfigFile (configPath (projectContext actionContext))
                          (get_own actionOptions "definitionFile"))
          (fun error => Throw (IsResult (result_throw actionResult error))) with
  | Rejected thrown => Rejected thrown
  | Resolved userDefinition =>
      let detail := set_own detail "userDefinition" userDefinition in
      let actionResult := with_detail (JObj detail) actionResult in
      match get_prop userDefinition "Username" with
      | Throw e => Rejected (IsError e)
      | Normal username =>
          let uniqueUsername := createUniqueUsername username in
          let detail := set_own detail "uniqueUsername" (JStr uniqueUsername) in
          let actionResult := with_detail (JObj detail) actionResult in
          match get_prop userDefinition "password" with
          | Throw e => Rejected (IsError e)
          | Normal password =>
              let defaultPassword := determineDefaultPassword password in
              let detail := set_own detail "defaultPassword" defaultPassword in
              let actionResult := with_detail (JObj detail) actionResult in
              let orgAlias := alias (targetOrg actionContext) in
              let executorMessages :=
                obj [("progressMsg",
                      JStr ("Creating User '" ++ uniqueUsername ++ "' in " ++ orgAlias));
                     ("errorMsg",
                      JStr ("Failed to create User '" ++ uniqueUsername ++ "' in " ++ orgAlias));
                     ("successMsg",
                      JStr ("User '" ++ uniqueUsername ++ "' created successfully"))] in
              let detail := set_own detail "executorMessages" (JObj executorMessages) in
              let actionResult := with_detail (JObj detail) actionResult in
              let on_rejected (actionResult : SfdxFalconResult) (executorResult : Outcome) :=
                let executorResult :=
                  wrapRejectedPromise recognized executorResult "hybrid:createUser" EXECUTOR in
                match addChild actionResult executorResult with
                | Normal r => Resolved r
                | Throw r => Rejected (IsResult r)
                end in
              match createUser uniqueUsername defaultPassword userDefinition
                      (targetOrg actionContext) executorMessages
                      (observer (listrExecOptions actionContext)) with
              | Resolved executorResult =>
                  match addChild actionResult executorResult with
                  | Normal r => Resolved r
                  | Throw r => on_rejected r (IsResult r)
                  end
              | Rejected executorResult => on_rejected actionResult executorResult
              end
          end
      end
  end.

End ExecuteAction.

End CreateUser.

(* ===================================================================== *)
(** * deploy-metadata                                                     *)
(* ===================================================================== *)

Module DeployMetadata.
Import Result Appx.

(** What one run of [executeAction] does: the command definitions handed
    to the Executor, in order, and how the returned promise settles. *)
Record ActionRun : Type := MkRun
  { commands : list (gmap string JsValue);
    settled : Settled SfdxFalconResult Outcome }.

Section ExecuteAction.

(** The collaborators: how to tell an expected negative outcome, Node's
    [path.join] on two strings, and the SFDX Executor. *)
Variable recognized : Outcome -> bool.
Variable path_join : string -> string -> string.
Variable executeSfdxCommand : gmap string JsValue -> Settled Outcome Outcome.

(** [path.join(a, b)] where [b] is of type [any]: a segment that is not a
    string is a [TypeError]. *)
Definition path_join_any (a : string) (b : JsValue) : Completion string RuntimeError :=
  match b with
  | JStr s => Normal (path_join a s)
  | _ => Throw (MkRuntimeError "TypeError" "The 'path' argument must be of type string")
  end.

(** [DeployMetadataAction.executeAction].  The three messages render the
    same [mdapiSource]: the first template literal throws or none does.
    After [.catch], the value is either what the Executor resolved with
    ([inl]) or the action's own node returned by [addRejectedChild]
    ([inr]); this is the test [resolvedPromise === actionResult] of the
    [.then] handler. *)
Definition executeAction (actionContext : AppxEngineActionContext)
    (actionOptions : gmap string JsValue) : ActionRun :=
  let actionResult :=
    createActionResult "deploy-metadata" actionContext actionOptions
      {| startNow := true; bubbleError := true; bubbleFailure := true;
         failureIsError := true |} in
  let detail :=
    obj [("executorMessages", JNull); ("sfdxCommandDef", JNull)]
      ∪ spread (detail actionResult) in
  let actionResult := with_detail (JObj detail) actionResult in
  let mdapiSource := get_own actionOptions "mdapiSource" in
  match to_string mdapiSource with
  | Throw e => MkRun [] (Rejected (IsError e))
  | Normal rendered =>
  let executorMessages :=
    obj [("progressMsg", JStr ("Deploying MDAPI source from '" ++ rendered ++ "'"));
         ("errorMsg", JStr ("Deployment failed for MDAPI source '" ++ rendered ++ "'"));
         ("successMsg", JStr ("Deployment of '" ++ rendered ++ "' succeeded"))] in
  let detail := set_own detail "executorMessages" (JObj executorMessages) in
  let actionResult := with_detail (JObj detail) actionResult in
  match path_join_any (mdapiSourcePath (projectContext actionContext)) mdapiSource with
  | Throw e => MkRun [] (Rejected (IsError e))
  | Normal deployDir =>
      let sfdxCommandDef :=
        obj [("command", JStr "force:mdapi:deploy");
             ("progressMsg", get_own executorMessages "progressMsg");
             ("errorMsg", get_own executorMessages "errorMsg");
             ("successMsg", get_own executorMessages "successMsg");
             ("observer", observer (listrExecOptions actionContext));
             ("commandArgs", JArr []);
             ("commandFlags",
              JObj (obj [("FLAG_TARGETUSERNAME", JStr (alias (targetOrg actionContext)));
                         ("FLAG_DEPLOYDIR", JStr deployDir);
                         ("FLAG_WAIT", JInt 5);
                         ("FLAG_TESTLEVEL", JStr "NoTestRun");
                         ("FLAG_JSON", JBool true);
                         ("FLAG_LOGLEVEL", JStr (logLevel actionContext))]))] in
      let detail := set_own detail "sfdxCommandDef" (JObj sfdxCommandDef) in
      let actionResult := with_detail (JObj detail) actionResult in
      let caught : Settled (Outcome + SfdxFalconResult) Outcome :=
        match executeSfdxCommand sfdxCommandDef with
        | Resolved resolved => Resolved (inl resolved)
        | Rejected rejectedPromise =>
            match addRejectedChild recognized actionResult rejectedPromise
                    EXECUTOR "sfdx:executeSfdxCommand" with
            | Normal r => Resolved (inr r)
            | Throw r => Rejected (IsResult r)
            end
        end in
      MkRun [sfdxCommandDef]
        (p_then caught
           (fun resolvedPromise =>
              match resolvedPromise with
              | inr actionResult => Normal actionResult
              | inl resolved =>
                  match addResolvedChild actionResult resolved
                          EXECUTOR "sfdx:executeSfdxCommand" with
                  | Normal r => Normal r
                  | Throw r => Throw (IsResult r)
                  end
              end))
  end
  end.

End ExecuteAction.

End DeployMetadata.

(* ===================================================================== *)
(** * delete-scratch-org                                                  *)
(* ===================================================================== *)

Module DeleteScratchOrg.
Import Appx.

(** The members of the action instance. *)
Record DeleteScratchOrgAction : Type := MkAction
  { actionType : string;
    actionName : string;
    command : string;
    description : string;
    successDelay : Z;
    errorDelay : Z;
    progressDelay : Z;
    progressMessage : string;
    errorMessage : string;
    successMessage : string;
    sfdxCommandDef : option (gmap string JsValue) }.

(** [initializeAction] *)
Definition initializeAction : DeleteScratchOrgAction :=
  {| actionType := "SFDX_CLI_COMMAND";
     actionName := "delete-scratch-org";
     command := "force:org:delete";
     description := "Delete Scratch Org";
     successDelay := 2;
     errorDelay := 2;
     progressDelay := 1000;
     progressMessage := "";
     errorMessage := "";
     successMessage := "";
     sfdxCommandDef := None |}.

(** What the promise of [executeAction] is fulfilled with: a value as the
    Executor gave it, or an array that took a property [status], for which
    [JsValue] has no place. *)
Inductive ActionValue : Type :=
| Passed (v : JsValue)
| ArrayWithStatus (items : list JsValue) (status : JsValue).

(** [sfdxShellResult.status = 0; return sfdxShellResult;] in strict mode:
    an object or an array takes the property, [undefined] and [null] have
    no properties and a primitive cannot take one. *)
Definition suppress (sfdxShellResult : JsValue) : Completion ActionValue RuntimeError :=
  match sfdxShellResult with
  | JObj fields => Normal (Passed (JObj (set_own fields "status" (JInt 0))))
  | JArr items => Normal (ArrayWithStatus items (JInt 0))
  | JUndefined =>
      Throw (MkRuntimeError "TypeError" "Cannot set property 'status' of undefined")
  | JNull =>
      Throw (MkRuntimeError "TypeError" "Cannot set property 'status' of null")
  | JBool _ | JNaN | JNum _ | JStr _ =>
      Throw (MkRuntimeError "TypeError"
               ("Cannot create property 'status' on " ++ typeof sfdxShellResult))
  end.

Section ExecuteAction.

(** The SFDX Executor settles with any value; its result type promises an
    [SfdxShellResult] object. *)
Variable executeSfdxCommand : gmap string JsValue -> Settled JsValue JsValue.

(** [DeleteScratchOrgAction.executeAction]: the instance afterwards and how
    the returned promise settles.  The first template literal renders the
    alias before anything is assigned: when it throws, the instance is as
    before and nothing is handed to the Executor. *)
Definition executeAction (this : DeleteScratchOrgAction)
    (actionContext : AppxEngineActionContext)
    (actionOptions : gmap string JsValue)
  : DeleteScratchOrgAction * Settled ActionValue RuntimeError :=
  match to_string (get_own actionOptions "scratchOrgAlias") with
  | Throw e => (this, Rejected e)
  | Normal scratchOrgAlias =>
  let progressMessage := "Marking scratch org '" ++ scratchOrgAlias ++ "' for deletion" in
  let errorMessage :=
    "Request to mark scratch org '" ++ scratchOrgAlias ++ "' for deletion failed" in
  let successMessage :=
    "Scratch org '" ++ scratchOrgAlias ++ "' successfully marked for deletion" in
  let def :=
    obj [("command", JStr (command this));
         ("progressMsg", JStr progressMessage);
         ("errorMsg", JStr errorMessage);
         ("successMsg", JStr successMessage);
         ("observer", observer (listrExecOptions actionContext));
         ("commandArgs", JArr []);
         ("commandFlags",
          JObj (obj [("FLAG_TARGETUSERNAME", JStr (alias (targetOrg actionContext)));
                     ("FLAG_TARGETDEVHUBUSERNAME", JStr (devHubAlias actionContext));
                     ("FLAG_NOPROMPT", JBool true);
                     ("FLAG_JSON", JBool true);
                     ("FLAG_LOGLEVEL", JStr (logLevel actionContext))]))] in
  let this :=
    {| actionType := actionType this;
       actionName := actionName this;
       command := command this;
       description := description this;
       successDelay := successDelay this;
       errorDelay := errorDelay this;
       progressDelay := progressDelay this;
       progressMessage := progressMessage;
       errorMessage := errorMessage;
       successMessage := successMessage;
       sfdxCommandDef := Some def |} in
  let sfdxShellResult :=
    match executeSfdxCommand def with
    | Resolved sfdxShellResult => Resolved (Passed sfdxShellResult)
    | Rejected sfdxShellResult =>
        (* We need to suppress errors here because we might be trying to
           delete a scratch org that does not exist. *)
        match suppress sfdxShellResult with
        | Normal sfdxShellResult => Resolved sfdxShellResult
        | Throw e => Rejected e
        end
    end in
  (this, sfdxShellResult)
  end.

End ExecuteAction.

End DeleteScratchOrg.

(* ===================================================================== *)
(** * commands/falcon/demo/deploy.ts                                       *)
(* ===================================================================== *)

Module DemoDeploy.

(** What [validateDemo] resolves with: an object that has the method
    [getRunTime], as a [FalconStatusReport] has, or any other value. *)
Inductive Report (StatusReport : Type) : Type :=
| Instance (r : StatusReport)
| Other (v : JsValue).
Arguments Instance {StatusReport} r.
Arguments Other {StatusReport} v.

Record FalconJsonResponse (StatusReport : Type) : Type := MkResponse
  { status : Z;
    result : Report StatusReport }.
Arguments MkResponse {StatusReport} status result.
Arguments status {StatusReport} f.
Arguments result {StatusReport} f.

(** [SfdxErrorConfig]: package, bundle and key of the message, the tokens
    merged into it and the recommended actions added to it. *)
Record SfdxErrorConfig : Type := MkConfig
  { packageName : string;
    bundleName : string;
    errorKey : string;
    errorTokens : list JsValue;
    errorActions : list (string * list string) }.

Definition setErrorTokens (tokens : list JsValue) (c : SfdxErrorConfig) :=
  MkConfig (packageName c) (bundleName c) (errorKey c) tokens (errorActions c).

Definition addAction (key : string) (tokens : list string) (c : SfdxErrorConfig) :=
  MkConfig (packageName c) (bundleName c) (errorKey c) (errorTokens c)
    (errorActions c ++ [(key, tokens)]).

(** The [SfdxError] made by [SfdxError.create(config)]. *)
Record SfdxError : Type := MkSfdxError
  { config : SfdxErrorConfig;
    commandName : option string }.

(** The two members of the command instance. *)
Record FalconDemoDeploy (StatusReport : Type) : Type := MkCommand
  { statusReport : option (Report StatusReport);
    jsonResponse : FalconJsonResponse StatusReport }.
Arguments MkCommand {StatusReport} statusReport jsonResponse.
Arguments statusReport {StatusReport} f.
Arguments jsonResponse {StatusReport} f.

(** What [run] rejects with: its own [Error], a value that a collaborator
    threw or rejected with (an error object among them, as the object of
    its own properties), an error of the runtime, or the [SfdxError] of
    [onError]. *)
Inductive RunError : Type :=
| PlainError (message : string)
| Foreign (v : JsValue)
| Runtime (e : RuntimeError)
| CommandError (e : SfdxError).

(** What the handler of [.catch] receives: the value that [validateDemo]
    rejected with or that [getRunTime] threw, or an error of the runtime
    thrown in [onSuccess]. *)
Inductive Caught : Type :=
| CaughtValue (v : JsValue)
| CaughtError (e : RuntimeError).

(** [falconError.k] on what was caught; of an error of the runtime, the
    code reads [message], which is there, and [stdErrJson], which is
    not. *)
Definition caught_prop (falconError : Caught) (k : string)
  : Completion JsValue RuntimeError :=
  match falconError with
  | CaughtValue v => get_prop v k
  | CaughtError e =>
      Normal (if String.eqb k "message" then JStr (rt_message e) else JUndefined)
  end.

Definition contains (word subject : string) : bool :=
  RegExp.test (RegExp.Lit (list_ascii_of_string word)) subject.

(** [onError].  [test] renders the message it is given. *)
Definition onError (falconError : Caught) : Completion unit RunError :=
  let sfdxErrorConfig :=
    MkConfig "sfdx-falcon" "falconErrorMessages" "errDefault" [] [] in
  match caught_prop falconError "stdErrJson" with
  | Throw e => Throw (Runtime e)
  | Normal stdError =>
      match caught_prop falconError "message" with
      | Throw e => Throw (Runtime e)
      | Normal message =>
          match get_prop stdError "message" with
          | Throw e => Throw (Runtime e)
          | Normal stdMessage =>
              let sfdxErrorConfig :=
                setErrorTokens [message; stdMessage] sfdxErrorConfig in
              match to_string stdMessage with
              | Throw e => Throw (Runtime e)
              | Normal subject =>
                  let sfdxErrorConfig :=
                    if contains "VMC_DEV_TEST1" subject then
                      addAction "actionDevTest2" ["TEST_TWO"]
                        (addAction "actionDevTest1" ["TEST_ONE"] sfdxErrorConfig)
                    else if contains "VMC_DEV_TEST2" subject then
                      addAction "actionDevTest2" ["TEST_THREE"] sfdxErrorConfig
                    else if contains "VMC_DEV_TEST3" subject then
                      addAction "actionDevTest2" ["TEST_FOUR"] sfdxErrorConfig
                    else sfdxErrorConfig in
                  let sfdxError := MkSfdxError sfdxErrorConfig None in
                  let sfdxError :=
                    MkSfdxError (config sfdxError) (Some "falcon:demo:deploy") in
                  Throw (CommandError sfdxError)
              end
          end
      end
  end.

Section Run.

(** The collaborators: the path validator, Node's [path.resolve] on a
    string, [AppxDemoProject.resolve], [validateDemo] on the project it
    yields, and the method [getRunTime] of a status report. *)
Variable Project : Type.
Variable StatusReport : Type.
Variable validateLocalPath : JsValue -> bool.
Variable path_resolve : string -> string.
Variable resolve : string -> JsValue -> Settled Project JsValue.
Variable validateDemo : Project -> Settled (Report StatusReport) JsValue.
Variable getRunTime : StatusReport -> bool -> Completion JsValue JsValue.

(** [onSuccess]: the instance afterwards, and whether the last statement,
    which prints [statusReport.getRunTime(true)], returned.  A value
    without that method makes it throw, after the response was set. *)
Definition onSuccess (this : FalconDemoDeploy StatusReport)
    (statusReport : Report StatusReport)
  : FalconDemoDeploy StatusReport * Completion unit Caught :=
  let this := MkCommand (Some statusReport) (jsonResponse this) in
  let this :=
    MkCommand (DemoDeploy.statusReport this)
      {| status := 0; result := statusReport |} in
  match statusReport with
  | Instance r =>
      match getRunTime r true with
      | Throw thrown => (this, Throw (CaughtValue thrown))
      | Normal runTime =>
          match to_string runTime with
          | Throw e => (this, Throw (CaughtError e))
          | Normal _ => (this, Normal tt)
          end
      end
  | Other JUndefined =>
      (this, Throw (CaughtError (MkRuntimeError "TypeError"
                               "Cannot read property 'getRunTime' of undefined")))
  | Other JNull =>
      (this, Throw (CaughtError (MkRuntimeError "TypeError"
                               "Cannot read property 'getRunTime' of null")))
  | Other _ =>
      (this, Throw (CaughtError (MkRuntimeError "TypeError"
                               "statusReport.getRunTime is not a function")))
  end.

Definition invalid_path_message : string :=
  "Deploy Directory can not begin with a ~, have unescaped spaces, or contain these invalid characters (' "
    ++ String Json.dquote " * |)".

(** [run]: the instance afterwards and how the returned promise settles.
    What [onSuccess] throws goes to the handler of [.catch], as a
    rejection of [validateDemo] does. *)
Definition run (flags : gmap string JsValue)
  : FalconDemoDeploy StatusReport * Settled (FalconJsonResponse StatusReport) RunError :=
  let deployDirFlag := js_or (get_own flags "deploydir") (JStr ".") in
  let debugModeFlag := js_or (get_own flags "falcondebug") (JBool false) in
  let this :=
    MkCommand None {| status := 1; result := Other (JStr "ERROR_RESPONSE_NOT_SET") |} in
  if negb (validateLocalPath deployDirFlag)
  then (this, Rejected (PlainError invalid_path_message))
  else
    match deployDirFlag with
    | JStr deployDir =>
        match resolve (path_resolve deployDir) debugModeFlag with
        | Rejected e => (this, Rejected (Foreign e))
        | Resolved appxDemoProject =>
            let caught (this : FalconDemoDeploy StatusReport) (falconError : Caught) :=
              match onError falconError with
              | Normal _ => (this, Resolved (jsonResponse this))
              | Throw thrown => (this, Rejected thrown)
              end in
            match validateDemo appxDemoProject with
            | Resolved statusReport =>
                match onSuccess this statusReport with
                | (this, Normal _) => (this, Resolved (jsonResponse this))
                | (this, Throw thrown) => caught this thrown
                end
            | Rejected falconError => caught this (CaughtValue falconError)
            end
        end
    | _ =>
        (this, Rejected (Runtime (MkRuntimeError "TypeError"
                                    "The 'path' argument must be of type string")))
    end.

End Run.

End DemoDeploy.

(* ===================================================================== *)
(** * git.ts: the shape of a Git URI                                       *)
(* ===================================================================== *)

Module GitUri.
Import RegExp Git.

(** A character that [[\w\.]] accepts. *)
Definition is_host_char (c : ascii) : bool :=
  in_class [CWord; CChar "."] c.

(** A character that [[\w\.@\:\/\-~]] accepts. *)
Definition is_path_char (c : ascii) : bool :=
  in_class [CWord; CChar "."; CChar "@"; CChar ":"; CChar "/"; CChar "-"; CChar "~"] c.

(** The four words that [(git|ssh|http(s)?)] accepts. *)
Definition is_protocol (head : string) : Prop :=
  head = "git" \/ head = "ssh" \/ head = "http" \/ head = "https".

(** What [gitUriRegEx] describes: either the URI starts with a protocol
    word, or it holds [git@<host>] anywhere; then a colon, optionally two
    slashes, a non-empty path, [.git], and optionally one slash, up to the
    end of the URI. *)
Definition git_uri_shape (uri : string) : Prop :=
  exists prefix head sep path slash,
    uri = prefix ++ head ++ ":" ++ sep ++ path ++ ".git" ++ slash
    /\ ((prefix = "" /\ is_protocol head)
        \/ exists host, head = "git@" ++ host /\ host <> ""
                        /\ all_chars is_host_char host = true)
    /\ (sep = "" \/ sep = "//")
    /\ path <> "" /\ all_chars is_path_char path = true
    /\ (slash = "" \/ slash = "/").

(** The characters of a URI of the shape, from the head on. *)
Definition uri_chars (head sep path slash : list ascii) : list ascii :=
  (head ++ ":"%char :: sep ++ path ++ ["."; "g"; "i"; "t"]%char ++ slash)%list.

Definition protocol_chars (head : list ascii) : Prop :=
  head = ["g"; "i"; "t"]%char \/ head = ["s"; "s"; "h"]%char
  \/ head = ["h"; "t"; "t"; "p"]%char \/ head = ["h"; "t"; "t"; "p"; "s"]%char.

End GitUri.

(* ===================================================================== *)
(** * git.ts: the functions that drive Git through the shell             *)
(* ===================================================================== *)

Module GitShell.
Import Git.

(** What the functions do to the outside world, in order: the calls to
    [shelljs] and the pause of [waitASecond]. *)
Inductive Effect : Type :=
| Cd (dir : string)
| Pwd
| Mkdir (option dir : string)
| Exec (command : string)
| ExecAsync (command : string)
| Which (program : string)
| Wait (seconds : JsNumber).

(** What a function can throw: an error of its own, the raw error of the
    shell call that failed, or an error of the runtime. *)
Inductive Thrown : Type :=
| Falcon (e : GitError)
| Shell (failed : Effect)
| Runtime (e : RuntimeError).

(** A computation over the trace of effects that may throw. *)
Definition Sh (A : Type) : Type :=
  list Effect -> Completion A Thrown * list Effect.

Definition ret {A : Type} (a : A) : Sh A := fun trace => (Normal a, trace).

Definition throw {A : Type} (e : Thrown) : Sh A := fun trace => (Throw e, trace).

Definition bind {A B : Type} (m : Sh A) (f : A -> Sh B) : Sh B :=
  fun trace =>
    match m trace with
    | (Normal a, trace') => f a trace'
    | (Throw e, trace') => (Throw e, trace')
    end.

(** [try { m } catch (e) { h e }] *)
Definition try_catch {A : Type} (m : Sh A) (h : Thrown -> Sh A) : Sh A :=
  fun trace =>
    match m trace with
    | (Normal a, trace') => (Normal a, trace')
    | (Throw e, trace') => h e trace'
    end.

Notation "m ;; k" := (bind m (fun _ => k))
  (at level 100, k at level 200, right associativity).

(** A value of type [number]. *)
Inductive Number : Type :=
| NotANumber
| Finite (n : JsNumber).

(** The white space and line terminators that [trim] removes, as UTF-8:
    is the string made of nothing else?  That is [s.trim() === '']. *)
Fixpoint is_blank_chars (cs : list ascii) : bool :=
  match cs with
  | [] => true
  | c :: rest =>
      let n := nat_of_ascii c in
      if ((n =? 9) || (n =? 10) || (n =? 11) || (n =? 12) || (n =? 13) || (n =? 32))%nat
      then is_blank_chars rest
      else
        match rest with
        | c2 :: rest2 =>
            let n2 := nat_of_ascii c2 in
            if ((n =? 194) && (n2 =? 160))%nat then is_blank_chars rest2
            else
              match rest2 with
              | c3 :: rest3 =>
                  let n3 := nat_of_ascii c3 in
                  if ((n =? 225) && (n2 =? 154) && (n3 =? 128))
                     || ((n =? 226) && (n2 =? 128)
                         && ((128 <=? n3) && (n3 <=? 138)
                             || (n3 =? 168) || (n3 =? 169) || (n3 =? 175)))
                     || ((n =? 226) && (n2 =? 129) && (n3 =? 159))
                     || ((n =? 227) && (n2 =? 128) && (n3 =? 128))
                     || ((n =? 239) && (n2 =? 187) && (n3 =? 191))
                  then is_blank_chars rest3
                  else false
              | [] => false
              end
        | [] => false
        end
  end%nat.

Definition is_blank (s : string) : bool := is_blank_chars (list_ascii_of_string s).

Section Shell.

(** The environment: whether a synchronous shell call fails (with
    [shell.config.fatal] set, a failing call throws), what [which] finds,
    what an asynchronous [exec] hands to its callback (exit code, stdout,
    stderr), and Node's [path.resolve(path.normalize(p))] and
    [path.join(a, b)] on strings. *)
Variable fails : list Effect -> Effect -> bool.
Variable found : list Effect -> string -> JsValue.
Variable exec_result : list Effect -> string -> Z * string * string.
Variable resolve_path : string -> string.
Variable path_join : string -> string -> string.

(** A synchronous shell call. *)
Definition shell (call : Effect) : Sh unit :=
  fun trace =>
    (if fails trace call then Throw (Shell call) else Normal tt, trace ++ [call])%list.

(** [shell.which(program)] *)
Definition which (program : string) : Sh JsValue :=
  fun trace =>
    (if fails trace (Which program) then Throw (Shell (Which program))
     else Normal (found trace program), trace ++ [Which program])%list.

Definition falcon {A : Type} (message name function : string) : Sh A :=
  throw (Falcon (FalconError message name (dbgNs ++ function))).

(** [gitClone]; an argument left out is [undefined] and takes its default.
    The command line is rendered inside the last [try]: what the conversion
    of [repoDirectory] throws goes to the handler of that [try]. *)
Definition gitClone (gitRemoteUri targetDirectory repoDirectory : JsValue) : Sh unit :=
  let targetDirectory :=
    match targetDirectory with JUndefined => JStr "." | v => v end in
  let repoDirectory :=
    match repoDirectory with JUndefined => JStr "" | v => v end in
  match gitRemoteUri with
  | JStr uri =>
      match targetDirectory with
      | JStr dir =>
          if is_blank dir
          then falcon "Must provide a non-empty string for targetDirectory"
                 "InvalidParameter" "gitClone"
          else
            let targetDirectory := resolve_path dir in
            try_catch
              (shell (Cd targetDirectory) ;; shell Pwd)
              (fun cdError =>
                 try_catch (shell (Mkdir "-p" targetDirectory))
                   (fun mkdirError =>
                      falcon ("Could not create directory '" ++ targetDirectory ++ "'")
                        "InvalidTargetDirectory" "gitClone") ;;
                 try_catch (shell (Cd targetDirectory))
                   (fun cdError2 =>
                      falcon ("Target directory '" ++ targetDirectory
                                ++ "' not found or is not accessible")
                        "NoTargetDirectory" "gitClone")) ;;
            try_catch
              (match to_string repoDirectory with
               | Normal rendered => shell (Exec ("git clone " ++ uri ++ " " ++ rendered))
               | Throw e => throw (Runtime e)
               end)
              (fun gitCloneError =>
                 match repoDirectory with
                 | JStr repo =>
                     falcon ("Destination path '" ++ path_join targetDirectory repo
                               ++ "' already exists and is not an empty directory.")
                       "InvalidDestination" "gitClone"
                 | _ =>
                     throw (Runtime (MkRuntimeError "TypeError"
                                       "The 'path' argument must be of type string"))
                 end)
      | _ =>
          falcon ("Expected string for targetDirectory but got '"
                    ++ typeof targetDirectory ++ "'") "TypeError" "gitClone"
      end
  | _ =>
      falcon ("Expected string for gitRemoteUri but got '" ++ typeof gitRemoteUri ++ "'")
        "TypeError" "gitClone"
  end.

(** [typeof v !== 'string' || v === ''] *)
Definition not_a_filled_string (v : JsValue) : bool :=
  match v with
  | JStr s => String.eqb s ""
  | _ => true
  end.

(** [gitInit] *)
Definition gitInit (targetDirectory : JsValue) : Sh unit :=
  if not_a_filled_string targetDirectory
  then falcon ("Expected non-empty string for targetDirectory but got '"
                 ++ typeof targetDirectory ++ "'") "TypeError" "gitInit"
  else
    shell (Cd (as_string targetDirectory)) ;;
    shell (Exec "git init").

(** [gitAddAndCommit] *)
Definition gitAddAndCommit (targetDirectory commitMessage : JsValue) : Sh unit :=
  if not_a_filled_string targetDirectory
  then falcon ("Expected non-empty string for targetDirectory but got '"
                 ++ typeof targetDirectory ++ "'") "TypeError" "gitAddAndCommit"
  else if not_a_filled_string commitMessage
  then falcon ("Expected non-empty string for commitMessage but got '"
                 ++ typeof commitMessage ++ "'") "TypeError" "gitAddAndCommit"
  else
    shell (Cd (as_string targetDirectory)) ;;
    shell (Exec "git add -A") ;;
    shell (Exec ("git commit -m " ++ Json.quoted (as_string commitMessage))).

(** [gitRemoteAddOrigin] *)
Definition gitRemoteAddOrigin (targetDirectory gitRemoteUri : JsValue) : Sh unit :=
  if not_a_filled_string targetDirectory
  then falcon ("Expected non-empty string for targetDirectory but got '"
                 ++ typeof targetDirectory ++ "'") "TypeError" "gitRemoteAddOrigin"
  else if not_a_filled_string gitRemoteUri
  then falcon ("Expected string for gitRemoteUri but got '"
                 ++ typeof gitRemoteUri ++ "'") "TypeError" "gitRemoteAddOrigin"
  else
    shell (Cd (as_string targetDirectory)) ;;
    shell (Exec ("git remote add origin " ++ as_string gitRemoteUri)).

(** [isGitInstalled] *)
Definition isGitInstalled : Sh bool :=
  try_catch
    (bind (which "git") (fun path => ret (to_boolean path)))
    (fun err => ret false).

(** [isGitRemoteEmpty] *)
Definition isGitRemoteEmpty (gitRemoteUri : JsValue) : Sh bool :=
  match gitRemoteUri with
  | JStr uri =>
      try_catch
        (shell (Exec ("git ls-remote --exit-code -h " ++ uri)) ;; ret true)
        (fun err => ret false)
  | _ =>
      falcon ("Expected string for gitRemoteUri but got '" ++ typeof gitRemoteUri ++ "'")
        "TypeError" "isGitRemoteEmpty"
  end.

(** [isGitRemoteReadable] *)
Definition isGitRemoteReadable (gitRemoteUri : JsValue) : Sh bool :=
  match gitRemoteUri with
  | JStr uri =>
      try_catch
        (shell (Exec ("git ls-remote -h " ++ uri)) ;; ret true)
        (fun err => ret false)
  | _ =>
      falcon ("Expected string for gitRemoteUri but got '" ++ typeof gitRemoteUri ++ "'")
        "TypeError" "isGitRemoteReadable"
  end.

(** The object built in the callback of the asynchronous [exec]. *)
Record ShellExecResult : Type := MkShellExecResult
  { code : Z;
    stdout : string;
    stderr : string;
    message : string;
    resolve : bool }.

(** What [isGitRemoteEmptyAsync] rejects with: an error thrown by its
    body, or the object of the callback. *)
Inductive AsyncRejection : Type :=
| RejectedThrown (e : Thrown)
| RejectedResult (r : ShellExecResult).

(** [isGitRemoteEmptyAsync]: the trace afterwards and how the promise
    settles; [waitSeconds] is [None] when left out and then 0. *)
Definition isGitRemoteEmptyAsync (gitRemoteUri : JsValue) (waitSeconds : option Number)
    (trace : list Effect)
  : Settled ShellExecResult AsyncRejection * list Effect :=
  let waitSeconds := default (Finite (Dec 0 0)) waitSeconds in
  match gitRemoteUri with
  | JStr uri =>
      match waitSeconds with
      | NotANumber =>
          (Rejected (RejectedThrown (Falcon (FalconError
             "Expected number for waitSeconds but got 'number'" "TypeError"
             (dbgNs ++ "isGitRemoteEmptyAsync")))), trace)
      | Finite seconds =>
          let trace :=
            if (0 <? mantissa seconds)%Z then (trace ++ [Wait seconds])%list else trace in
          let command := "git ls-remote --exit-code -h " ++ uri in
          let '(code, stdout, stderr) := exec_result trace command in
          let trace := (trace ++ [ExecAsync command])%list in
          let returnObject := MkShellExecResult code stdout stderr "" false in
          let returnObject :=
            if (code =? 0)%Z
            then MkShellExecResult code stdout stderr "Remote repository found" true
            else if (code =? 2)%Z
            then MkShellExecResult code stdout stderr
                   "Remote repository contains no commits" false
            else if (code =? 128)%Z
            then MkShellExecResult code stdout stderr "Remote repository not found" false
            else MkShellExecResult code stdout stderr "Unexpected Error" false in
          (if resolve returnObject
           then Resolved returnObject
           else Rejected (RejectedResult returnObject), trace)
      end
  | _ =>
      (Rejected (RejectedThrown (Falcon (FalconError
         ("Expected string for gitRemoteUri but got '" ++ typeof gitRemoteUri ++ "'")
         "TypeError" (dbgNs ++ "isGitRemoteEmptyAsync")))), trace)
  end.

End Shell.

End GitShell.

(* ===================================================================== *)
(** * types/index.ts: the methods of an error object                      *)
(* ===================================================================== *)

Module FalconMethods.
Import FalconTypes.

(** The [SfdxFalconError2] members of an error object; a plain [Error]
    has none. *)
Definition falcon_part (o : ErrorObject) : option SfdxFalconError2 :=
  match o with
  | PlainError _ _ => None
  | FalconError2 e | CliError e _ => Some e
  end.

Definition with_falcon_part (e : SfdxFalconError2) (o : ErrorObject) : ErrorObject :=
  match o with
  | PlainError n m => PlainError n m
  | FalconError2 _ => FalconError2 e
  | CliError _ c => CliError e c
  end.

(** [error.addToStack(stackItem)] on the object at [l], which is changed
    in place; [stackItem] is [None] when left out.  [None] when [l] holds
    no [SfdxFalconError2], which has no such method. *)
Definition addToStack_at (h : heap) (l : loc) (stackItem : option string)
  : option heap :=
  match h !! l with
  | Some o =>
      match falcon_part o with
      | Some e =>
          let stackItem := default "at UNSPECIFIED result from UNKNOWN" stackItem in
          Some (<[l := with_falcon_part (addToStack stackItem e) o]> h)
      | None => None
      end
  | None => None
  end.

(** [error.bubble(stackItem)]: the heap afterwards and what is thrown. *)
Definition bubble (h : heap) (l : loc) (stackItem : option string)
  : option (heap * Value) :=
  match addToStack_at h l stackItem with
  | Some h => Some (h, Ref l)
  | None => None
  end.

(** [error.falconStack] *)
Definition falconStack (h : heap) (l : loc) : option string :=
  match h !! l with
  | Some o => option_map _falconStack (falcon_part o)
  | None => None
  end.

End FalconMethods.

(* ===================================================================== *)
(** * configure-admin-user                                                *)
(* ===================================================================== *)

Module ConfigureAdminUser.
Import Result Appx.

(** [ConfigureAdminUserAction.validateActionOptions] *)
Definition validateActionOptions (actionOptions : gmap string JsValue)
  : Completion unit CreateUser.JsError :=
  if String.eqb (typeof (get_own actionOptions "definitionFile")) "undefined"
  then Throw (CreateUser.MkError "ERROR_MISSING_OPTION: 'definitionFile'")
  else Normal tt.

(** The calls that [executeAction] makes to its collaborators. *)
Inductive Call : Type :=
| ReadConfigFile (configPath : string) (definitionFile : JsValue)
| GetUsernameFromAlias (alias : string)
| ConfigureUser (adminUsername : string) (userDefinition : JsValue)
    (targetOrg : TargetOrg) (executorMessages : gmap string JsValue)
    (observer : JsValue).

(** What one run of [executeAction] does: its calls, in order, and how the
    returned promise settles. *)
Record ActionRun : Type := MkRun
  { calls : list Call;
    settled : Settled SfdxFalconResult Outcome }.

Section ExecuteAction.

(** The collaborators: how to tell an expected negative outcome, the file
    reader, the alias utility and the hybrid Executor. *)
Variable recognized : Outcome -> bool.
Variable readConfigFile : string -> JsValue -> Settled JsValue Outcome.
Variable getUsernameFromAlias : string -> Settled string Outcome.
Variable configureUser :
  string -> JsValue -> TargetOrg -> gmap string JsValue -> JsValue ->
  Settled Outcome Outcome.

(** [ConfigureAdminUserAction.executeAction].  The handler of the first
    [.catch] has a block body without [return]: when [addRejectedChild]
    returns, the awaited value is [undefined].  After the last [.catch],
    the value is either what the Executor resolved with ([inl]) or the
    action's own node returned by [addRejectedChild] ([inr]); this is the
    test [resolvedPromise === actionResult] of the [.then] handler. *)
Definition executeAction (actionContext : AppxEngineActionContext)
    (actionOptions : gmap string JsValue) : ActionRun :=
  let actionResult :=
    createActionResult "configure-admin-user" actionContext actionOptions
      {| startNow := true; bubbleError := true; bubbleFailure := true;
         failureIsError := true |} in
  let detail :=
    obj [("executorMessages", JNull); ("userDefinition", JNull); ("adminUsername", JNull)]
      ∪ spread (detail actionResult) in
  let actionResult := with_detail (JObj detail) actionResult in
  let configPath := configPath (projectContext actionContext) in
  let definitionFile := get_own actionOptions "definitionFile" in
  let calls := [ReadConfigFile configPath definitionFile] in
  let read : Settled (JsValue * SfdxFalconResult) Outcome :=
    match readConfigFile configPath definitionFile with
    | Resolved userDefinition => Resolved (userDefinition, actionResult)
    | Rejected rejectedPromise =>
        match addRejectedChild recognized actionResult rejectedPromise
                UTILITY "general:readConfigFile" with
        | Normal r => Resolved (JUndefined, r)
        | Throw r => Rejected (IsResult r)
        end
    end in
  match read with
  | Rejected thrown => MkRun calls (Rejected thrown)
  | Resolved (userDefinition, actionResult) =>
      let detail := set_own detail "userDefinition" userDefinition in
      let actionResult := with_detail (JObj detail) actionResult in
      let orgAlias := alias (targetOrg actionContext) in
      let calls := (calls ++ [GetUsernameFromAlias orgAlias])%list in
      match getUsernameFromAlias orgAlias with
      | Rejected error =>
          MkRun calls (Rejected (IsResult (result_throw actionResult error)))
      | Resolved adminUsername =>
          let detail := set_own detail "adminUsername" (JStr adminUsername) in
          let actionResult := with_detail (JObj detail) actionResult in
          let executorMessages :=
            obj [("progressMsg",
                  JStr ("Configuring user '" ++ adminUsername ++ "' in " ++ orgAlias));
                 ("errorMsg",
                  JStr ("Failed to configure user '" ++ adminUsername ++ "' in " ++ orgAlias));
                 ("successMsg",
                  JStr ("User '" ++ adminUsername ++ "' configured successfully"))] in
          let detail := set_own detail "executorMessages" (JObj executorMessages) in
          let actionResult := with_detail (JObj detail) actionResult in
          let observer := observer (listrExecOptions actionContext) in
          let calls :=
            (calls ++ [ConfigureUser adminUsername userDefinition (targetOrg actionContext)
                         executorMessages observer])%list in
          let caught : Settled (Outcome + SfdxFalconResult) Outcome :=
            match configureUser adminUsername userDefinition (targetOrg actionContext)
                    executorMessages observer with
            | Resolved resolved => Resolved (inl resolved)
            | Rejected rejectedPromise =>
                match addRejectedChild recognized actionResult rejectedPromise
                        EXECUTOR "hybrid:configureUser" with
                | Normal r => Resolved (inr r)
                | Throw r => Rejected (IsResult r)
                end
            end in
          MkRun calls
            (p_then caught
               (fun resolvedPromise =>
                  match resolvedPromise with
                  | inr actionResult => Normal actionResult
                  | inl resolved =>
                      match addResolvedChild actionResult resolved
                              EXECUTOR "hybrid:configureUser" with
                      | Normal r => Normal r
                      | Throw r => Throw (IsResult r)
                      end
                  end))
      end
  end.

End ExecuteAction.

End ConfigureAdminUser.

(* ===================================================================== *)
(** * The option checks of deploy-metadata and delete-scratch-org         *)
(* ===================================================================== *)

Module DeployMetadataOptions.

(** [DeployMetadataAction.validateActionOptions] *)
Definition validateActionOptions (actionOptions : gmap string JsValue)
  : Completion unit CreateUser.JsError :=
  if String.eqb (typeof (get_own actionOptions "mdapiSource")) "undefined"
  then Throw (CreateUser.MkError "ERROR_MISSING_OPTION: 'mdapiSource'")
  else Normal tt.

End DeployMetadataOptions.

Module DeleteScratchOrgOptions.

(** [DeleteScratchOrgAction.validateActionOptions] *)
Definition validateActionOptions (actionOptions : gmap string JsValue)
  : Completion unit CreateUser.JsError :=
  if String.eqb (typeof (get_own actionOptions "scratchOrgAlias")) "undefined"
  then Throw (CreateUser.MkError "ERROR_MISSING_OPTION: 'scratchOrgAlias'")
  else Normal tt.

End DeleteScratchOrgOptions.


(* ===================================================================== *)
(** * Facts about the matcher                                             *)
(* ===================================================================== *)

Section RegExpFacts.
Import RegExp.

Lemma iterate_sound m k r total :
  (forall s k' x, m s k' = Some x -> exists s', lang total r s s' /\ k' s' = Some x) ->
  forall fuel s x, iterate m k fuel s = Some x ->
    exists s', lang total (Star r) s s' /\ k s' = Some x.
Proof.
  intros Hm fuel. induction fuel as [|fuel IH]; intros s x H; simpl in H.
  - exists s. split; [constructor | exact H].
  - destruct (m s _) as [rest|] eqn:E.
    + injection H as ->. apply Hm in E. destruct E as (mid & Hmid & Hk).
      destruct (length mid <? length s)%nat eqn:Hlt; [|discriminate].
      apply Nat.ltb_lt in Hlt.
      apply IH in Hk. destruct Hk as (s' & Hs' & Hk).
      exists s'. split; [|exact Hk]. econstructor; eassumption.
    + exists s. split; [constructor | exact H].
Qed.

(** Whatever the matcher accepts is in the language of the pattern. *)
Lemma rmatch_sound total r :
  forall s k x, rmatch r total s k = Some x ->
    exists s', lang total r s s' /\ k s' = Some x.
Proof.
  induction r as [|items|r1 IH1 r2 IH2|r1 IH1 r2 IH2|r IH| |]; intros s k x H; simpl in H.
  - exists s. split; [constructor | exact H].
  - destruct s as [|c s]; [discriminate|].
    destruct (in_class items c) eqn:E; [|discriminate].
    exists s. split; [by constructor | exact H].
  - apply IH1 in H. destruct H as (mid & H1 & H).
    apply IH2 in H. destruct H as (s' & H2 & H).
    exists s'. split; [econstructor; eassumption | exact H].
  - destruct (rmatch r1 total s k) as [rest|] eqn:E.
    + injection H as ->. apply IH1 in E. destruct E as (s' & H1 & H).
      exists s'. split; [by apply lang_AltL | exact H].
    + apply IH2 in H. destruct H as (s' & H2 & H).
      exists s'. split; [by apply lang_AltR | exact H].
  - eapply iterate_sound; [exact IH | exact H].
  - destruct (length s =? total)%nat eqn:E; [|discriminate].
    apply Nat.eqb_eq in E. exists s. split; [by constructor | exact H].
  - destruct s; [|discriminate]. exists []. split; [constructor | exact H].
Qed.

Lemma iterate_complete m k r total :
  (forall s s' k', lang total r s s' -> is_Some (k' s') -> is_Some (m s k')) ->
  forall s s', lang total (Star r) s s' -> is_Some (k s') ->
  forall fuel, (length s <= fuel)%nat -> is_Some (iterate m k fuel s).
Proof.
  intros Hm s s' H. remember (Star r) as sr eqn:Hsr.
  induction H as [| | | | |r0 s|r0 s mid s' H1 _ Hlt H2 IH2| |]; try discriminate;
    injection Hsr as ->; intros Hk fuel Hfuel.
  - destruct fuel as [|fuel]; simpl; [exact Hk|].
    destruct (m s _); [by eexists | exact Hk].
  - destruct fuel as [|fuel]; [lia|]. simpl.
    assert (Hin : is_Some (m s (fun s'0 => if (length s'0 <? length s)%nat
                                          then iterate m k fuel s'0 else None))).
    { eapply Hm; [exact H1|].
      apply Nat.ltb_lt in Hlt as Hlt'. rewrite Hlt'.
      apply IH2; [reflexivity | exact Hk | lia]. }
    destruct Hin as [y ->]. by eexists.
Qed.

(** Backtracking loses nothing: when the pattern can match from here and
    the rest of the match can go on from there, the matcher succeeds. *)
Lemma rmatch_complete total r :
  forall s s' k, lang total r s s' -> is_Some (k s') -> is_Some (rmatch r total s k).
Proof.
  induction r as [|items|r1 IH1 r2 IH2|r1 IH1 r2 IH2|r IH| |]; intros s s' k H Hk;
    simpl.
  - inversion H; subst. exact Hk.
  - inversion H as [|? ? ? Hin| | | | | | |]; subst. rewrite Hin. exact Hk.
  - inversion H as [| |? ? ? mid ? Ha Hb| | | | | |]; subst.
    eapply IH1; [eassumption|]. eapply IH2; eassumption.
  - inversion H as [| | |? ? ? ? Ha|? ? ? ? Hb| | | |]; subst.
    + destruct (IH1 _ _ _ Ha Hk) as [y ->]. by eexists.
    + destruct (rmatch r1 total s k); [by eexists|]. eapply IH2; eassumption.
  - eapply iterate_complete; [exact IH | exact H | exact Hk | lia].
  - inversion H; subst. rewrite Nat.eqb_refl. exact Hk.
  - inversion H; subst. exact Hk.
Qed.

(** A match found by [search] runs from some position of the subject. *)
Lemma search_sound r total cs m :
  search r total cs = Some m ->
  exists pre s rest, cs = (pre ++ s)%list /\ lang total r s rest
    /\ m = firstn (length s - length rest) s.
Proof.
  induction cs as [|c cs IH]; simpl; unfold match_here.
  - destruct (rmatch r total [] _) as [rest|] eqn:E; [|discriminate].
    intros [= <-]. apply rmatch_sound in E. destruct E as (s' & Hl & [= ->]).
    exists [], [], rest. auto.
  - destruct (rmatch r total (c :: cs) _) as [rest|] eqn:E.
    + intros [= <-]. apply rmatch_sound in E. destruct E as (s' & Hl & [= ->]).
      exists [], (c :: cs), rest. auto.
    + intros H. apply IH in H. destruct H as (pre & s & rest & -> & Hl & ->).
      exists (c :: pre), s, rest. auto.
Qed.

(** [search] finds a match whenever the pattern matches at some position. *)
Lemma search_complete r total pre s rest :
  lang total r s rest -> is_Some (search r total (pre ++ s)%list).
Proof.
  intros Hl.
  assert (Hhere : is_Some (match_here r total s)).
  { unfold match_here.
    destruct (rmatch_complete total r s rest (fun rest => Some rest) Hl) as [y ->];
      by eexists. }
  induction pre as [|c pre IH]; simpl.
  - destruct s; simpl; destruct Hhere as [y ->]; by eexists.
  - destruct (match_here r total (c :: (pre ++ s)%list)); [by eexists | exact IH].
Qed.

(** A star over a body that takes exactly one character of some kind
    takes a run of such characters, and any such run. *)
Lemma lang_star_chars total r (p : ascii -> bool) :
  (forall s s', lang total r s s' -> exists c, s = c :: s' /\ p c = true) ->
  forall s s', lang total (Star r) s s' ->
    exists w, s = (w ++ s')%list /\ forallb p w = true.
Proof.
  intros Hr s s' H. remember (Star r) as sr eqn:Hsr.
  induction H as [| | | | |r0 s|r0 s mid s' H1 _ Hlt H2 IH2| |]; try discriminate;
    injection Hsr as ->.
  - by exists [].
  - destruct (Hr _ _ H1) as (c & -> & Hc).
    destruct (IH2 eq_refl) as (w & -> & Hw).
    exists (c :: w). simpl. by rewrite Hc, Hw.
Qed.

Lemma lang_chars_star total r (p : ascii -> bool) :
  (forall c s, p c = true -> lang total r (c :: s) s) ->
  forall w s', forallb p w = true -> lang total (Star r) (w ++ s')%list s'.
Proof.
  intros Hr w s'. induction w as [|c w IH]; simpl; intros Hw.
  - constructor.
  - apply andb_true_iff in Hw as [Hc Hw].
    eapply lang_StarCons; [by apply Hr | simpl; lia | by apply IH].
Qed.

Lemma lang_Chr_inv total c s s' :
  lang total (Chr c) s s' -> s = c :: s'.
Proof.
  unfold Chr. inversion 1 as [|? ? ? Hin| | | | | | |]; subst.
  unfold in_class in Hin; simpl in Hin.
  rewrite orb_false_r in Hin. by apply Ascii.eqb_eq in Hin as ->.
Qed.

Lemma lang_Chr total c s : lang total (Chr c) (c :: s) s.
Proof.
  constructor. unfold in_class; simpl. by rewrite Ascii.eqb_refl.
Qed.

Lemma lang_Lit_inv total w s s' :
  lang total (Lit w) s s' -> s = (w ++ s')%list.
Proof.
  revert s. induction w as [|c w IH]; simpl; intros s H.
  - by inversion H.
  - inversion H as [| |? ? ? mid ? Hc Hrest| | | | | |]; subst.
    apply lang_Chr_inv in Hc as ->. by rewrite (IH _ Hrest).
Qed.

Lemma lang_Lit total w s : lang total (Lit w) (w ++ s)%list s.
Proof.
  induction w as [|c w IH]; simpl; [constructor|].
  econstructor; [apply lang_Chr | exact IH].
Qed.

End RegExpFacts.

(* ===================================================================== *)
(** * git.ts: the repository name and the validity of a URI               *)
(* ===================================================================== *)

Section GitFacts.
Import RegExp Git.

Lemma string_of_list_ascii_app (a b : list ascii) :
  string_of_list_ascii (a ++ b)%list = string_of_list_ascii a ++ string_of_list_ascii b.
Proof. induction a as [|c a IH]; simpl; [reflexivity | by rewrite IH]. Qed.

Lemma list_ascii_of_string_app (a b : string) :
  list_ascii_of_string (a ++ b) = (list_ascii_of_string a ++ list_ascii_of_string b)%list.
Proof. induction a as [|c a IH]; simpl; [reflexivity | by rewrite IH]. Qed.

Lemma lang_name_char_inv total s s' :
  lang total (Alt Word (Chr "-")) s s' ->
  exists c, s = c :: s' /\ is_name_char c = true.
Proof.
  inversion 1 as [| | |? ? ? ? Hw|? ? ? ? Hd| | | |]; subst.
  - inversion Hw as [|? c ? Hin| | | | | | |]; subst. exists c. split; [done|].
    unfold in_class in Hin; simpl in Hin. rewrite orb_false_r in Hin.
    unfold is_name_char. by rewrite Hin.
  - apply lang_Chr_inv in Hd as ->. exists "-"%char. by split.
Qed.

Lemma lang_name_char total c s :
  is_name_char c = true -> lang total (Alt Word (Chr "-")) (c :: s) s.
Proof.
  unfold is_name_char. intros H. apply orb_true_iff in H as [H|H].
  - apply lang_AltL. constructor. unfold in_class; simpl. by rewrite H.
  - apply Ascii.eqb_eq in H as <-. apply lang_AltR, lang_Chr.
Qed.

(** What [repoNameRegEx] matches from a position on: a tail, up to the
    end of the subject. *)
Lemma lang_repoNameRegEx total s rest :
  lang total repoNameRegEx s rest <->
  rest = [] /\ exists name slashes,
    s = repo_tail name slashes /\ name <> []
    /\ forallb is_name_char name = true
    /\ forallb (Ascii.eqb "/") slashes = true.
Proof.
  unfold repoNameRegEx, Plus. split.
  - intros H.
    inversion H as [| |? ? ? s1 ? Hslash H1| | | | | |]; subst; clear H.
    apply lang_Chr_inv in Hslash as ->.
    inversion H1 as [| |? ? ? s2 ? Hname H2| | | | | |]; subst; clear H1.
    inversion Hname as [| |? ? ? s3 ? Hfirst Hmore| | | | | |]; subst; clear Hname.
    apply lang_name_char_inv in Hfirst as (c & -> & Hc).
    apply (lang_star_chars total _ is_name_char) in Hmore as (w & -> & Hw);
      [|intros ? ?; apply lang_name_char_inv].
    inversion H2 as [| |? ? ? s4 ? Hgit H3| | | | | |]; subst; clear H2.
    inversion Hgit as [| |? ? ? s5 ? Hdot Hgit'| | | | | |]; subst; clear Hgit.
    apply lang_Chr_inv in Hdot.
    apply (lang_Lit_inv total ["g"; "i"; "t"]%char) in Hgit'. subst.
    inversion H3 as [| |? ? ? s6 ? Hsl Hend| | | | | |]; subst; clear H3.
    inversion Hend; subst.
    apply (lang_star_chars total _ (Ascii.eqb "/")) in Hsl as (sl & Hsl & Hall).
    2:{ intros ? ? Hx. apply lang_Chr_inv in Hx as ->. eexists; split; [done|].
        apply Ascii.eqb_refl. }
    split; [done|]. exists (c :: w), sl. unfold repo_tail.
    rewrite app_nil_r in Hsl. subst. simpl. rewrite Hc, Hw.
    repeat split; try done.
  - intros (-> & name & slashes & -> & Hne & Hname & Hsl).
    destruct name as [|c w]; [done|]. simpl in Hname.
    apply andb_true_iff in Hname as [Hc Hw]. unfold repo_tail.
    econstructor; [apply lang_Chr|].
    econstructor.
    { econstructor; [by apply lang_name_char|].
      apply (lang_chars_star _ _ is_name_char); [intros; by apply lang_name_char | exact Hw]. }
    econstructor.
    { econstructor; [apply lang_Chr | apply (lang_Lit _ ["g"; "i"; "t"]%char)]. }
    econstructor; [|constructor].
    rewrite <- (app_nil_r slashes) at 1.
    apply (lang_chars_star _ _ (Ascii.eqb "/")); [|exact Hsl].
    intros c' s' Hc'. apply Ascii.eqb_eq in Hc' as <-. apply lang_Chr.
Qed.

Lemma lastIndexOf_from_none c l i :
  forallb (fun d => negb (Ascii.eqb d c)) l = true ->
  lastIndexOf_from c (string_of_list_ascii l) i = None.
Proof.
  revert i. induction l as [|d l IH]; simpl; intros i H; [reflexivity|].
  apply andb_true_iff in H as [Hd Hl]. rewrite (IH _ Hl).
  by apply negb_true_iff in Hd as ->.
Qed.

Lemma lastIndexOf_from_last c l1 l2 i :
  forallb (fun d => negb (Ascii.eqb d c)) l2 = true ->
  lastIndexOf_from c (string_of_list_ascii (l1 ++ c :: l2)%list) i
  = Some (i + length l1)%nat.
Proof.
  intros H2. revert i. induction l1 as [|d l1 IH]; simpl; intros i.
  - rewrite (lastIndexOf_from_none _ _ _ H2), Ascii.eqb_refl. f_equal. lia.
  - rewrite IH. f_equal. lia.
Qed.

Lemma substring_prefix l1 l2 :
  String.substring 0 (length l1) (string_of_list_ascii (l1 ++ l2)%list)
  = string_of_list_ascii l1.
Proof.
  induction l1 as [|c l1 IH]; simpl.
  - by destruct (string_of_list_ascii l2).
  - by rewrite IH.
Qed.

Lemma slashes_no_dot slashes :
  forallb (Ascii.eqb "/") slashes = true ->
  forallb (fun d => negb (Ascii.eqb d ".")) slashes = true.
Proof.
  induction slashes as [|c sl IH]; cbn [forallb]; [done|].
  intros H. apply andb_true_iff in H as [Hc Hsl].
  apply Ascii.eqb_eq in Hc as <-. by rewrite IH.
Qed.

(** The two [substring] steps of [getRepoNameFromUri] leave the name of a
    matched tail. *)
Lemma strip_repo_tail name slashes :
  forallb (Ascii.eqb "/") slashes = true ->
  let m := string_of_list_ascii (repo_tail name slashes) in
  substr1 (substring0 m (lastIndexOf "." m)) = string_of_list_ascii name.
Proof.
  intros Hsl m. subst m. unfold repo_tail, lastIndexOf, substring0.
  change ("/"%char :: name ++ ["."; "g"; "i"; "t"]%char ++ slashes)%list
    with (("/"%char :: name) ++ "."%char :: (["g"; "i"; "t"]%char ++ slashes))%list.
  rewrite lastIndexOf_from_last by (simpl; by apply slashes_no_dot).
  rewrite Nat2Z.id. simpl (0 + _)%nat.
  change (S (length name)) with (length ("/"%char :: name)).
  by rewrite substring_prefix.
Qed.

Lemma all_chars_of_list p l :
  all_chars p (string_of_list_ascii l) = forallb p l.
Proof. unfold all_chars. by rewrite list_ascii_of_string_of_list_ascii. Qed.

Lemma string_of_list_ascii_nil l : string_of_list_ascii l = "" -> l = [].
Proof. by destruct l. Qed.

(** C9. [getRepoNameFromUri] is partial over strings.  It returns a name
    exactly when the URI ends in [/<name>.git] (and then slashes), and the
    name it returns is that non-empty [<name>], the matched tail without
    its leading slash and its [.git] extension.  For every other string
    [repoNameRegEx.exec] yields [null] and reading its index 0 faults with
    a [TypeError]: the [UnreadableRepoName] error of the function itself
    is raised for no string at all. *)
Theorem getRepoNameFromUri_partial (gitRemoteUri : string) :
  match getRepoNameFromUri gitRemoteUri with
  | Normal repoName => repoName <> "" /\ has_repo_tail gitRemoteUri repoName
  | Throw e =>
      e = TypeError "Cannot read property '0' of null"
      /\ exec repoNameRegEx gitRemoteUri = None
      /\ ~ (exists name, has_repo_tail gitRemoteUri name)
  end.
Proof.
  unfold getRepoNameFromUri, exec.
  destruct (search repoNameRegEx _ _) as [m|] eqn:E; cbn [option_map].
  - apply search_sound in E as (pre & s & rest & Hcs & Hl & ->).
    apply lang_repoNameRegEx in Hl as (-> & name & slashes & -> & Hne & Hname & Hsl).
    cbn [length]. rewrite Nat.sub_0_r, firstn_all.
    rewrite (strip_repo_tail _ _ Hsl).
    assert (Hnm : string_of_list_ascii name <> "").
    { intros Hn. by apply string_of_list_ascii_nil in Hn. }
    apply String.eqb_neq in Hnm as Hnm'. rewrite Hnm'.
    split; [exact Hnm|].
    exists (string_of_list_ascii pre), (string_of_list_ascii slashes).
    rewrite !all_chars_of_list. repeat split; try done.
    rewrite <- (string_of_list_ascii_of_string gitRemoteUri), Hcs. unfold repo_tail.
    rewrite string_of_list_ascii_app. simpl.
    by rewrite string_of_list_ascii_app.
  - repeat split; try done.
    intros (name & prefix & slashes & -> & Hne & Hname & Hsl).
    assert (Hsome : is_Some (search repoNameRegEx
              (length (list_ascii_of_string (prefix ++ "/" ++ name ++ ".git" ++ slashes)))
              (list_ascii_of_string (prefix ++ "/" ++ name ++ ".git" ++ slashes)))).
    { rewrite (list_ascii_of_string_app prefix).
      eapply search_complete. apply lang_repoNameRegEx. split; [reflexivity|].
      exists (list_ascii_of_string name), (list_ascii_of_string slashes).
      repeat split; try done.
      - unfold repo_tail.
        change ("/" ++ name ++ ".git" ++ slashes)
          with (String "/" (name ++ String "." (String "g" (String "i" (String "t" slashes))))).
        cbn [list_ascii_of_string]. by rewrite list_ascii_of_string_app.
      - destruct name; [done | discriminate]. }
    rewrite E in Hsome. by destruct Hsome.
Qed.

(** C10. With a protocol filter, [isGitUriValid] is the conjunction of the
    test of the general pattern and the test of the filter; without one it
    is the test of the general pattern alone.  Hence a URI accepted with a
    filter is accepted without. *)
Theorem isGitUriValid_filter_monotone
    (gitRemoteUri : string) (acceptedProtocols : regex) :
  isGitUriValid gitRemoteUri (Some acceptedProtocols)
  = test gitUriRegEx gitRemoteUri && test acceptedProtocols gitRemoteUri
  /\ isGitUriValid gitRemoteUri None = test gitUriRegEx gitRemoteUri
  /\ (isGitUriValid gitRemoteUri (Some acceptedProtocols) = true ->
      isGitUriValid gitRemoteUri None = true).
Proof.
  unfold isGitUriValid.
  destruct (test gitUriRegEx gitRemoteUri); simpl; auto.
Qed.

End GitFacts.

Lemma isGitUriValid_filter_monotone_witness :
  Git.isGitUriValid "https://github.com/acme/my-git-repo.git"
    (Some (RegExp.Seq RegExp.Bol (RegExp.Lit ["h"; "t"; "t"; "p"; "s"]%char))) = true
  /\ Git.isGitUriValid "https://github.com/acme/my-git-repo.git" None = true.
Proof.
  split; [vm_compute; reflexivity|].
  apply (proj2 (proj2 (isGitUriValid_filter_monotone
           "https://github.com/acme/my-git-repo.git"
           (RegExp.Seq RegExp.Bol (RegExp.Lit ["h"; "t"; "t"; "p"; "s"]%char))))).
  vm_compute; reflexivity.
Defined.

Example getRepoNameFromUri_https :
  Git.getRepoNameFromUri "https://github.com/acme/my-git-repo.git/" = Normal "my-git-repo".
Proof. vm_compute. reflexivity. Qed.

Example getRepoNameFromUri_no_extension :
  Git.getRepoNameFromUri "https://github.com/acme/my-git-repo"
  = Throw (Git.TypeError "Cannot read property '0' of null").
Proof. vm_compute. reflexivity. Qed.

Example getRepoNameFromUri_empty_name :
  Git.getRepoNameFromUri "https://github.com/acme/.git"
  = Throw (Git.TypeError "Cannot read property '0' of null").
Proof. vm_compute. reflexivity. Qed.

Example isGitUriValid_ssh :
  Git.isGitUriValid "git@github.com:acme/my-git-repo.git/" None = true.
Proof. vm_compute. reflexivity. Qed.

Example isGitUriValid_ftp :
  Git.isGitUriValid "ftp://github.com/acme/my-git-repo.git" None = false.
Proof. vm_compute. reflexivity. Qed.

Example isGitUriValid_filtered_out :
  Git.isGitUriValid "https://github.com/acme/my-git-repo.git"
    (Some (RegExp.Seq RegExp.Bol (RegExp.Lit ["s"; "s"; "h"]%char))) = false.
Proof. vm_compute. reflexivity. Qed.

(* ===================================================================== *)
(** * types/index.ts: wrapping errors and decoding the error stream       *)
(* ===================================================================== *)

Section FalconTypesFacts.
Import FalconTypes.

Lemma alloc_fresh (h : gmap positive ErrorObject) o h' l :
  alloc h o = (h', l) -> h !! l = None /\ h' = <[l := o]> h.
Proof.
  unfold alloc. intros [= <- <-]. split; [|reflexivity].
  apply not_elem_of_dom, is_fresh.
Qed.

Lemma Normal_inj {A E : Type} (a b : A) : @Normal A E a = Normal b -> a = b.
Proof. intros H. by injection H. Qed.

(** C7, as amended.  [SfdxFalconError2.wrap] normalizes once and for all
    whatever it accepts.  It returns a reference or throws; wrapping what
    it returned gives back the same reference and leaves the heap as it
    is.  An [SfdxFalconError2] (or an instance of its subclass) is
    returned itself, the heap untouched; any other [Error] yields a new
    [SfdxFalconError2], at a location that was free, with the message of
    the error; a value that is not an [Error] yields a new one whose
    message is the string rendering of the value.  [wrap] throws exactly
    for a value that is not an [Error] and has no string rendering, and
    what it throws is the [TypeError] of that conversion. *)
Theorem wrap_idempotent (h : gmap positive ErrorObject) (error : Value) :
  (match error with Ref l => is_Some (h !! l) | Plain _ => True end ->
   is_Some (wrap h error))
  /\ (forall h1 l1,
       wrap h error = Some (Normal (h1, l1)) ->
       wrap h1 (Ref l1) = Some (Normal (h1, l1))
       /\ match error with
          | Ref l =>
              exists o, h !! l = Some o
                /\ if instanceof_SfdxFalconError2 o
                   then h1 = h /\ l1 = l
                   else exists e,
                          h !! l1 = None /\ h1 = <[l1 := FalconError2 e]> h
                          /\ message e = error_message o
          | Plain v =>
              exists e,
                h !! l1 = None /\ h1 = <[l1 := FalconError2 e]> h
                /\ to_string v = Normal (message e)
          end)
  /\ (forall thrown,
        wrap h error = Some (Throw thrown)
        <-> exists v, error = Plain v /\ to_string v = Throw thrown).
Proof.
  split; [|split].
  { unfold wrap. destruct error as [l|v].
    - intros [o ->]. destruct (instanceof_SfdxFalconError2 o); by eexists.
    - intros _. destruct (to_string v); by eexists. }
  - intros h1 l1. unfold wrap. destruct error as [l|v].
    + destruct (h !! l) as [o|] eqn:Hl; [|discriminate].
      destruct (instanceof_SfdxFalconError2 o) eqn:Hinst.
      * intros [= <- <-]. rewrite Hl, Hinst. split; [reflexivity|].
        exists o. by rewrite Hinst.
      * intros Halloc. apply (inj Some) in Halloc. apply Normal_inj in Halloc.
        apply alloc_fresh in Halloc as [Hfresh ->].
        rewrite lookup_insert_eq. cbn [instanceof_SfdxFalconError2].
        split; [reflexivity|]. exists o. rewrite Hinst. split; [reflexivity|].
        eexists. split; [exact Hfresh|]. split; reflexivity.
    + destruct (to_string v) as [rendered|e] eqn:Hv; [|discriminate].
      intros Halloc. apply (inj Some) in Halloc. apply Normal_inj in Halloc.
      apply alloc_fresh in Halloc as [Hfresh ->].
      rewrite lookup_insert_eq. cbn [instanceof_SfdxFalconError2].
      split; [reflexivity|]. eexists. split; [exact Hfresh|]. split; reflexivity.
  - intros thrown. unfold wrap. destruct error as [l|v].
    + split.
      * destruct (h !! l) as [o|]; [|discriminate].
        destruct (instanceof_SfdxFalconError2 o); discriminate.
      * intros (v & Hv & _). discriminate Hv.
    + destruct (to_string v) as [rendered|e] eqn:Hv; split.
      * discriminate.
      * intros (v' & [= <-] & Hv'). rewrite Hv in Hv'. discriminate.
      * intros [= <-]. by exists v.
      * intros (v' & [= <-] & Hv'). rewrite Hv in Hv'. by injection Hv' as <-.
Qed.

Lemma js_or_defined a b : b <> JUndefined -> js_or a b <> JUndefined.
Proof.
  intros Hb. unfold js_or. destruct (to_boolean a) eqn:E; [|exact Hb].
  by destruct a.
Qed.

(** Six members assigned one after the other make the object literal
    with these members. *)
Lemma assigned_members (n m st sk r w : JsValue) :
  set_own (set_own (set_own (set_own (set_own (set_own ∅
    "name" n) "message" m) "status" st) "stack" sk) "result" r) "warnings" w
  = obj [("name", n); ("message", m); ("status", st); ("stack", sk);
         ("result", r); ("warnings", w)].
Proof.
  unfold set_own, obj, list_to_map. cbn [fold_right fst snd].
  apply map_eq; intros k.
  repeat (rewrite lookup_insert; case_decide; [subst|]);
    rewrite ?lookup_empty, ?lookup_insert_eq, ?lookup_insert_ne by done;
    rewrite ?lookup_insert_eq; first [reflexivity | congruence].
Qed.

(** The [try] block runs to its end on a decoded value that is not
    [null], and then every member has been copied. *)
Lemma try_block_parsed thisName stdErrBuffer v :
  Json.JSON_parse stdErrBuffer = Some v ->
  v <> JNull -> v <> JUndefined -> thisName = "SfdxCliError" ->
  try_block thisName stdErrBuffer ∅ = (Normal tt, copied v).
Proof.
  intros Hparse Hnull Hundef ->. unfold try_block, bind, lift, parse, assign.
  rewrite Hparse.
  assert (Hget : forall k, get_prop v k = Normal (decoded_prop v k)).
  { intros k. by destruct v. }
  rewrite !Hget, assigned_members. unfold copied. do 4 f_equal.
  by destruct (decoded_prop v "status").
Qed.

(** It throws at once, before any member is assigned, when the buffer is
    not JSON or decodes to [null]. *)
Lemma try_block_throws thisName stdErrBuffer :
  match Json.JSON_parse stdErrBuffer with
  | None | Some JNull | Some JUndefined => True
  | Some _ => False
  end ->
  exists e, try_block thisName stdErrBuffer ∅ = (Throw e, ∅).
Proof.
  unfold try_block, bind, lift, parse.
  destruct (Json.JSON_parse stdErrBuffer) as [[]|]; try done; intros _; by eexists.
Qed.

Lemma catch_block_unparseable stdErrBuffer :
  snd (catch_block stdErrBuffer ∅) = unparseable stdErrBuffer.
Proof.
  unfold catch_block, bind, assign. cbn [snd]. apply assigned_members.
Qed.

Lemma copied_members v :
  Forall (fun k => exists x, copied v !! k = Some x /\ x <> JUndefined) cliError_members.
Proof.
  unfold cliError_members, copied, obj, list_to_map. cbn [fold_right fst snd].
  repeat (constructor;
          [rewrite ?lookup_insert_ne by done; rewrite lookup_insert_eq;
           eexists; (split; [reflexivity|]); try (by apply js_or_defined)|]);
    try constructor.
  by destruct (decoded_prop v "status").
Qed.

Lemma unparseable_members stdErrBuffer :
  Forall (fun k => exists x, unparseable stdErrBuffer !! k = Some x /\ x <> JUndefined)
    cliError_members.
Proof.
  unfold cliError_members, unparseable, obj, list_to_map. cbn [fold_right fst snd].
  repeat (constructor;
          [rewrite ?lookup_insert_ne by done; rewrite lookup_insert_eq;
           eexists; (split; [reflexivity|]); done|]).
  constructor.
Qed.

(** Whatever [ToString] throws is the one [TypeError] of a value without
    a way to a primitive. *)
Lemma to_string_throws : forall v e, to_string v = Throw e -> e = cannot_convert.
Proof.
  fix IH 1. intros v. destruct v as [ | | [|] | | n | s | items | fields];
    intros e; cbn [to_string]; try (intros H; discriminate H).
  - revert items e. fix IHrest 1. intros items e.
    destruct items as [|x rest]; [intros H; discriminate H|].
    destruct (match x with JUndefined | JNull => Normal "" | _ => to_string x end)
      as [sx|ex] eqn:Hx.
    + pose proof (IHrest rest e) as Hrest. revert Hrest.
      destruct rest as [|y rest']; [intros _ H; discriminate H|].
      match goal with
      | |- (?j = _ -> _) -> _ => destruct j as [sr|er]
      end.
      * intros _ H. discriminate H.
      * intros Hrest H. injection H as <-. apply Hrest. reflexivity.
    + intros H. injection H as <-. pose proof (IH x ex) as Hx'.
      destruct x; try discriminate Hx; exact (Hx' Hx).
  - destruct (fields !! "toString"); intros H; [|discriminate H].
    injection H as <-. reflexivity.
Qed.

Lemma js_or_throws a (d : string) e :
  to_string (js_or a (JStr d)) = Throw e -> to_string a = Throw e.
Proof. unfold js_or. by destruct (to_boolean a). Qed.

(** What the constructor does once the two blocks have left [cliError]:
    it renders the name, then the message, and adds the line to its
    stack. *)
Lemma new_SfdxCliError_outcome (stdErrBuffer : string) (message : option string) :
  let expected :=
    match Json.JSON_parse stdErrBuffer with
    | None | Some JNull | Some JUndefined => unparseable stdErrBuffer
    | Some parsedError => copied parsedError
    end in
  new_SfdxCliError stdErrBuffer message
  = match to_string (get_own expected "name") with
    | Throw e => Throw e
    | Normal cliName =>
        match to_string (get_own expected "message") with
        | Throw e => Throw e
        | Normal cliMessage =>
            Normal
              {| base :=
                   addToStack (cliName ++ ": " ++ cliMessage)
                     (new_SfdxFalconError2
                        ("ERROR_SALESFORCE_CLI: " ++ default "Unknown CLI Error" message)
                        (Some "SfdxCliError") [] 1);
                 cliError := expected |}
        end
    end.
Proof.
  intros expected. unfold new_SfdxCliError.
  change (name (new_SfdxFalconError2 _ _ _ _)) with "SfdxCliError".
  assert (Hc : match try_block "SfdxCliError" stdErrBuffer ∅ with
               | (Normal _, cliError) => cliError
               | (Throw _, cliError) => snd (catch_block stdErrBuffer cliError)
               end = expected).
  { subst expected. destruct (Json.JSON_parse stdErrBuffer) as [v|] eqn:Hparse.
    - assert (Hv : (v = JNull \/ v = JUndefined) \/ (v <> JNull /\ v <> JUndefined))
        by (destruct v; auto).
      destruct Hv as [Hv|[Hnull Hundef]].
      + destruct (try_block_throws "SfdxCliError" stdErrBuffer) as [e ->].
        { rewrite Hparse. by destruct Hv as [-> | ->]. }
        rewrite catch_block_unparseable. by destruct Hv as [-> | ->].
      + rewrite (try_block_parsed _ _ v) by done.
        by destruct v.
    - destruct (try_block_throws "SfdxCliError" stdErrBuffer) as [e ->].
      { by rewrite Hparse. }
      by rewrite catch_block_unparseable. }
  rewrite Hc. reflexivity.
Qed.

(** C5, as amended.  For every string given to the [SfdxCliError]
    constructor as the error stream: when it is JSON for a value other than
    [null], [cliError] carries the name, message, stack, result and
    warnings of that value, each replaced by its default when absent or
    falsy, and its status, which is 1 when the value has none; when it is
    not JSON, or is JSON for [null], [cliError] is the synthetic error
    named [ERROR_NOT_PARSEABLE] with status 999 and the raw buffer in
    [result.rawResult].  The constructor returns exactly when the name and
    the message so obtained have a string rendering, and then every member
    of [cliError] is set; otherwise it throws the [TypeError] of the
    conversion, which happens for no buffer that fails to parse. *)
Theorem SfdxCliError_cliError (stdErrBuffer : string) (message : option string) :
  let expected :=
    match Json.JSON_parse stdErrBuffer with
    | None | Some JNull | Some JUndefined => unparseable stdErrBuffer
    | Some parsedError => copied parsedError
    end in
  match new_SfdxCliError stdErrBuffer message with
  | Normal error =>
      cliError error = expected
      /\ Forall (fun k => exists x, cliError error !! k = Some x /\ x <> JUndefined)
           cliError_members
  | Throw thrown =>
      thrown = cannot_convert
      /\ (to_string (get_own expected "name") = Throw thrown
          \/ to_string (get_own expected "message") = Throw thrown)
      /\ exists parsedError, Json.JSON_parse stdErrBuffer = Some parsedError
  end
  /\ ((exists error, new_SfdxCliError stdErrBuffer message = Normal error)
      <-> (exists cliName cliMessage,
             to_string (get_own expected "name") = Normal cliName
             /\ to_string (get_own expected "message") = Normal cliMessage)).
Proof.
  intros expected.
  rewrite (new_SfdxCliError_outcome stdErrBuffer message). fold expected.
  assert (Hmembers :
            Forall (fun k => exists x, expected !! k = Some x /\ x <> JUndefined)
              cliError_members).
  { subst expected. destruct (Json.JSON_parse stdErrBuffer) as [[]|];
      auto using copied_members, unparseable_members. }
  assert (Hparsed : forall k e,
            (k = "name" \/ k = "message") ->
            to_string (get_own expected k) = Throw e ->
            exists parsedError, Json.JSON_parse stdErrBuffer = Some parsedError).
  { intros k e Hk. subst expected.
    destruct (Json.JSON_parse stdErrBuffer) as [v|]; [by eexists|].
    by destruct Hk as [-> | ->]. }
  destruct (to_string (get_own expected "name")) as [cliName|e1] eqn:H1.
  - destruct (to_string (get_own expected "message")) as [cliMessage|e2] eqn:H2.
    + split; [by split|]. split; [by exists cliName, cliMessage | by eexists].
    + split.
      * split; [by apply (to_string_throws _ _ H2)|]. split; [by right|].
        by apply (Hparsed "message" e2); [right|].
      * split; [by intros [? ?] | by intros (? & ? & _ & ?)].
  - split.
    + split; [by apply (to_string_throws _ _ H1)|]. split; [by left|].
      by apply (Hparsed "name" e1); [left|].
    + split; [by intros [? ?] | by intros (? & ? & ? & _)].
Qed.

End FalconTypesFacts.

Lemma wrap_idempotent_witness :
  let h : gmap positive FalconTypes.ErrorObject :=
    {[ 3%positive := FalconTypes.PlainError "TypeError" "boom" ]} in
  let h1 : gmap positive FalconTypes.ErrorObject :=
    <[ 4%positive := FalconTypes.FalconError2
         (FalconTypes.new_SfdxFalconError2 "boom"
            (Some "SfdxFalconError2 (TypeError)") [] 1) ]> h in
  FalconTypes.wrap h (FalconTypes.Ref 3) = Some (Normal (h1, 4%positive))
  /\ FalconTypes.wrap h1 (FalconTypes.Ref 4) = Some (Normal (h1, 4%positive)).
Proof.
  intros h h1.
  assert (H : FalconTypes.wrap h (FalconTypes.Ref 3) = Some (Normal (h1, 4%positive)))
    by (vm_compute; reflexivity).
  split; [exact H|].
  exact (proj1 (proj1 (proj2 (wrap_idempotent h (FalconTypes.Ref 3))) h1 4%positive H)).
Defined.

(** An object with an own property [toString] is a value, but [wrap] has
    nothing to return for it: the template literal throws, so there is no
    [wrap(x)] to wrap again. *)
Lemma wrap_unrenderable_counterexample :
  let x := FalconTypes.Plain (JObj (obj [("toString", JInt 1)])) in
  FalconTypes.wrap ∅ x = Some (Throw cannot_convert)
  /\ forall h1 l1, FalconTypes.wrap ∅ x <> Some (Normal (h1, l1)).
Proof.
  intros x. assert (H : FalconTypes.wrap ∅ x = Some (Throw cannot_convert))
    by (vm_compute; reflexivity).
  split; [exact H|]. intros h1 l1. rewrite H. discriminate.
Qed.

Example wrap_large_number :
  exists h1 l1 e,
    FalconTypes.wrap ∅ (FalconTypes.Plain (JNum (Dec 1 21))) = Some (Normal (h1, l1))
    /\ h1 !! l1 = Some (FalconTypes.FalconError2 e)
    /\ FalconTypes.message e = "1e+21".
Proof. do 3 eexists. split; [vm_compute; reflexivity|]. split; reflexivity. Qed.

(** The text [null] is JSON, yet the constructor answers with the
    synthetic error and status 999, not with defaults and status 1; a
    name that is present but empty is replaced by the default; and for a
    name that is an object with an own property [toString] the constructor
    returns nothing, so no member of [cliError] is set. *)
Lemma SfdxCliError_null_counterexample :
  Json.JSON_parse "null" = Some JNull
  /\ (exists error,
        FalconTypes.new_SfdxCliError "null" None = Normal error
        /\ get_own (FalconTypes.cliError error) "name" = JStr "ERROR_NOT_PARSEABLE"
        /\ get_own (FalconTypes.cliError error) "status" = JInt 999
        /\ get_own (FalconTypes.cliError error) "status" <> JInt 1)
  /\ Json.JSON_parse ("{" ++ Json.quoted "name" ++ ":" ++ Json.quoted "" ++ "}")
     = Some (JObj (obj [("name", JStr "")]))
  /\ (exists error,
        FalconTypes.new_SfdxCliError
          ("{" ++ Json.quoted "name" ++ ":" ++ Json.quoted "" ++ "}") None
        = Normal error
        /\ get_own (FalconTypes.cliError error) "name" = JStr "Unknown CLI Error")
  /\ Json.JSON_parse
       ("{" ++ Json.quoted "name" ++ ":{" ++ Json.quoted "toString" ++ ":1}}")
     = Some (JObj (obj [("name", JObj (obj [("toString", JInt 1)]))]))
  /\ FalconTypes.new_SfdxCliError
       ("{" ++ Json.quoted "name" ++ ":{" ++ Json.quoted "toString" ++ ":1}}") None
     = Throw cannot_convert.
Proof.
  split; [vm_compute; reflexivity|].
  split.
  { eexists. split; [vm_compute; reflexivity|].
    split; [vm_compute; reflexivity|]. split; [vm_compute; reflexivity|].
    vm_compute. discriminate. }
  split; [vm_compute; reflexivity|].
  split.
  { eexists. split; [vm_compute; reflexivity|]. vm_compute; reflexivity. }
  split; vm_compute; reflexivity.
Qed.

Example SfdxCliError_no_org :
  exists error,
    FalconTypes.new_SfdxCliError
      ("{" ++ Json.quoted "name" ++ ":" ++ Json.quoted "NoOrgFound" ++ ","
           ++ Json.quoted "status" ++ ":0}") None
    = Normal error
    /\ FalconTypes.cliError error
       = obj [("name", JStr "NoOrgFound"); ("message", JStr "Unknown CLI Error");
              ("status", JInt 0); ("stack", JStr "SfdxCliError");
              ("result", JObj ∅); ("warnings", JArr [])].
Proof. eexists. split; vm_compute; reflexivity. Qed.

Example SfdxCliError_plain_text :
  exists error,
    FalconTypes.new_SfdxCliError "ERROR running force:org:delete" None = Normal error
    /\ FalconTypes.cliError error
       = FalconTypes.unparseable "ERROR running force:org:delete".
Proof. eexists. split; vm_compute; reflexivity. Qed.

Example JSON_parse_nested :
  Json.JSON_parse " [1, 2.50, -3e2, true, null, [], {}, [[]]] "
  = Some (JArr [JInt 1; JNum (Dec 250 (-2)); JNum (Dec (-3) 2); JBool true; JNull;
                JArr []; JObj ∅; JArr [JArr []]]).
Proof. vm_compute. reflexivity. Qed.

Example JSON_parse_trailing_comma : Json.JSON_parse "[1,]" = None.
Proof. vm_compute. reflexivity. Qed.

Example JSON_parse_underflow : Json.JSON_parse "[1e-400, 5e-324]" = Some (JArr [JInt 0; JNum (Dec 5 (-324))]).
Proof. vm_compute. reflexivity. Qed.

Example to_string_array :
  to_string (JArr [JInt 1; JNull; JStr "a"; JNum (Dec 150 (-2)); JNum (Dec 12 2)])
  = Normal "1,,a,1.5,1200".
Proof. vm_compute. reflexivity. Qed.

(* ===================================================================== *)
(** * The actions                                                         *)
(* ===================================================================== *)

(** Attaching a child never touches the detail of the parent, whether the
    parent is returned or raised. *)
Lemma addChild_detail parent child r :
  Result.addChild parent child = Normal r \/ Result.addChild parent child = Throw r ->
  Result.detail r = Result.detail parent.
Proof.
  unfold Result.addChild.
  destruct (Result.is_terminal _); [intros [H|H]; by inversion H|].
  destruct (_ && _); [intros [H|H]; by inversion H|].
  destruct (_ && _); intros [H|H]; by inversion H.
Qed.

Lemma typeof_undefined v :
  String.eqb (typeof v) "undefined" = match v with JUndefined => true | _ => false end.
Proof. by destruct v. Qed.

Lemma typeof_missing (actionOptions : gmap string JsValue) key :
  String.eqb (typeof (get_own actionOptions key)) "undefined"
  = CreateUser.is_missing actionOptions key.
Proof.
  rewrite typeof_undefined. unfold get_own, CreateUser.is_missing.
  by destruct (actionOptions !! key) as [[]|].
Qed.

(** C2, as amended.  [validateActionOptions] of create-user is a
    synchronous check of the two keys [definitionFile] and [sfdxUserAlias],
    in this order: it throws an error that names the first of them that is
    missing (absent, or [undefined]) and returns normally when both are
    there.  The key [userAlias] plays no part. *)
Theorem validateActionOptions_first_missing (actionOptions : gmap string JsValue) :
  CreateUser.validateActionOptions actionOptions
  = CreateUser.validate_required ["definitionFile"; "sfdxUserAlias"] actionOptions.
Proof.
  unfold CreateUser.validateActionOptions, CreateUser.validate_required.
  rewrite !typeof_missing. cbn [find].
  by repeat destruct (CreateUser.is_missing _ _).
Qed.

(** Options with [definitionFile] and [userAlias] pass the validation of
    the claim, and the code rejects them for want of [sfdxUserAlias]. *)
Lemma validateActionOptions_userAlias_counterexample :
  let actionOptions : gmap string JsValue :=
    obj [("definitionFile", JStr "demo-user.json"); ("userAlias", JStr "demo-user")] in
  CreateUser.validate_required ["definitionFile"; "userAlias"] actionOptions = Normal tt
  /\ CreateUser.validateActionOptions actionOptions
     = Throw (CreateUser.MkError "ERROR_MISSING_OPTION: 'sfdxUserAlias'")
  /\ CreateUser.validateActionOptions actionOptions
     <> CreateUser.validate_required ["definitionFile"; "userAlias"] actionOptions.
Proof.
  split; [vm_compute; reflexivity|].
  split; [vm_compute; reflexivity|]. vm_compute. discriminate.
Qed.

Section CreateUserFacts.
Import Result Appx CreateUser.

Variable recognized : Outcome -> bool.
Variable readConfigFile : string -> JsValue -> Settled JsValue Outcome.
Variable createUniqueUsername : JsValue -> string.
Variable createUser :
  string -> JsValue -> JsValue -> TargetOrg -> gmap string JsValue -> JsValue ->
  Settled SfdxFalconResult Outcome.

(** Once the definition file has been read, the action settles with its
    own node, returned or raised, and [detail.defaultPassword] of that
    node is what the helper answered. *)
Lemma executeAction_detail actionContext actionOptions
    (userDefinition : gmap string JsValue) :
  readConfigFile (configPath (projectContext actionContext))
                 (get_own actionOptions "definitionFile")
  = Resolved (JObj userDefinition) ->
  exists actionResult detail,
    (executeAction recognized readConfigFile createUniqueUsername createUser
       actionContext actionOptions = Resolved actionResult
     \/ executeAction recognized readConfigFile createUniqueUsername createUser
          actionContext actionOptions = Rejected (IsResult actionResult))
    /\ Result.detail actionResult = JObj detail
    /\ detail !! "defaultPassword"
       = Some (determineDefaultPassword (get_own userDefinition "password")).
Proof.
  intros Hread. unfold executeAction. rewrite Hread. cbn [p_catch get_prop].
  fold (get_own userDefinition "Username"). fold (get_own userDefinition "password").
  set (pw := determineDefaultPassword _).
  set (node := with_detail _ _).
  assert (Hnode : exists d, Result.detail node = JObj d /\ d !! "defaultPassword" = Some pw).
  { eexists. split; [reflexivity|]. unfold set_own.
    rewrite lookup_insert_ne by done. by rewrite lookup_insert_eq. }
  destruct Hnode as (d & Hd & Hpw).
  destruct (createUser _ _ _ _ _ _) as [executorResult|executorResult].
  - destruct (addChild node executorResult) as [r|r] eqn:E1.
    + exists r, d. split; [by left|]. split; [|done].
      rewrite <- Hd. apply (addChild_detail node executorResult). by left.
    + assert (Hr : Result.detail r = JObj d).
      { rewrite <- Hd. apply (addChild_detail node executorResult). by right. }
      destruct (addChild r _) as [r'|r'] eqn:E2.
      * exists r', d. split; [by left|]. split; [|done].
        rewrite <- Hr. eapply addChild_detail. left; exact E2.
      * exists r', d. split; [by right|]. split; [|done].
        rewrite <- Hr. eapply addChild_detail. right; exact E2.
  - destruct (addChild node _) as [r|r] eqn:E1.
    + exists r, d. split; [by left|]. split; [|done].
      rewrite <- Hd. eapply addChild_detail. left; exact E1.
    + exists r, d. split; [by right|]. split; [|done].
      rewrite <- Hd. eapply addChild_detail. right; exact E1.
Qed.

(** C8. [determineDefaultPassword] answers ["1HappyCloud"] for every falsy
    suggestion, the empty string and the absent one alike, and on a string
    it always answers a string that is not empty.  So when the definition
    read by create-user supplies a falsy password, the empty string for
    one, [detail.defaultPassword] of the node the action settles with is
    the fixed default, not the password supplied. *)
Theorem determineDefaultPassword_falsy actionContext actionOptions
    (userDefinition : gmap string JsValue) :
  (forall suggestedPassword,
     to_boolean suggestedPassword = false ->
     determineDefaultPassword suggestedPassword = JStr "1HappyCloud")
  /\ determineDefaultPassword (JStr "") = JStr "1HappyCloud"
  /\ determineDefaultPassword JUndefined = JStr "1HappyCloud"
  /\ (forall s : string,
        exists password,
          determineDefaultPassword (JStr s) = JStr password /\ password <> "")
  /\ (readConfigFile (configPath (projectContext actionContext))
                     (get_own actionOptions "definitionFile")
      = Resolved (JObj userDefinition) ->
      to_boolean (get_own userDefinition "password") = false ->
      exists actionResult detail,
        (executeAction recognized readConfigFile createUniqueUsername createUser
           actionContext actionOptions = Resolved actionResult
         \/ executeAction recognized readConfigFile createUniqueUsername createUser
              actionContext actionOptions = Rejected (IsResult actionResult))
        /\ Result.detail actionResult = JObj detail
        /\ get_own detail "defaultPassword" = JStr "1HappyCloud").
Proof.
  assert (Hfalsy : forall v, to_boolean v = false ->
                             determineDefaultPassword v = JStr "1HappyCloud").
  { unfold determineDefaultPassword. by intros v ->. }
  split; [exact Hfalsy|].
  split; [reflexivity|]. split; [reflexivity|]. split.
  - intros s. unfold determineDefaultPassword.
    destruct (String.eqb_spec s "") as [->|Hs].
    + by exists "1HappyCloud".
    + exists s. simpl. apply String.eqb_neq in Hs as Hs'. by rewrite Hs'.
  - intros Hread Hpw.
    destruct (executeAction_detail _ _ _ Hread) as (r & d & Hsettle & Hd & Hdef).
    exists r, d. split; [exact Hsettle|]. split; [exact Hd|].
    unfold get_own at 1. rewrite Hdef. cbn [default]. by apply Hfalsy.
Qed.

(** C3, as amended.  In every execution of create-user's [executeAction]
    in which the definition file is read, the action settles with its own
    node.  When the user definition has no [password] field, the helper
    answers ["1HappyCloud"] and [detail.defaultPassword] of the node is
    ["1HappyCloud"]; when the definition supplies a password that is
    truthy (for a string: not empty), the helper answers that password
    as it is, and so does the detail. *)
Theorem create_user_default_password actionContext actionOptions
    (userDefinition : gmap string JsValue) :
  readConfigFile (configPath (projectContext actionContext))
                 (get_own actionOptions "definitionFile")
  = Resolved (JObj userDefinition) ->
  exists actionResult detail,
    (executeAction recognized readConfigFile createUniqueUsername createUser
       actionContext actionOptions = Resolved actionResult
     \/ executeAction recognized readConfigFile createUniqueUsername createUser
          actionContext actionOptions = Rejected (IsResult actionResult))
    /\ Result.detail actionResult = JObj detail
    /\ (userDefinition !! "password" = None ->
        determineDefaultPassword (get_own userDefinition "password") = JStr "1HappyCloud"
        /\ get_own detail "defaultPassword" = JStr "1HappyCloud")
    /\ (forall password,
          userDefinition !! "password" = Some password ->
          to_boolean password = true ->
          determineDefaultPassword (get_own userDefinition "password") = password
          /\ get_own detail "defaultPassword" = password).
Proof.
  intros Hread.
  destruct (executeAction_detail _ _ _ Hread) as (r & d & Hsettle & Hd & Hpw).
  exists r, d. split; [exact Hsettle|]. split; [exact Hd|].
  unfold get_own in Hpw |- *. rewrite Hpw. split.
  - intros ->. by split.
  - intros password -> Htrue. simpl.
    unfold determineDefaultPassword. by rewrite Htrue.
Qed.

End CreateUserFacts.

Lemma create_user_default_password_witness :
  let readConfigFile := fun (_ : string) (_ : JsValue) =>
    @Resolved JsValue Result.Outcome (JObj (obj [("Username", JStr "demo@example.com")])) in
  let createUser := fun (_ : string) (_ _ : JsValue) (_ : Appx.TargetOrg)
                        (_ : gmap string JsValue) (_ : JsValue) =>
    @Resolved Result.SfdxFalconResult Result.Outcome
      (Result.MkResult "hybrid:createUser" Result.EXECUTOR Result.SUCCESS JNull JUndefined []
         Result.default_options) in
  let actionContext :=
    {| Appx.targetOrg := {| Appx.alias := "demo-org" |};
       Appx.devHubAlias := "hub";
       Appx.projectContext := {| Appx.configPath := "config"; Appx.mdapiSourcePath := "mdapi" |};
       Appx.logLevel := "error";
       Appx.listrExecOptions := {| Appx.observer := JNull |} |} in
  let actionOptions : gmap string JsValue :=
    obj [("definitionFile", JStr "demo-user.json"); ("sfdxUserAlias", JStr "demo-user")] in
  exists actionResult detail,
    CreateUser.executeAction (fun _ => false) readConfigFile
      (fun username => as_string username ++ ".1234") createUser
      actionContext actionOptions = Resolved actionResult
    /\ Result.detail actionResult = JObj detail
    /\ get_own detail "defaultPassword" = JStr "1HappyCloud".
Proof.
  intros readConfigFile createUser actionContext actionOptions.
  destruct (create_user_default_password (fun _ => false) readConfigFile
              (fun username => as_string username ++ ".1234") createUser
              actionContext actionOptions
              (obj [("Username", JStr "demo@example.com")]) eq_refl)
    as (r & d & Hsettle & Hd & Hnone & _).
  exists r, d. split; [|split; [exact Hd|]].
  - destruct Hsettle as [H|H]; [exact H|]. vm_compute in H. discriminate H.
  - apply Hnone. vm_compute. reflexivity.
Defined.

(** A definition that supplies the empty password does not get it back:
    the helper, and with it the detail of the node, hold the default. *)
Lemma create_user_empty_password_counterexample :
  let userDefinition : gmap string JsValue :=
    obj [("Username", JStr "demo@example.com"); ("password", JStr "")] in
  let readConfigFile := fun (_ : string) (_ : JsValue) =>
    @Resolved JsValue Result.Outcome (JObj userDefinition) in
  let createUser := fun (_ : string) (_ _ : JsValue) (_ : Appx.TargetOrg)
                        (_ : gmap string JsValue) (_ : JsValue) =>
    @Resolved Result.SfdxFalconResult Result.Outcome
      (Result.MkResult "hybrid:createUser" Result.EXECUTOR Result.SUCCESS JNull JUndefined []
         Result.default_options) in
  let actionContext :=
    {| Appx.targetOrg := {| Appx.alias := "demo-org" |};
       Appx.devHubAlias := "hub";
       Appx.projectContext := {| Appx.configPath := "config"; Appx.mdapiSourcePath := "mdapi" |};
       Appx.logLevel := "error";
       Appx.listrExecOptions := {| Appx.observer := JNull |} |} in
  let actionOptions : gmap string JsValue :=
    obj [("definitionFile", JStr "demo-user.json"); ("sfdxUserAlias", JStr "demo-user")] in
  userDefinition !! "password" = Some (JStr "")
  /\ CreateUser.determineDefaultPassword (get_own userDefinition "password")
     = JStr "1HappyCloud"
  /\ CreateUser.determineDefaultPassword (get_own userDefinition "password")
     <> JStr ""
  /\ exists actionResult detail,
       CreateUser.executeAction (fun _ => false) readConfigFile
         (fun username => as_string username ++ ".1234") createUser
         actionContext actionOptions = Resolved actionResult
       /\ Result.detail actionResult = JObj detail
       /\ get_own detail "defaultPassword" = JStr "1HappyCloud".
Proof.
  split; [vm_compute; reflexivity|].
  split; [vm_compute; reflexivity|].
  split; [vm_compute; discriminate|].
  eexists _, _. split; [vm_compute; reflexivity|].
  split; vm_compute; reflexivity.
Qed.

Lemma determineDefaultPassword_falsy_witness :
  let userDefinition : gmap string JsValue :=
    obj [("Username", JStr "demo@example.com"); ("password", JStr "")] in
  let readConfigFile := fun (_ : string) (_ : JsValue) =>
    @Resolved JsValue Result.Outcome (JObj userDefinition) in
  let createUser := fun (_ : string) (_ _ : JsValue) (_ : Appx.TargetOrg)
                        (_ : gmap string JsValue) (_ : JsValue) =>
    @Rejected Result.SfdxFalconResult Result.Outcome
      (Result.IsValue (JStr "DUPLICATE_USERNAME")) in
  let actionContext :=
    {| Appx.targetOrg := {| Appx.alias := "demo-org" |};
       Appx.devHubAlias := "hub";
       Appx.projectContext := {| Appx.configPath := "config"; Appx.mdapiSourcePath := "mdapi" |};
       Appx.logLevel := "error";
       Appx.listrExecOptions := {| Appx.observer := JNull |} |} in
  let actionOptions : gmap string JsValue :=
    obj [("definitionFile", JStr "demo-user.json"); ("sfdxUserAlias", JStr "demo-user")] in
  to_boolean (JStr "") = false
  /\ CreateUser.determineDefaultPassword (JStr "") = JStr "1HappyCloud"
  /\ exists actionResult detail,
       CreateUser.executeAction (fun _ => false) readConfigFile
         (fun username => as_string username ++ ".1234") createUser
         actionContext actionOptions = Rejected (Result.IsResult actionResult)
       /\ Result.detail actionResult = JObj detail
       /\ get_own detail "defaultPassword" = JStr "1HappyCloud".
Proof.
  intros userDefinition readConfigFile createUser actionContext actionOptions.
  destruct (determineDefaultPassword_falsy (fun _ => false) readConfigFile
              (fun username => as_string username ++ ".1234") createUser
              actionContext actionOptions userDefinition)
    as (Hfalsy & _ & _ & _ & Haction).
  split; [reflexivity|].
  split; [apply Hfalsy; reflexivity|].
  destruct (Haction eq_refl) as (r & d & Hsettle & Hd & Hpw);
    [vm_compute; reflexivity|].
  exists r, d. split; [|split; assumption].
  destruct Hsettle as [H|H]; [vm_compute in H; discriminate H | exact H].
Defined.

Section DeployMetadataFacts.
Import Result Appx DeployMetadata.

Variable recognized : Outcome -> bool.
Variable path_join : string -> string -> string.
Variable executeSfdxCommand : gmap string JsValue -> Settled Outcome Outcome.

(** C4. Every command definition that deploy-metadata's [executeAction]
    composes and hands to the Executor has the command
    [force:mdapi:deploy] and flags with a wait of 5, the test level
    [NoTestRun], JSON output requested, and as deploy directory the join of
    the project's MDAPI source path with the option [mdapiSource].  With
    [mdapiSource] a string, exactly one such definition is composed, and
    the node the action settles with keeps it in
    [detail.sfdxCommandDef]. *)
Theorem deploy_metadata_command_definition
    (actionContext : AppxEngineActionContext) (actionOptions : gmap string JsValue) :
  let run := executeAction recognized path_join executeSfdxCommand
               actionContext actionOptions in
  (forall sfdxCommandDef, In sfdxCommandDef (commands run) ->
     get_own sfdxCommandDef "command" = JStr "force:mdapi:deploy"
     /\ exists commandFlags mdapiSource,
          get_own sfdxCommandDef "commandFlags" = JObj commandFlags
          /\ get_own commandFlags "FLAG_WAIT" = JInt 5
          /\ get_own commandFlags "FLAG_TESTLEVEL" = JStr "NoTestRun"
          /\ get_own commandFlags "FLAG_JSON" = JBool true
          /\ get_own actionOptions "mdapiSource" = JStr mdapiSource
          /\ get_own commandFlags "FLAG_DEPLOYDIR"
             = JStr (path_join (mdapiSourcePath (projectContext actionContext)) mdapiSource))
  /\ (forall mdapiSource,
        get_own actionOptions "mdapiSource" = JStr mdapiSource ->
        exists sfdxCommandDef actionResult detail,
          commands run = [sfdxCommandDef]
          /\ (settled run = Resolved actionResult
              \/ settled run = Rejected (IsResult actionResult))
          /\ Result.detail actionResult = JObj detail
          /\ get_own detail "sfdxCommandDef" = JObj sfdxCommandDef).
Proof.
  cbv zeta. unfold executeAction. split.
  - intros def.
    destruct (get_own actionOptions "mdapiSource") as [| | | | |src| |] eqn:Hsrc;
      (destruct (to_string _) as [rendered|e] eqn:Hrendered; [|intros []]);
      cbn [path_join_any commands]; try (intros Hin; by destruct Hin).
    intros [<-|[]]. injection Hrendered as <-.
    split; [reflexivity|]. eexists _, src.
    split; [reflexivity|]. repeat (split; [reflexivity|]). reflexivity.
  - intros src Hsrc. rewrite Hsrc. cbn [to_string path_join_any commands settled].
    set (def := obj _).
    set (node := with_detail _ _).
    assert (Hnode : exists d, Result.detail node = JObj d
                              /\ get_own d "sfdxCommandDef" = JObj def).
    { eexists. split; [reflexivity|]. unfold get_own, set_own.
      by rewrite lookup_insert_eq. }
    destruct Hnode as (d & Hd & Hdef).
    exists def.
    destruct (executeSfdxCommand def) as [resolved|rejected]; cbn [p_then].
    + unfold addResolvedChild.
      destruct (addChild node _) as [r|r] eqn:E; exists r, d;
        (split; [reflexivity|]); (split; [by auto|]); (split; [|done]);
        rewrite <- Hd; eapply addChild_detail; eauto.
    + unfold addRejectedChild.
      destruct (addChild node _) as [r|r] eqn:E; cbn [p_then]; exists r, d;
        (split; [reflexivity|]); (split; [by auto|]); (split; [|done]);
        rewrite <- Hd; eapply addChild_detail; eauto.
Qed.

End DeployMetadataFacts.

Lemma deploy_metadata_command_definition_witness :
  let actionContext :=
    {| Appx.targetOrg := {| Appx.alias := "demo-org" |};
       Appx.devHubAlias := "hub";
       Appx.projectContext := {| Appx.configPath := "config"; Appx.mdapiSourcePath := "mdapi" |};
       Appx.logLevel := "error";
       Appx.listrExecOptions := {| Appx.observer := JNull |} |} in
  let actionOptions : gmap string JsValue := obj [("mdapiSource", JStr "unpackaged/pre")] in
  let run :=
    DeployMetadata.executeAction (fun _ => false) (fun a b => a ++ "/" ++ b)
      (fun _ => Rejected (Result.IsValue (JStr "deploy failed")))
      actionContext actionOptions in
  exists sfdxCommandDef commandFlags,
    DeployMetadata.commands run = [sfdxCommandDef]
    /\ get_own sfdxCommandDef "command" = JStr "force:mdapi:deploy"
    /\ get_own sfdxCommandDef "commandFlags" = JObj commandFlags
    /\ get_own commandFlags "FLAG_WAIT" = JInt 5
    /\ get_own commandFlags "FLAG_TESTLEVEL" = JStr "NoTestRun"
    /\ get_own commandFlags "FLAG_DEPLOYDIR" = JStr "mdapi/unpackaged/pre".
Proof.
  intros actionContext actionOptions run.
  destruct (proj2 (deploy_metadata_command_definition (fun _ => false)
                     (fun a b => a ++ "/" ++ b)
                     (fun _ => Rejected (Result.IsValue (JStr "deploy failed")))
                     actionContext actionOptions) "unpackaged/pre" eq_refl)
    as (def & r & d & Hcommands & _).
  destruct (proj1 (deploy_metadata_command_definition (fun _ => false)
                     (fun a b => a ++ "/" ++ b)
                     (fun _ => Rejected (Result.IsValue (JStr "deploy failed")))
                     actionContext actionOptions) def)
    as (Hcommand & flags & src & Hflags & Hwait & Htest & _ & Hsrc & Hdir).
  { rewrite Hcommands. left. reflexivity. }
  exists def, flags. repeat (split; [assumption|]).
  rewrite Hdir. vm_compute in Hsrc. by injection Hsrc as <-.
Defined.

Section DeleteScratchOrgFacts.
Import Appx DeleteScratchOrg.


End DeleteScratchOrgFacts.


Example delete_scratch_org_not_found :
  let actionContext :=
    {| Appx.targetOrg := {| Appx.alias := "gone-org" |};
       Appx.devHubAlias := "hub";
       Appx.projectContext := {| Appx.configPath := "config"; Appx.mdapiSourcePath := "mdapi" |};
       Appx.logLevel := "error";
       Appx.listrExecOptions := {| Appx.observer := JNull |} |} in
  snd (DeleteScratchOrg.executeAction
         (fun _ => Rejected (JObj (obj [("status", JInt 1); ("name", JStr "NoOrgFound")])))
         DeleteScratchOrg.initializeAction actionContext
         (obj [("scratchOrgAlias", JStr "gone-org")]))
  = Resolved (DeleteScratchOrg.Passed
                (JObj (obj [("status", JInt 0); ("name", JStr "NoOrgFound")]))).
Proof. vm_compute. reflexivity. Qed.

(* ===================================================================== *)
(** * falcon:demo:deploy                                                  *)
(* ===================================================================== *)

Section DemoDeployFacts.
Import DemoDeploy.

(** [onError] never returns. *)
Lemma onError_throws falconError : exists thrown, onError falconError = Throw thrown.
Proof.
  unfold onError.
  destruct (caught_prop falconError "stdErrJson") as [stdError|]; [|by eexists].
  destruct (caught_prop falconError "message") as [message|]; [|by eexists].
  destruct (get_prop stdError "message") as [stdMessage|]; [|by eexists].
  destruct (to_string stdMessage); by eexists.
Qed.

(** Given a [FalconError], an object that holds a [stdErrJson] object
    whose message can be rendered, it throws the [SfdxError] it built. *)
Lemma onError_falcon (fields stdFields : gmap string JsValue) subject :
  fields !! "stdErrJson" = Some (JObj stdFields) ->
  to_string (get_own stdFields "message") = Normal subject ->
  exists sfdxError,
    onError (CaughtValue (JObj fields)) = Throw (CommandError sfdxError)
    /\ commandName sfdxError = Some "falcon:demo:deploy"
    /\ errorTokens (config sfdxError)
       = [get_own fields "message"; get_own stdFields "message"].
Proof.
  intros Hstd Hsubject. unfold onError. cbn [caught_prop get_prop].
  rewrite Hstd. change (default JUndefined (Some (JObj stdFields))) with (JObj stdFields).
  cbn [get_prop]. unfold get_own in *.
  rewrite Hsubject. eexists. split; [reflexivity|]. split; [reflexivity|].
  cbn [config]. by repeat destruct (contains _ _).
Qed.

(** Given an error of the runtime, which has no [stdErrJson], it throws
    a [TypeError] of its own. *)
Lemma onError_runtime e :
  exists thrown,
    onError (CaughtError e) = Throw (Runtime thrown) /\ rt_name thrown = "TypeError".
Proof. eexists. split; reflexivity. Qed.

Variable Project : Type.
Variable StatusReport : Type.
Variable validateLocalPath : JsValue -> bool.
Variable path_resolve : string -> string.
Variable resolve : string -> JsValue -> Settled Project JsValue.
Variable validateDemo : Project -> Settled (Report StatusReport) JsValue.
Variable getRunTime : StatusReport -> bool -> Completion JsValue JsValue.

(** What [onSuccess] leaves on the instance, whether it returns or
    throws. *)
Lemma onSuccess_instance this report :
  fst (onSuccess StatusReport getRunTime this report)
  = MkCommand (Some report) {| status := 0; result := report |}.
Proof.
  unfold onSuccess. destruct report as [r|v].
  - destruct (getRunTime r true) as [runTime|]; [|reflexivity].
    by destruct (to_string runTime).
  - by destruct v.
Qed.

(** A report without the method makes [onSuccess] throw a [TypeError]. *)
Lemma onSuccess_other this v :
  exists thrown,
    snd (onSuccess StatusReport getRunTime this (Other v)) = Throw (CaughtError thrown).
Proof. unfold onSuccess. destruct v; by eexists. Qed.

(** C6, as amended.  When the validation of the demo succeeds with a
    status report whose [getRunTime(true)] returns something that can be
    printed, [run] resolves with the response
    [{status: 0, result: <status report>}].  When it fails with a
    [FalconError], [onError] throws an [SfdxError] with the command name
    [falcon:demo:deploy] and [run] rejects with it: no response is
    returned.  When it succeeds with a value that has no [getRunTime],
    [onSuccess] throws, the error goes to [onError], and [run] rejects with
    a [TypeError].  Every response [run] resolves with has status 0. *)
Theorem demo_deploy_run_response (flags : gmap string JsValue) :
  let deployDirFlag := js_or (get_own flags "deploydir") (JStr ".") in
  let debugModeFlag := js_or (get_own flags "falcondebug") (JBool false) in
  let settled :=
    snd (run Project StatusReport validateLocalPath path_resolve resolve validateDemo
           getRunTime flags) in
  (forall deployDir appxDemoProject statusReport runTime printed,
     validateLocalPath deployDirFlag = true ->
     deployDirFlag = JStr deployDir ->
     resolve (path_resolve deployDir) debugModeFlag = Resolved appxDemoProject ->
     validateDemo appxDemoProject = Resolved (Instance statusReport) ->
     getRunTime statusReport true = Normal runTime ->
     to_string runTime = Normal printed ->
     settled = Resolved {| status := 0; result := Instance statusReport |})
  /\ (forall deployDir appxDemoProject falconError stdErrJson printed,
        validateLocalPath deployDirFlag = true ->
        deployDirFlag = JStr deployDir ->
        resolve (path_resolve deployDir) debugModeFlag = Resolved appxDemoProject ->
        validateDemo appxDemoProject = Rejected (JObj falconError) ->
        falconError !! "stdErrJson" = Some (JObj stdErrJson) ->
        to_string (get_own stdErrJson "message") = Normal printed ->
        exists sfdxError,
          settled = Rejected (CommandError sfdxError)
          /\ commandName sfdxError = Some "falcon:demo:deploy")
  /\ (forall deployDir appxDemoProject v,
        validateLocalPath deployDirFlag = true ->
        deployDirFlag = JStr deployDir ->
        resolve (path_resolve deployDir) debugModeFlag = Resolved appxDemoProject ->
        validateDemo appxDemoProject = Resolved (Other v) ->
        exists thrown,
          settled = Rejected (Runtime thrown) /\ rt_name thrown = "TypeError")
  /\ (forall response, settled = Resolved response -> status response = 0%Z).
Proof.
  cbv zeta. unfold run.
  set (deployDirFlag := js_or (get_own flags "deploydir") _).
  set (debugModeFlag := js_or (get_own flags "falcondebug") _).
  split; [|split; [|split]].
  - intros dir proj report runTime printed -> -> -> -> Hrun Hprinted.
    unfold onSuccess. rewrite Hrun, Hprinted. reflexivity.
  - intros dir proj fe std printed -> -> -> -> Hstd Hprinted. cbn [negb].
    destruct (onError_falcon fe std printed Hstd Hprinted) as (e & -> & Hname & _).
    by exists e.
  - intros dir proj v -> -> -> ->. cbn [negb].
    destruct (onSuccess_other
                (MkCommand None
                   {| status := 1; result := Other (JStr "ERROR_RESPONSE_NOT_SET") |}) v)
      as [thrown Hthrown].
    destruct (onSuccess _ _ _ _) as [this c]. cbn [snd] in Hthrown. subst c.
    destruct (onError_runtime thrown) as (e & -> & He). by exists e.
  - intros response.
    destruct (validateLocalPath deployDirFlag); cbn [negb snd]; [|discriminate].
    destruct deployDirFlag; try discriminate.
    destruct (resolve _ debugModeFlag) as [proj|]; cbn [snd]; [|discriminate].
    destruct (validateDemo proj) as [report|fe]; cbn [snd].
    + pose proof (onSuccess_instance
                    (MkCommand None
                       {| status := 1; result := Other (JStr "ERROR_RESPONSE_NOT_SET") |})
                    report) as Hinst.
      destruct (onSuccess _ _ _ _) as [this [[]|thrown]]; cbn [fst] in Hinst; subst this.
      * by intros [= <-].
      * destruct (onError_throws thrown) as (e & ->). discriminate.
    + destruct (onError_throws (CaughtValue fe)) as (e & ->). discriminate.
Qed.

End DemoDeployFacts.

Lemma demo_deploy_run_response_witness :
  snd (DemoDeploy.run unit unit (fun _ => true) (fun dir => "/work/" ++ dir)
         (fun _ _ => Resolved tt) (fun _ => Resolved (DemoDeploy.Instance tt))
         (fun _ _ => Normal (JStr "3s")) ∅)
  = Resolved {| DemoDeploy.status := 0; DemoDeploy.result := DemoDeploy.Instance tt |}.
Proof.
  apply (proj1 (demo_deploy_run_response unit unit (fun _ => true)
                  (fun dir => "/work/" ++ dir) (fun _ _ => Resolved tt)
                  (fun _ => Resolved (DemoDeploy.Instance tt))
                  (fun _ _ => Normal (JStr "3s")) ∅)
           "." tt tt (JStr "3s") "3s");
    reflexivity.
Defined.

(** A failed validation: [run] does not resolve with any response, let
    alone one of status 1; it rejects with the [SfdxError]. *)
Lemma demo_deploy_run_rejects_counterexample :
  let falconError :=
    JObj (obj [("message", JStr "Demo validation failed");
               ("stdErrJson", JObj (obj [("message", JStr "VMC_DEV_TEST2: no such org")]))]) in
  let settled :=
    snd (DemoDeploy.run unit unit (fun _ => true) (fun dir => "/work/" ++ dir)
           (fun _ _ => Resolved tt) (fun _ => Rejected falconError)
           (fun _ _ => Normal (JStr "3s")) ∅) in
  (forall response, settled <> Resolved response)
  /\ settled
     = Rejected (DemoDeploy.CommandError
         (DemoDeploy.MkSfdxError
            (DemoDeploy.MkConfig "sfdx-falcon" "falconErrorMessages" "errDefault"
               [JStr "Demo validation failed"; JStr "VMC_DEV_TEST2: no such org"]
               [("actionDevTest2", ["TEST_THREE"])])
            (Some "falcon:demo:deploy"))).
Proof.
  split; [intros response; vm_compute; discriminate | vm_compute; reflexivity].
Qed.

(** A validation that succeeds with a report lacking [getRunTime]: the
    response was set to status 0, and yet [run] rejects. *)
Example demo_deploy_run_report_without_method :
  let after :=
    DemoDeploy.run unit unit (fun _ => true) (fun dir => "/work/" ++ dir)
      (fun _ _ => Resolved tt) (fun _ => Resolved (DemoDeploy.Other (JStr "report")))
      (fun _ _ => Normal (JStr "3s")) ∅ in
  snd after
  = Rejected (DemoDeploy.Runtime
                (MkRuntimeError "TypeError" "Cannot read property 'message' of undefined"))
  /\ DemoDeploy.status (DemoDeploy.jsonResponse (fst after)) = 0%Z.
Proof. split; vm_compute; reflexivity. Qed.

(* ===================================================================== *)
(** * Facts about the shape of a Git URI and the name of a repository     *)
(* ===================================================================== *)

Section GitUriFacts.
Import RegExp Git GitUri.

Lemma lang_Seq_inv total r1 r2 s s' :
  lang total (Seq r1 r2) s s' ->
  exists mid, lang total r1 s mid /\ lang total r2 mid s'.
Proof. inversion 1 as [| |? ? ? mid ? Ha Hb| | | | | |]; subst. eauto. Qed.

Lemma lang_Alt_inv total r1 r2 s s' :
  lang total (Alt r1 r2) s s' -> lang total r1 s s' \/ lang total r2 s s'.
Proof. inversion 1; subst; auto. Qed.

Lemma lang_Opt_inv total r s s' :
  lang total (Opt r) s s' -> lang total r s s' \/ s = s'.
Proof.
  unfold Opt. intros H. apply lang_Alt_inv in H as [H|H]; [by left|].
  inversion H; subst. by right.
Qed.

Lemma lang_Bol_inv total s s' :
  lang total Bol s s' -> s' = s /\ length s = total.
Proof. inversion 1; subst. auto. Qed.

Lemma lang_Class_inv total items s s' :
  lang total (Class items) s s' -> exists c, s = c :: s' /\ in_class items c = true.
Proof. inversion 1; subst. eauto. Qed.

(** One or more characters of a class. *)
Lemma lang_Plus_Class total items s s' :
  lang total (Plus (Class items)) s s' <->
  exists w, w <> [] /\ s = (w ++ s')%list /\ forallb (in_class items) w = true.
Proof.
  unfold Plus. split.
  - intros H. apply lang_Seq_inv in H as (mid & H1 & H2).
    apply lang_Class_inv in H1 as (c & -> & Hc).
    apply (lang_star_chars total _ (in_class items)) in H2 as (w & -> & Hw);
      [|intros ? ?; apply lang_Class_inv].
    exists (c :: w). simpl. by rewrite Hc, Hw.
  - intros ([|c w] & Hne & -> & Hw); [done|]. simpl in Hw.
    apply andb_true_iff in Hw as [Hc Hw].
    econstructor; [by constructor|].
    apply (lang_chars_star _ _ (in_class items)); [|exact Hw].
    intros; by constructor.
Qed.

(** What [gitUriRegEx] matches from a position on. *)
Lemma lang_gitUriRegEx total s rest :
  lang total gitUriRegEx s rest <->
  rest = [] /\ exists head sep path slash,
    s = uri_chars head sep path slash
    /\ ((length s = total /\ protocol_chars head)
        \/ exists host, head = (["g"; "i"; "t"; "@"]%char ++ host)%list /\ host <> []
                        /\ forallb is_host_char host = true)
    /\ (sep = [] \/ sep = ["/"; "/"]%char)
    /\ path <> [] /\ forallb is_path_char path = true
    /\ (slash = [] \/ slash = ["/"]%char).
Proof.
  unfold gitUriRegEx. split.
  - intros H.
    apply lang_Seq_inv in H as (s1 & Hhead & H).
    apply lang_Seq_inv in H as (s2 & Hcolon & H).
    apply lang_Seq_inv in Hcolon as (s1' & Hc & Hsep).
    apply lang_Chr_inv in Hc as ->.
    apply lang_Seq_inv in H as (s3 & Hpath & H).
    apply lang_Plus_Class in Hpath as (path & Hpne & -> & Hpath).
    apply lang_Seq_inv in H as (s4 & Hgit & H).
    apply lang_Seq_inv in Hgit as (s3' & Hdot & Hgit).
    apply lang_Chr_inv in Hdot as ->.
    apply (lang_Lit_inv total ["g"; "i"; "t"]%char) in Hgit as ->.
    apply lang_Seq_inv in H as (s5 & Hslash & Hend).
    inversion Hend; subst. split; [reflexivity|].
    assert (Hsl : exists slash, s4 = slash /\ (slash = [] \/ slash = ["/"]%char)).
    { apply lang_Opt_inv in Hslash as [Hs| ->]; [|by eexists; auto].
      apply lang_Chr_inv in Hs as ->. eexists; auto. }
    destruct Hsl as (slash & -> & Hslash').
    assert (Hsp : exists sep, s1' = (sep ++ path ++ ["."; "g"; "i"; "t"]%char ++ slash)%list
                              /\ (sep = [] \/ sep = ["/"; "/"]%char)).
    { apply lang_Opt_inv in Hsep as [Hs| ->]; [|by exists []; auto].
      apply (lang_Lit_inv total ["/"; "/"]%char) in Hs as ->. eexists; auto. }
    destruct Hsp as (sep & -> & Hsep').
    apply lang_Alt_inv in Hhead as [Hproto|Hat].
    + apply lang_Seq_inv in Hproto as (s0 & Hbol & Hproto).
      apply lang_Bol_inv in Hbol as [-> Hlen].
      assert (Hh : exists head, s = uri_chars head sep path slash /\ protocol_chars head).
      { unfold protocol_chars, uri_chars.
        apply lang_Alt_inv in Hproto as [Hp|Hp].
        { apply (lang_Lit_inv _ ["g"; "i"; "t"]%char) in Hp as ->.
          exists ["g"; "i"; "t"]%char. auto. }
        apply lang_Alt_inv in Hp as [Hp|Hp].
        { apply (lang_Lit_inv _ ["s"; "s"; "h"]%char) in Hp as ->.
          exists ["s"; "s"; "h"]%char. auto. }
        apply lang_Seq_inv in Hp as (m & Hp & Hs).
        apply (lang_Lit_inv _ ["h"; "t"; "t"; "p"]%char) in Hp as ->.
        apply lang_Opt_inv in Hs as [Hs| ->].
        - apply lang_Chr_inv in Hs as ->.
          exists ["h"; "t"; "t"; "p"; "s"]%char. auto 6.
        - exists ["h"; "t"; "t"; "p"]%char. auto 6. }
      destruct Hh as (head & Hs & Hhead).
      exists head, sep, path, slash. repeat split; auto.
    + apply lang_Seq_inv in Hat as (s0 & Hat & Hhost).
      apply (lang_Lit_inv total ["g"; "i"; "t"; "@"]%char) in Hat as ->.
      apply lang_Plus_Class in Hhost as (host & Hhne & -> & Hhost).
      exists (["g"; "i"; "t"; "@"]%char ++ host)%list, sep, path, slash.
      split; [unfold uri_chars; by rewrite <- !app_assoc|].
      split; [right; by exists host|]. auto.
  - intros (-> & head & sep & path & slash & -> & Hhead & Hsep & Hpne & Hpath & Hslash).
    unfold uri_chars.
    eapply lang_Seq.
    { instantiate (1 := (":"%char :: sep ++ path ++ ["."; "g"; "i"; "t"]%char ++ slash)%list).
      destruct Hhead as [[Hlen Hproto]|(host & -> & Hhne & Hhost)].
      - apply lang_AltL. eapply lang_Seq; [by constructor|].
        destruct Hproto as [-> | [-> | [-> | ->]]].
        + apply lang_AltL. apply (lang_Lit _ ["g"; "i"; "t"]%char).
        + apply lang_AltR, lang_AltL. apply (lang_Lit _ ["s"; "s"; "h"]%char).
        + apply lang_AltR, lang_AltR. eapply lang_Seq.
          * apply (lang_Lit _ ["h"; "t"; "t"; "p"]%char).
          * apply lang_AltR. constructor.
        + apply lang_AltR, lang_AltR. eapply lang_Seq.
          * apply (lang_Lit _ ["h"; "t"; "t"; "p"]%char).
          * apply lang_AltL. apply lang_Chr.
      - apply lang_AltR. rewrite <- app_assoc. eapply lang_Seq.
        + apply (lang_Lit _ ["g"; "i"; "t"; "@"]%char).
        + apply lang_Plus_Class. by exists host. }
    eapply lang_Seq.
    { eapply lang_Seq; [apply lang_Chr|].
      instantiate (1 := (path ++ ["."; "g"; "i"; "t"]%char ++ slash)%list).
      destruct Hsep as [->| ->].
      - apply lang_AltR. constructor.
      - apply lang_AltL. apply (lang_Lit _ ["/"; "/"]%char). }
    eapply lang_Seq.
    { apply lang_Plus_Class. by exists path. }
    eapply lang_Seq.
    { eapply lang_Seq; [apply lang_Chr | apply (lang_Lit _ ["g"; "i"; "t"]%char)]. }
    eapply lang_Seq; [|constructor].
    destruct Hslash as [->| ->].
    + apply lang_AltR. constructor.
    + apply lang_AltL. apply lang_Chr.
Qed.


Lemma string_app_assoc (a b c : string) : (a ++ b) ++ c = a ++ b ++ c.
Proof. induction a as [|x a IH]; [reflexivity|]. change (String x ((a ++ b) ++ c) = String x (a ++ b ++ c)). by rewrite IH. Qed.

Lemma string_of_uri_chars pre head sep path slash :
  string_of_list_ascii (pre ++ uri_chars head sep path slash)%list
  = string_of_list_ascii pre ++ string_of_list_ascii head ++ ":"
      ++ string_of_list_ascii sep ++ string_of_list_ascii path ++ ".git"
      ++ string_of_list_ascii slash.
Proof.
  unfold uri_chars.
  rewrite !string_of_list_ascii_app. cbn [string_of_list_ascii].
  by rewrite !string_of_list_ascii_app.
Qed.

Lemma list_of_uri_string prefix head sep path slash :
  list_ascii_of_string (prefix ++ head ++ ":" ++ sep ++ path ++ ".git" ++ slash)
  = (list_ascii_of_string prefix
       ++ uri_chars (list_ascii_of_string head) (list_ascii_of_string sep)
            (list_ascii_of_string path) (list_ascii_of_string slash))%list.
Proof.
  unfold uri_chars.
  rewrite !list_ascii_of_string_app. reflexivity.
Qed.

Lemma list_ascii_of_string_nil s : list_ascii_of_string s = [] -> s = "".
Proof. by destruct s. Qed.

(** [test] succeeds exactly when the pattern matches at some position. *)
Lemma test_true r subject :
  test r subject = true <->
  exists pre s rest,
    list_ascii_of_string subject = (pre ++ s)%list
    /\ lang (length (list_ascii_of_string subject)) r s rest.
Proof.
  unfold test, exec. split.
  - destruct (search _ _ _) as [m|] eqn:E; [|discriminate]. intros _.
    apply search_sound in E as (pre & s & rest & Hcs & Hl & _). eauto.
  - intros (pre & s & rest & Hcs & Hl).
    rewrite Hcs at 2.
    by destruct (search_complete r _ pre s rest Hl) as [m ->].
Qed.

(** A URI that [gitUriRegEx] accepts has the shape. *)
Lemma gitUriRegEx_shape uri :
  test gitUriRegEx uri = true -> git_uri_shape uri.
Proof.
  intros H. apply test_true in H as (pre & s & rest & Hcs & Hl).
  apply lang_gitUriRegEx in Hl
    as (-> & head & sep & path & slash & -> & Hhead & Hsep & Hpne & Hpath & Hslash).
  exists (string_of_list_ascii pre), (string_of_list_ascii head),
    (string_of_list_ascii sep), (string_of_list_ascii path),
    (string_of_list_ascii slash).
  split.
  { by rewrite <- (string_of_list_ascii_of_string uri), Hcs, string_of_uri_chars. }
  split.
  { destruct Hhead as [[Hlen Hproto]|(host & -> & Hhne & Hhost)].
    - left. rewrite Hcs, length_app in Hlen.
      assert (pre = []) as -> by (destruct pre; [done | simpl in Hlen; lia]).
      split; [reflexivity|]. unfold is_protocol.
      destruct Hproto as [-> | [-> | [-> | ->]]]; auto.
    - right. exists (string_of_list_ascii host).
      rewrite all_chars_of_list. split; [by rewrite string_of_list_ascii_app|].
      split; [|exact Hhost]. intros Hn. by apply string_of_list_ascii_nil in Hn. }
  split; [destruct Hsep as [-> | ->]; auto|].
  split; [intros Hn; by apply string_of_list_ascii_nil in Hn|].
  split; [by rewrite all_chars_of_list|].
  destruct Hslash as [-> | ->]; auto.
Qed.

(** Every URI of the shape is accepted by [gitUriRegEx]. *)
Lemma shape_gitUriRegEx uri :
  git_uri_shape uri -> test gitUriRegEx uri = true.
Proof.
  intros (prefix & head & sep & path & slash & -> & Hhead & Hsep & Hpne & Hpath & Hslash).
  apply test_true.
  exists (list_ascii_of_string prefix),
    (uri_chars (list_ascii_of_string head) (list_ascii_of_string sep)
       (list_ascii_of_string path) (list_ascii_of_string slash)), [].
  split; [apply list_of_uri_string|].
  apply lang_gitUriRegEx. split; [reflexivity|].
  eexists _, _, _, _. split; [reflexivity|].
  split.
  { destruct Hhead as [[-> Hproto]|(host & -> & Hhne & Hhost)].
    - left. split; [by rewrite list_of_uri_string|].
      unfold protocol_chars. destruct Hproto as [-> | [-> | [-> | ->]]]; auto.
    - right. exists (list_ascii_of_string host).
      split; [by rewrite list_ascii_of_string_app|].
      split; [|exact Hhost]. intros Hn. by apply list_ascii_of_string_nil in Hn. }
  split; [destruct Hsep as [-> | ->]; auto|].
  split; [intros Hn; by apply list_ascii_of_string_nil in Hn|].
  split; [exact Hpath|].
  destruct Hslash as [-> | ->]; auto.
Qed.

(** X1: without a protocol filter, [isGitUriValid] accepts exactly the
    strings of this shape: a protocol word [git], [ssh], [http] or [https]
    at the very start, or [git@<host>] anywhere; a colon; optionally two
    slashes; a non-empty path of word characters and [. @ : / - ~]; [.git];
    optionally one slash; and then the end of the string. *)
Theorem isGitUriValid_shape (gitRemoteUri : string) :
  isGitUriValid gitRemoteUri None = true <-> git_uri_shape gitRemoteUri.
Proof.
  unfold isGitUriValid. split.
  - destruct (test gitUriRegEx gitRemoteUri) eqn:E; [|discriminate].
    intros _. by apply gitUriRegEx_shape.
  - intros H. by rewrite (shape_gitUriRegEx _ H).
Qed.

(** X2: with or without a protocol filter, every URI that [isGitUriValid]
    accepts ends in [.git] or in [.git/]. *)
Theorem isGitUriValid_extension (gitRemoteUri : string) (acceptedProtocols : option regex) :
  isGitUriValid gitRemoteUri acceptedProtocols = true ->
  exists stem, gitRemoteUri = stem ++ ".git" \/ gitRemoteUri = stem ++ ".git/".
Proof.
  unfold isGitUriValid.
  destruct (test gitUriRegEx gitRemoteUri) eqn:E; [|discriminate]. intros _.
  apply gitUriRegEx_shape in E
    as (prefix & head & sep & path & slash & -> & _ & _ & _ & _ & Hslash).
  exists (prefix ++ head ++ ":" ++ sep ++ path).
  rewrite !string_app_assoc.
  destruct Hslash as [-> | ->]; [left | right]; reflexivity.
Qed.


(** Two ways of cutting a list into a run of [p] characters, a character
    that [p] refuses, and a rest, agree. *)
Lemma span_unique {A} (p : A -> bool) a1 x1 r1 a2 x2 r2 :
  (a1 ++ x1 :: r1 = a2 ++ x2 :: r2)%list ->
  forallb p a1 = true -> forallb p a2 = true ->
  p x1 = false -> p x2 = false ->
  a1 = a2 /\ x1 = x2 /\ r1 = r2.
Proof.
  revert a2. induction a1 as [|y a1 IH]; intros [|z a2]; simpl; intros Heq H1 H2 Hx1 Hx2.
  - by injection Heq as -> ->.
  - injection Heq as -> _. apply andb_true_iff in H2 as [H2 _]. congruence.
  - injection Heq as -> _. apply andb_true_iff in H1 as [H1 _]. congruence.
  - injection Heq as -> Heq.
    apply andb_true_iff in H1 as [_ H1]. apply andb_true_iff in H2 as [_ H2].
    destruct (IH _ Heq H1 H2 Hx1 Hx2) as (-> & -> & ->). auto.
Qed.

Lemma forallb_rev {A} (p : A -> bool) l : forallb p (rev l) = forallb p l.
Proof.
  induction l as [|x l IH]; simpl; [reflexivity|].
  rewrite forallb_app, IH. simpl. rewrite andb_true_r. apply andb_comm.
Qed.

(** A list ends in at most one repository tail. *)
Lemma repo_tail_unique pre1 n1 sl1 pre2 n2 sl2 :
  (pre1 ++ repo_tail n1 sl1 = pre2 ++ repo_tail n2 sl2)%list ->
  forallb is_name_char n1 = true -> forallb is_name_char n2 = true ->
  forallb (Ascii.eqb "/") sl1 = true -> forallb (Ascii.eqb "/") sl2 = true ->
  n1 = n2.
Proof.
  intros Heq Hn1 Hn2 Hs1 Hs2. apply (f_equal (@rev ascii)) in Heq.
  unfold repo_tail in Heq.
  change (pre1 ++ "/"%char :: n1 ++ ["."; "g"; "i"; "t"]%char ++ sl1)%list
    with (pre1 ++ ["/"%char] ++ n1 ++ ["."; "g"; "i"; "t"]%char ++ sl1)%list in Heq.
  change (pre2 ++ "/"%char :: n2 ++ ["."; "g"; "i"; "t"]%char ++ sl2)%list
    with (pre2 ++ ["/"%char] ++ n2 ++ ["."; "g"; "i"; "t"]%char ++ sl2)%list in Heq.
  rewrite !rev_app_distr in Heq. cbn [rev app] in Heq.
  rewrite <- !app_assoc in Heq. cbn [app] in Heq.
  apply (span_unique (Ascii.eqb "/")) in Heq as (_ & _ & Heq);
    [|by rewrite forallb_rev|by rewrite forallb_rev|reflexivity|reflexivity].
  injection Heq as Heq.
  apply (span_unique is_name_char) in Heq as (Heq & _ & _);
    [|by rewrite forallb_rev|by rewrite forallb_rev|reflexivity|reflexivity].
  by apply rev_inj.
Qed.

(** The two outcomes of [getRepoNameFromUri]: the URI ends in a tail and
    its name is returned, or the pattern matches nowhere and reading the
    index faults. *)
Lemma getRepoNameFromUri_cases uri :
  (exists pre name slashes,
     list_ascii_of_string uri = (pre ++ repo_tail name slashes)%list
     /\ name <> [] /\ forallb is_name_char name = true
     /\ forallb (Ascii.eqb "/") slashes = true
     /\ getRepoNameFromUri uri = Normal (string_of_list_ascii name))
  \/ (search repoNameRegEx (length (list_ascii_of_string uri)) (list_ascii_of_string uri)
      = None
      /\ getRepoNameFromUri uri = Throw (TypeError "Cannot read property '0' of null")).
Proof.
  unfold getRepoNameFromUri, exec.
  destruct (search repoNameRegEx _ _) as [m|] eqn:E; cbn [option_map]; [left | by right].
  apply search_sound in E as (pre & s & rest & Hcs & Hl & ->).
  apply lang_repoNameRegEx in Hl as (-> & name & slashes & -> & Hne & Hname & Hsl).
  cbn [length]. rewrite Nat.sub_0_r, firstn_all, (strip_repo_tail _ _ Hsl).
  exists pre, name, slashes. repeat (split; [assumption|]).
  assert (Hnm : string_of_list_ascii name <> "")
    by (intros Hn; by apply string_of_list_ascii_nil in Hn).
  apply String.eqb_neq in Hnm. by rewrite Hnm.
Qed.

Lemma list_of_tail_string prefix name slashes :
  list_ascii_of_string (prefix ++ "/" ++ name ++ ".git" ++ slashes)
  = (list_ascii_of_string prefix
       ++ repo_tail (list_ascii_of_string name) (list_ascii_of_string slashes))%list.
Proof. unfold repo_tail. rewrite !list_ascii_of_string_app. reflexivity. Qed.

(** A URI that ends in a tail yields the name of that tail. *)
Lemma getRepoNameFromUri_of_tail uri name :
  has_repo_tail uri name -> getRepoNameFromUri uri = Normal name.
Proof.
  intros (prefix & slashes & -> & Hne & Hname & Hsl).
  destruct (getRepoNameFromUri_cases (prefix ++ "/" ++ name ++ ".git" ++ slashes))
    as [(pre & n & sl & Hcs & Hn & Hnc & Hslc & ->)|[Hnone _]].
  - rewrite list_of_tail_string in Hcs.
    apply repo_tail_unique in Hcs; try done.
    by rewrite <- Hcs, string_of_list_ascii_of_string.
  - rewrite list_of_tail_string in Hnone.
    destruct (search_complete repoNameRegEx
                (length (list_ascii_of_string prefix
                  ++ repo_tail (list_ascii_of_string name) (list_ascii_of_string slashes))%list)
                (list_ascii_of_string prefix)
                (repo_tail (list_ascii_of_string name) (list_ascii_of_string slashes)) [])
      as [m Hm]; [|congruence].
    apply lang_repoNameRegEx. split; [reflexivity|].
    exists (list_ascii_of_string name), (list_ascii_of_string slashes).
    repeat split; try done. intros Hn. by apply list_ascii_of_string_nil in Hn.
Qed.

(** A name that is returned is the name of a tail of the URI. *)
Lemma getRepoNameFromUri_tail uri name :
  getRepoNameFromUri uri = Normal name -> has_repo_tail uri name.
Proof.
  destruct (getRepoNameFromUri_cases uri)
    as [(pre & n & sl & Hcs & Hn & Hnc & Hslc & ->)|[_ ->]]; [|discriminate].
  intros [= <-].
  exists (string_of_list_ascii pre), (string_of_list_ascii sl).
  rewrite !all_chars_of_list. repeat split; try done.
  - rewrite <- (string_of_list_ascii_of_string uri), Hcs. unfold repo_tail.
    rewrite string_of_list_ascii_app. simpl. by rewrite string_of_list_ascii_app.
  - intros H. by apply string_of_list_ascii_nil in H.
Qed.

(** X3: [getRepoNameFromUri] gives back the name it is meant to find.
    For a URI that ends in a slash, a non-empty name of word characters
    and hyphens, [.git] and any number of slashes, it returns that name,
    whatever comes before. *)
Theorem getRepoNameFromUri_recovers_name (prefix name slashes : string) :
  name <> "" ->
  all_chars is_name_char name = true ->
  all_chars (Ascii.eqb "/") slashes = true ->
  getRepoNameFromUri (prefix ++ "/" ++ name ++ ".git" ++ slashes) = Normal name.
Proof.
  intros Hne Hname Hsl. apply getRepoNameFromUri_of_tail.
  by exists prefix, slashes.
Qed.

(** X4: [getRepoNameFromUri] reads the tail of the URI only.  When it
    returns a name for a URI, it returns the same name for that URI with
    anything put in front of it, and for that URI with one more slash at
    the end. *)
Theorem getRepoNameFromUri_tail_only (gitRemoteUri repoName : string) :
  getRepoNameFromUri gitRemoteUri = Normal repoName ->
  (forall prefix, getRepoNameFromUri (prefix ++ gitRemoteUri) = Normal repoName)
  /\ getRepoNameFromUri (gitRemoteUri ++ "/") = Normal repoName.
Proof.
  intros H. apply getRepoNameFromUri_tail in H
    as (pre & slashes & -> & Hne & Hname & Hsl).
  split.
  - intros prefix. apply getRepoNameFromUri_of_tail.
    exists (prefix ++ pre), slashes. by rewrite string_app_assoc.
  - apply getRepoNameFromUri_of_tail.
    exists pre, (slashes ++ "/"). rewrite !string_app_assoc.
    repeat split; try done.
    unfold all_chars in *. rewrite list_ascii_of_string_app, forallb_app, Hsl.
    reflexivity.
Qed.

(** A string without a slash has no repository name to read. *)
Lemma getRepoNameFromUri_no_slash uri :
  all_chars (fun c => negb (Ascii.eqb "/" c)) uri = true ->
  getRepoNameFromUri uri = Throw (TypeError "Cannot read property '0' of null").
Proof.
  intros Hno.
  destruct (getRepoNameFromUri_cases uri)
    as [(pre & n & sl & Hcs & _)|[_ ->]]; [|reflexivity].
  unfold all_chars in Hno. rewrite Hcs, forallb_app in Hno.
  apply andb_true_iff in Hno as [_ Hno]. unfold repo_tail in Hno.
  cbn [forallb] in Hno. by rewrite Ascii.eqb_refl in Hno.
Qed.

(** X5: a URI can be valid and still have no readable name.
    [isGitUriValid] accepts [git@<host>:<name>.git], but with no slash
    before the name [getRepoNameFromUri] finds no match and throws the
    [TypeError] of reading [0] of [null]. *)
Theorem scp_style_uri_valid_without_name (host name : string) :
  host <> "" -> all_chars is_host_char host = true ->
  name <> "" -> all_chars is_name_char name = true ->
  isGitUriValid ("git@" ++ host ++ ":" ++ name ++ ".git") None = true
  /\ getRepoNameFromUri ("git@" ++ host ++ ":" ++ name ++ ".git")
     = Throw (TypeError "Cannot read property '0' of null").
Proof.
  intros Hhne Hhost Hnne Hname.
  assert (Hsub : forall c, is_name_char c = true -> is_path_char c = true).
  { intros c. unfold is_name_char, is_path_char, in_class. simpl.
    intros H. apply orb_true_iff in H as [-> | ->]; [reflexivity|].
    by rewrite !orb_true_r. }
  assert (Hns : forall c, is_name_char c = true -> negb (Ascii.eqb "/" c) = true).
  { intros c Hc. destruct (Ascii.eqb_spec "/" c) as [<-|]; [discriminate | reflexivity]. }
  assert (Hhs : forall c, is_host_char c = true -> negb (Ascii.eqb "/" c) = true).
  { intros c Hc. destruct (Ascii.eqb_spec "/" c) as [<-|]; [discriminate | reflexivity]. }
  split.
  - unfold isGitUriValid. rewrite shape_gitUriRegEx; [reflexivity|].
    exists "", ("git@" ++ host), "", name, "".
    split; [by rewrite string_app_assoc|].
    split; [right; by exists host|].
    split; [by left|]. split; [exact Hnne|]. split; [|by left].
    unfold all_chars in *. rewrite forallb_forall in Hname |- *. auto.
  - apply getRepoNameFromUri_no_slash. unfold all_chars in *.
    rewrite !list_ascii_of_string_app, !forallb_app.
    rewrite forallb_forall in Hname, Hhost.
    repeat (apply andb_true_iff; split); try reflexivity;
      apply forallb_forall; auto.
Qed.

End GitUriFacts.

Lemma isGitUriValid_extension_witness :
  Git.isGitUriValid "git@github.com:acme/my-git-repo.git/" None = true
  /\ exists stem,
       "git@github.com:acme/my-git-repo.git/" = stem ++ ".git"
       \/ "git@github.com:acme/my-git-repo.git/" = stem ++ ".git/".
Proof.
  split; [vm_compute; reflexivity|].
  apply (isGitUriValid_extension "git@github.com:acme/my-git-repo.git/" None).
  vm_compute; reflexivity.
Defined.

Lemma getRepoNameFromUri_recovers_name_witness :
  Git.getRepoNameFromUri ("https://github.com/acme" ++ "/" ++ "my-git-repo" ++ ".git" ++ "//")
  = Normal "my-git-repo".
Proof.
  apply (getRepoNameFromUri_recovers_name "https://github.com/acme" "my-git-repo" "//").
  - discriminate.
  - vm_compute; reflexivity.
  - vm_compute; reflexivity.
Defined.

Lemma getRepoNameFromUri_tail_only_witness :
  Git.getRepoNameFromUri "/my-git-repo.git" = Normal "my-git-repo"
  /\ Git.getRepoNameFromUri ("not a uri at all" ++ "/my-git-repo.git") = Normal "my-git-repo"
  /\ Git.getRepoNameFromUri ("/my-git-repo.git" ++ "/") = Normal "my-git-repo".
Proof.
  assert (H : Git.getRepoNameFromUri "/my-git-repo.git" = Normal "my-git-repo")
    by (vm_compute; reflexivity).
  split; [exact H|]. split.
  - exact (proj1 (getRepoNameFromUri_tail_only "/my-git-repo.git" "my-git-repo" H)
             "not a uri at all").
  - exact (proj2 (getRepoNameFromUri_tail_only "/my-git-repo.git" "my-git-repo" H)).
Defined.

Lemma scp_style_uri_valid_without_name_witness :
  Git.isGitUriValid ("git@" ++ "github.com" ++ ":" ++ "my-git-repo" ++ ".git") None = true
  /\ Git.getRepoNameFromUri ("git@" ++ "github.com" ++ ":" ++ "my-git-repo" ++ ".git")
     = Throw (Git.TypeError "Cannot read property '0' of null").
Proof.
  apply (scp_style_uri_valid_without_name "github.com" "my-git-repo").
  - discriminate.
  - vm_compute; reflexivity.
  - discriminate.
  - vm_compute; reflexivity.
Defined.

(* ===================================================================== *)
(** * Facts about the functions that drive Git through the shell         *)
(* ===================================================================== *)

Section GitShellFacts.
Import Git GitShell.

Variable fails : list Effect -> Effect -> bool.
Variable found : list Effect -> string -> JsValue.
Variable exec_result : list Effect -> string -> Z * string * string.
Variable resolve_path : string -> string.
Variable path_join : string -> string -> string.

(** X6: called with strings, [gitClone] lets no error of the shell escape.
    It returns, or throws one of its own errors, and the name of the error
    tells which call was the last one: none for InvalidParameter, [mkdir]
    for InvalidTargetDirectory, [cd] for NoTargetDirectory and [git clone]
    for InvalidDestination.  It returns only when [git clone] ran last and
    succeeded, and it runs [mkdir -p] only after [cd] or [pwd] failed. *)
Theorem gitClone_outcome (uri dir : string) (repoDirectory : JsValue)
    (trace : list Effect) :
  repoDirectory = JUndefined \/ (exists repo, repoDirectory = JStr repo) ->
  let target := resolve_path dir in
  let clone :=
    Exec ("git clone " ++ uri ++ " "
            ++ match repoDirectory with JStr repo => repo | _ => "" end) in
  exists new,
    snd (gitClone fails resolve_path path_join (JStr uri) (JStr dir) repoDirectory trace)
    = (trace ++ new)%list
    /\ (In (Mkdir "-p" target) new ->
        fails trace (Cd target) = true \/ fails (trace ++ [Cd target])%list Pwd = true)
    /\ match fst (gitClone fails resolve_path path_join (JStr uri) (JStr dir)
                    repoDirectory trace) with
       | Normal _ =>
           last new = Some clone /\ fails (trace ++ removelast new)%list clone = false
       | Throw (Falcon (FalconError _ name source)) =>
           source = "UTILITY:git:gitClone"
           /\ ((name = "InvalidParameter" /\ new = [])
               \/ (name = "InvalidTargetDirectory" /\ last new = Some (Mkdir "-p" target))
               \/ (name = "NoTargetDirectory" /\ last new = Some (Cd target))
               \/ (name = "InvalidDestination" /\ last new = Some clone))
       | Throw _ => False
       end.
Proof.
  intros Hrepo target clone.
  assert (exists repo, match repoDirectory with JUndefined => JStr "" | v => v end = JStr repo
                       /\ clone = Exec ("git clone " ++ uri ++ " " ++ repo)) as (repo & Hr & Hc).
  { destruct Hrepo as [-> | [repo ->]]; eexists; split; reflexivity. }
  unfold gitClone. rewrite Hr. clear Hrepo Hr.
  fold target. cbn [to_string]. rewrite <- Hc. clearbody clone.
  destruct (is_blank dir).
  { exists []. cbn [fst snd falcon throw]. split; [by rewrite app_nil_r|].
    split; [intros []|]. split; [done|]. auto. }
  unfold bind, try_catch, shell, falcon, throw.
  destruct (fails trace (Cd target)) eqn:Hcd.
  - destruct (fails (trace ++ [Cd target]) (Mkdir "-p" target)) eqn:Hmk.
    + exists [Cd target; Mkdir "-p" target]. cbn [fst snd].
      rewrite <- !app_assoc. cbn. split; [done|]. split; [auto|]. split; [done|]. auto.
    + destruct (fails ((trace ++ [Cd target]) ++ [Mkdir "-p" target]) (Cd target)) eqn:Hcd2.
      * exists [Cd target; Mkdir "-p" target; Cd target]. cbn [fst snd].
        rewrite <- !app_assoc. cbn. split; [done|]. split; [auto|]. split; [done|]. auto.
      * destruct (fails (((trace ++ [Cd target]) ++ [Mkdir "-p" target]) ++ [Cd target]) clone)
          eqn:Hcl.
        -- exists [Cd target; Mkdir "-p" target; Cd target; clone]. cbn [fst snd].
           rewrite <- !app_assoc. cbn. split; [done|]. split; [auto|]. split; [done|].
           auto 6.
        -- exists [Cd target; Mkdir "-p" target; Cd target; clone]. cbn [fst snd].
           rewrite <- !app_assoc in *. cbn in *. split; [done|]. split; [auto|].
           split; [done|]. done.
  - destruct (fails (trace ++ [Cd target]) Pwd) eqn:Hpwd.
    + destruct (fails ((trace ++ [Cd target]) ++ [Pwd]) (Mkdir "-p" target)) eqn:Hmk.
      * exists [Cd target; Pwd; Mkdir "-p" target]. cbn [fst snd].
        rewrite <- !app_assoc. cbn. split; [done|]. split; [auto|]. split; [done|]. auto.
      * destruct (fails (((trace ++ [Cd target]) ++ [Pwd]) ++ [Mkdir "-p" target]) (Cd target))
          eqn:Hcd2.
        -- exists [Cd target; Pwd; Mkdir "-p" target; Cd target]. cbn [fst snd].
           rewrite <- !app_assoc. cbn. split; [done|]. split; [auto|]. split; [done|]. auto.
        -- destruct (fails ((((trace ++ [Cd target]) ++ [Pwd]) ++ [Mkdir "-p" target])
                              ++ [Cd target]) clone) eqn:Hcl.
           ++ exists [Cd target; Pwd; Mkdir "-p" target; Cd target; clone]. cbn [fst snd].
              rewrite <- !app_assoc. cbn. split; [done|]. split; [auto|]. split; [done|].
              auto 6.
           ++ exists [Cd target; Pwd; Mkdir "-p" target; Cd target; clone]. cbn [fst snd].
              rewrite <- !app_assoc in *. cbn in *. split; [done|]. split; [auto|].
              split; [done|]. done.
    + destruct (fails ((trace ++ [Cd target]) ++ [Pwd]) clone) eqn:Hcl.
      * exists [Cd target; Pwd; clone]. cbn [fst snd].
        rewrite <- !app_assoc. cbn. split; [done|]. split.
        { intros [H|[H|[H|[]]]]; try discriminate.
          subst clone. discriminate. }
        split; [done|]. auto 6.
      * exists [Cd target; Pwd; clone]. cbn [fst snd].
        rewrite <- !app_assoc in *. cbn in *. split; [done|]. split.
        { intros [H|[H|[H|[]]]]; try discriminate.
          subst clone. discriminate. }
        split; [done|]. done.
Qed.

Lemma shell_extends (call : Effect) (trace : list Effect) :
  snd (shell fails call trace) = (trace ++ [call])%list.
Proof. reflexivity. Qed.

Lemma shell_then (call : Effect) (k : Sh unit) (trace : list Effect) :
  (forall t, exists new, snd (k t) = (t ++ new)%list) ->
  exists rest, snd ((shell fails call ;; k) trace) = (trace ++ call :: rest)%list.
Proof.
  intros Hk. unfold bind, shell. destruct (fails trace call).
  - by exists [].
  - destruct (Hk (trace ++ [call])%list) as [new Hnew].
    exists new. destruct (k (trace ++ [call])%list) as [r after].
    cbn [snd] in *. by rewrite Hnew, <- app_assoc.
Qed.

Lemma shell_then_extends (call : Effect) (k : Sh unit) (trace : list Effect) :
  (forall t, exists new, snd (k t) = (t ++ new)%list) ->
  exists new, snd ((shell fails call ;; k) trace) = (trace ++ new)%list.
Proof. intros Hk. destruct (shell_then call k trace Hk) as [rest H]. eauto. Qed.

(** X7: [gitInit], [gitAddAndCommit] and [gitRemoteAddOrigin] check their
    arguments before they touch the shell.  When an argument is not a
    string or is the empty string, the function throws its own TypeError
    and runs no command; otherwise its first act is to [cd] into the
    target directory. *)
Theorem invalid_arguments_run_nothing (targetDirectory other : JsValue)
    (trace : list Effect) :
  (if not_a_filled_string targetDirectory
   then exists message,
       gitInit fails targetDirectory trace
       = (Throw (Falcon (FalconError message "TypeError" "UTILITY:git:gitInit")), trace)
   else exists rest,
       snd (gitInit fails targetDirectory trace)
       = (trace ++ Cd (as_string targetDirectory) :: rest)%list)
  /\ (if not_a_filled_string targetDirectory || not_a_filled_string other
      then exists message,
          gitAddAndCommit fails targetDirectory other trace
          = (Throw (Falcon (FalconError message "TypeError"
                              "UTILITY:git:gitAddAndCommit")), trace)
      else exists rest,
          snd (gitAddAndCommit fails targetDirectory other trace)
          = (trace ++ Cd (as_string targetDirectory) :: rest)%list)
  /\ (if not_a_filled_string targetDirectory || not_a_filled_string other
      then exists message,
          gitRemoteAddOrigin fails targetDirectory other trace
          = (Throw (Falcon (FalconError message "TypeError"
                              "UTILITY:git:gitRemoteAddOrigin")), trace)
      else exists rest,
          snd (gitRemoteAddOrigin fails targetDirectory other trace)
          = (trace ++ Cd (as_string targetDirectory) :: rest)%list).
Proof.
  unfold gitInit, gitAddAndCommit, gitRemoteAddOrigin.
  destruct (not_a_filled_string targetDirectory) eqn:Hdir; cbn [orb].
  { split; [by eexists|]. split; by eexists. }
  split.
  { apply shell_then. intros t. eexists. apply shell_extends. }
  destruct (not_a_filled_string other) eqn:Hother.
  { split; by eexists. }
  split.
  - apply shell_then. intros t. apply shell_then_extends.
    intros t'. eexists. apply shell_extends.
  - apply shell_then. intros t. eexists. apply shell_extends.
Qed.

(** X8: with two non-empty strings, [gitAddAndCommit] runs [cd], [git add -A]
    and [git commit -m] with the message between double quotes, in that
    order, and stops at the first call that fails.  It returns exactly when
    all three ran; otherwise what it throws is the error of the shell for
    the last call it made, not an error of its own. *)
Theorem gitAddAndCommit_stops_at_first_failure (targetDirectory commitMessage : string)
    (trace : list Effect) :
  targetDirectory <> "" -> commitMessage <> "" ->
  let plan :=
    [Cd targetDirectory; Exec "git add -A";
     Exec ("git commit -m " ++ Json.quoted commitMessage)] in
  exists ran rest call,
    plan = (ran ++ call :: rest)%list
    /\ snd (gitAddAndCommit fails (JStr targetDirectory) (JStr commitMessage) trace)
       = (trace ++ ran ++ [call])%list
    /\ (forall earlier before after,
          ran = (before ++ earlier :: after)%list ->
          fails (trace ++ before)%list earlier = false)
    /\ if fails (trace ++ ran)%list call
       then fst (gitAddAndCommit fails (JStr targetDirectory) (JStr commitMessage) trace)
            = Throw (Shell call)
       else rest = []
            /\ fst (gitAddAndCommit fails (JStr targetDirectory) (JStr commitMessage)
                      trace) = Normal tt.
Proof.
  intros Hdir Hmsg plan.
  unfold gitAddAndCommit. cbn [not_a_filled_string as_string].
  apply String.eqb_neq in Hdir as Hdir'. apply String.eqb_neq in Hmsg as Hmsg'.
  rewrite Hdir', Hmsg'. clear Hdir' Hmsg'.
  unfold bind, shell.
  set (c1 := Cd targetDirectory). set (c2 := Exec "git add -A").
  set (c3 := Exec ("git commit -m " ++ Json.quoted commitMessage)).
  destruct (fails trace c1) eqn:H1.
  { exists [], [c2; c3], c1. rewrite app_nil_r, H1. cbn [fst snd app].
    split; [done|]. split; [done|]. split; [|done].
    intros earlier [|? ?] after Heq; discriminate Heq. }
  destruct (fails (trace ++ [c1]) c2) eqn:H2.
  { exists [c1], [c3], c2. rewrite H2. cbn [fst snd app].
    split; [done|]. split; [by rewrite <- app_assoc|]. split; [|done].
    intros earlier before after Heq.
    destruct before as [|b1 [|b2 before]]; cbn [app] in Heq.
    - injection Heq as <- _. by rewrite app_nil_r.
    - discriminate Heq.
    - discriminate Heq. }
  exists [c1; c2], [], c3.
  replace (trace ++ [c1; c2])%list with ((trace ++ [c1]) ++ [c2])%list
    by (by rewrite <- app_assoc).
  split; [done|]. split.
  { cbn [snd]. by rewrite <- !app_assoc. }
  split.
  { intros earlier before after Heq.
    destruct before as [|b1 [|b2 [|b3 before]]]; cbn [app] in Heq.
    - injection Heq as <- _. by rewrite app_nil_r.
    - injection Heq as <- <- _. done.
    - discriminate Heq.
    - discriminate Heq. }
  cbn [fst]. destruct (fails ((trace ++ [c1]) ++ [c2]) c3); [done|].
  split; [done|]. by destruct (tt).
Qed.

(** X9: the three probes never throw when given a string, and each makes
    exactly one call.  [isGitInstalled] answers whether [which git] found
    something; [isGitRemoteEmpty] answers true exactly when
    [git ls-remote --exit-code -h] on the URI succeeds, and
    [isGitRemoteReadable] exactly when [git ls-remote -h] does. *)
Theorem probes_never_throw (gitRemoteUri : string) (trace : list Effect) :
  isGitInstalled fails found trace
  = (Normal (negb (fails trace (Which "git")) && to_boolean (found trace "git")),
     (trace ++ [Which "git"])%list)
  /\ isGitRemoteEmpty fails (JStr gitRemoteUri) trace
     = (Normal (negb (fails trace (Exec ("git ls-remote --exit-code -h " ++ gitRemoteUri)))),
        (trace ++ [Exec ("git ls-remote --exit-code -h " ++ gitRemoteUri)])%list)
  /\ isGitRemoteReadable fails (JStr gitRemoteUri) trace
     = (Normal (negb (fails trace (Exec ("git ls-remote -h " ++ gitRemoteUri)))),
        (trace ++ [Exec ("git ls-remote -h " ++ gitRemoteUri)])%list).
Proof.
  unfold isGitInstalled, isGitRemoteEmpty, isGitRemoteReadable,
    try_catch, bind, which, shell, ret.
  split; [|split].
  - by destruct (fails trace (Which "git")).
  - by destruct (fails trace _).
  - by destruct (fails trace _).
Qed.

(** X10: given a string and a wait that is a number, the promise of
    [isGitRemoteEmptyAsync] is fulfilled exactly when the exit code of
    [git ls-remote --exit-code -h] is 0, and is otherwise rejected with the
    object of the callback, never with a thrown error.  Either way the
    object carries the exit code, the standard output and the standard
    error of the command unchanged, and its [resolve] flag says which way
    the promise went.  The function pauses first exactly when the wait is
    positive. *)
Theorem isGitRemoteEmptyAsync_settles (gitRemoteUri : string) (seconds : JsNumber)
    (trace : list Effect) :
  let command := "git ls-remote --exit-code -h " ++ gitRemoteUri in
  let waited :=
    if (0 <? mantissa seconds)%Z then (trace ++ [Wait seconds])%list else trace in
  exists r,
    (code r, stdout r, stderr r) = exec_result waited command
    /\ resolve r = (code r =? 0)%Z
    /\ isGitRemoteEmptyAsync exec_result (JStr gitRemoteUri) (Some (Finite seconds)) trace
       = (if (code r =? 0)%Z then Resolved r else Rejected (RejectedResult r),
          (waited ++ [ExecAsync command])%list).
Proof.
  intros command waited. subst command waited.
  unfold isGitRemoteEmptyAsync, default, from_option, id. cbn beta iota.
  destruct (exec_result _ _) as [[c out] err].
  destruct (c =? 0)%Z eqn:H0.
  { eexists (MkShellExecResult c out err _ true). cbn [code stdout stderr resolve].
    rewrite H0. split; [reflexivity|]. split; reflexivity. }
  destruct (c =? 2)%Z eqn:H2.
  { eexists (MkShellExecResult c out err _ false). cbn [code stdout stderr resolve].
    rewrite H0. split; [reflexivity|]. split; reflexivity. }
  destruct (c =? 128)%Z eqn:H128.
  { eexists (MkShellExecResult c out err _ false). cbn [code stdout stderr resolve].
    rewrite H0. split; [reflexivity|]. split; reflexivity. }
  eexists (MkShellExecResult c out err _ false). cbn [code stdout stderr resolve].
  rewrite H0. split; [reflexivity|]. split; reflexivity.
Qed.

(** X11: a wait that is not a number, or a URI that is not a string, makes
    [isGitRemoteEmptyAsync] reject with its own TypeError before it pauses
    or runs any command. *)
Theorem isGitRemoteEmptyAsync_invalid (gitRemoteUri : JsValue)
    (waitSeconds : option Number) (trace : list Effect) :
  typeof gitRemoteUri <> "string" \/ waitSeconds = Some NotANumber ->
  exists message,
    isGitRemoteEmptyAsync exec_result gitRemoteUri waitSeconds trace
    = (Rejected (RejectedThrown (Falcon (FalconError message "TypeError"
                                            "UTILITY:git:isGitRemoteEmptyAsync"))),
       trace).
Proof.
  intros [Huri | ->]; unfold isGitRemoteEmptyAsync.
  - destruct gitRemoteUri; try (by destruct Huri); by eexists.
  - unfold default, from_option, id. destruct gitRemoteUri; by eexists.
Qed.

End GitShellFacts.

Section GitShellExamples.
Import Git GitShell.

(** A shell in which nothing but [git clone] fails: the destination
    exists already. *)
Lemma gitClone_outcome_witness :
  let fails := fun (_ : list Effect) (call : Effect) =>
                 match call with Exec _ => true | _ => false end in
  let resolve_path := fun dir => "/work/" ++ dir in
  let path_join := fun a b => a ++ "/" ++ b in
  exists new,
    snd (gitClone fails resolve_path path_join
           (JStr "https://github.com/acme/my-git-repo.git") (JStr "demo") JUndefined [])
    = new
    /\ last new = Some (Exec "git clone https://github.com/acme/my-git-repo.git ")
    /\ exists message,
         fst (gitClone fails resolve_path path_join
                (JStr "https://github.com/acme/my-git-repo.git") (JStr "demo") JUndefined [])
         = Throw (Falcon (FalconError message "InvalidDestination" "UTILITY:git:gitClone")).
Proof.
  intros fails resolve_path path_join.
  destruct (gitClone_outcome fails resolve_path path_join
              "https://github.com/acme/my-git-repo.git" "demo" JUndefined []
              (or_introl eq_refl)) as (new & Hsnd & _ & _).
  exists new. split; [exact Hsnd|].
  vm_compute in Hsnd. rewrite <- Hsnd.
  split; [reflexivity|]. eexists. vm_compute. reflexivity.
Defined.

(** The commit fails (nothing to commit): [cd] and [git add] ran, and the
    error of the shell for [git commit] escapes. *)
Lemma gitAddAndCommit_stops_at_first_failure_witness :
  let fails := fun (_ : list Effect) (call : Effect) =>
                 match call with
                 | Exec (String "g" (String "i" (String "t" (String " " (String "c" _))))) =>
                     true
                 | _ => false
                 end in
  exists ran rest call,
    [Cd "demo"; Exec "git add -A"; Exec ("git commit -m " ++ Json.quoted "Initial commit")]
    = (ran ++ call :: rest)%list
    /\ snd (gitAddAndCommit fails (JStr "demo") (JStr "Initial commit") [])
       = ([] ++ ran ++ [call])%list
    /\ (forall earlier before after,
          ran = (before ++ earlier :: after)%list ->
          fails ([] ++ before)%list earlier = false)
    /\ if fails ([] ++ ran)%list call
       then fst (gitAddAndCommit fails (JStr "demo") (JStr "Initial commit") [])
            = Throw (Shell call)
       else rest = []
            /\ fst (gitAddAndCommit fails (JStr "demo") (JStr "Initial commit") [])
               = Normal tt.
Proof.
  intros fails.
  apply (gitAddAndCommit_stops_at_first_failure fails "demo" "Initial commit" []);
    discriminate.
Defined.

Lemma isGitRemoteEmptyAsync_invalid_witness :
  exists message,
    isGitRemoteEmptyAsync (fun _ _ => (0%Z, "", ""))
      (JStr "https://github.com/acme/my-git-repo.git") (Some NotANumber) []
    = (Rejected (RejectedThrown (Falcon (FalconError message "TypeError"
                                            "UTILITY:git:isGitRemoteEmptyAsync"))),
       []).
Proof.
  apply (isGitRemoteEmptyAsync_invalid (fun _ _ => (0%Z, "", ""))
           (JStr "https://github.com/acme/my-git-repo.git") (Some NotANumber) []).
  right. reflexivity.
Defined.

End GitShellExamples.

(* ===================================================================== *)
(** * Facts about the methods of an error object                          *)
(* ===================================================================== *)

Section FalconMethodsFacts.
Import FalconTypes FalconMethods.

Lemma append_empty (a : string) : a ++ "" = a.
Proof.
  induction a as [|x a IH]; [reflexivity|].
  change (String x (a ++ "") = String x a). by rewrite IH.
Qed.

(** X12: the Falcon stack is a log that only grows.  Calling [addToStack]
    with one item after the other leaves the stack as it was, followed by
    one line per item in the order of the calls, each made of a line feed,
    four spaces and the item; no other member of the error changes. *)
Theorem addToStack_appends (stackItems : list string) (e : SfdxFalconError2) :
  let e' := fold_left (fun e stackItem => addToStack stackItem e) stackItems e in
  _falconStack e'
  = _falconStack e
      ++ String.concat ""
           (map (fun stackItem => String (ascii_of_nat 10) ("    " ++ stackItem)) stackItems)
  /\ name e' = name e /\ message e' = message e /\ actions e' = actions e
  /\ exitCode e' = exitCode e /\ data e' = data e /\ _falconData e' = _falconData e.
Proof.
  revert e. induction stackItems as [|item rest IH]; intros e.
  - cbn. by rewrite append_empty.
  - cbn [fold_left]. destruct (IH (addToStack item e)) as (Hs & Hrest).
    split; [|exact Hrest].
    cbv zeta in Hs. rewrite Hs. cbn [_falconStack addToStack map].
    rewrite string_app_assoc. f_equal.
    destruct rest as [|item' rest]; [by rewrite append_empty|].
    cbn [String.concat map]. reflexivity.
Qed.

Lemma falcon_part_instanceof o :
  instanceof_SfdxFalconError2 o = true -> exists e, falcon_part o = Some e.
Proof. destruct o; [discriminate|by eexists..]. Qed.

Lemma with_falcon_part_instanceof e o :
  instanceof_SfdxFalconError2 o = true ->
  instanceof_SfdxFalconError2 (with_falcon_part e o) = true
  /\ falcon_part (with_falcon_part e o) = Some e.
Proof. by destruct o. Qed.

(** X13: an error that bubbles stays one object.  When [bubble] is called
    on an [SfdxFalconError2] (or an instance of a subclass), what is thrown
    is that very object, with one line more on its stack; [wrap] gives the
    thrown value back as it is and allocates nothing, and every other
    object is left alone. *)
Theorem bubble_then_wrap (h : gmap positive ErrorObject) (l : positive)
    (o : ErrorObject) (stackItem : string) :
  h !! l = Some o ->
  instanceof_SfdxFalconError2 o = true ->
  exists h' stack,
    bubble h l (Some stackItem) = Some (h', Ref l)
    /\ wrap h' (Ref l) = Some (Normal (h', l))
    /\ falconStack h l = Some stack
    /\ falconStack h' l = Some (stack ++ String (ascii_of_nat 10) ("    " ++ stackItem))
    /\ dom h' = dom h
    /\ forall l', l' <> l -> h' !! l' = h !! l'.
Proof.
  intros Hl Hinst.
  destruct (falcon_part_instanceof o Hinst) as [e He].
  destruct (with_falcon_part_instanceof (addToStack stackItem e) o Hinst) as [Hinst' He'].
  exists (<[l := with_falcon_part (addToStack stackItem e) o]> h), (_falconStack e).
  unfold bubble, addToStack_at, wrap, falconStack.
  rewrite Hl, He, lookup_insert_eq, Hinst', He'. cbn [default option_map].
  split; [done|]. split; [done|]. split; [done|]. split; [done|].
  split.
  - by apply dom_insert_lookup_L.
  - intros l' Hne. by rewrite lookup_insert_ne.
Qed.

Lemma js_or_truthy a b : to_boolean b = true -> to_boolean (js_or a b) = true.
Proof. intros Hb. unfold js_or. by destruct (to_boolean a) eqn:E. Qed.

(** X14: when the [SfdxCliError] constructor returns, the members [name],
    [message], [stack], [result] and [warnings] of [cliError] are truthy:
    none is missing, [null], or an empty string.  It returns for every
    buffer that does not parse, and it fails to return only for a buffer
    that parses to a value whose [name] or [message] has no string
    rendering. *)
Theorem cliError_members_truthy (stdErrBuffer : string) (message : option string) :
  match new_SfdxCliError stdErrBuffer message with
  | Normal error =>
      Forall (fun k => to_boolean (get_own (cliError error) k) = true)
        ["name"; "message"; "stack"; "result"; "warnings"]
  | Throw thrown =>
      exists parsedError,
        Json.JSON_parse stdErrBuffer = Some parsedError
        /\ (to_string (decoded_prop parsedError "name") = Throw thrown
            \/ to_string (decoded_prop parsedError "message") = Throw thrown)
  end
  /\ (Json.JSON_parse stdErrBuffer = None ->
      exists error, new_SfdxCliError stdErrBuffer message = Normal error).
Proof.
  rewrite (new_SfdxCliError_outcome stdErrBuffer message).
  set (expected := match Json.JSON_parse stdErrBuffer with
                   | None | Some JNull | Some JUndefined => unparseable stdErrBuffer
                   | Some parsedError => copied parsedError
                   end).
  assert (Htruthy :
            Forall (fun k => to_boolean (get_own expected k) = true)
              ["name"; "message"; "stack"; "result"; "warnings"]).
  { assert (Hu : forall buffer,
               Forall (fun k => to_boolean (get_own (unparseable buffer) k) = true)
                 ["name"; "message"; "stack"; "result"; "warnings"]).
    { intros buffer. unfold unparseable, obj, list_to_map, get_own.
      cbn [fold_right fst snd].
      repeat (constructor;
              [rewrite ?lookup_insert_ne by done; by rewrite lookup_insert_eq|]).
      constructor. }
    assert (Hc : forall v,
               Forall (fun k => to_boolean (get_own (copied v) k) = true)
                 ["name"; "message"; "stack"; "result"; "warnings"]).
    { intros v. unfold copied, obj, list_to_map, get_own. cbn [fold_right fst snd].
      repeat (constructor;
              [rewrite ?lookup_insert_ne by done; rewrite lookup_insert_eq;
               change (default JUndefined (Some ?x)) with x; by apply js_or_truthy|]).
      constructor. }
    subst expected. destruct (Json.JSON_parse stdErrBuffer) as [[]|]; auto. }
  assert (Hthrows : forall k d thrown,
            get_own (unparseable stdErrBuffer) k = JStr d ->
            (forall v, get_own (copied v) k
                       = js_or (decoded_prop v k) (JStr "Unknown CLI Error")) ->
            to_string (get_own expected k) = Throw thrown ->
            exists parsedError,
              Json.JSON_parse stdErrBuffer = Some parsedError
              /\ to_string (decoded_prop parsedError k) = Throw thrown).
  { intros k d thrown Hu Hc. subst expected.
    destruct (Json.JSON_parse stdErrBuffer) as [v|]; [|by rewrite Hu].
    intros H. exists v. split; [reflexivity|].
    assert (Hv : to_string (get_own (copied v) k) = Throw thrown
                 \/ to_string (get_own (unparseable stdErrBuffer) k) = Throw thrown)
      by (destruct v; auto).
    destruct Hv as [Hv|Hv]; [|by rewrite Hu in Hv].
    rewrite Hc in Hv. by apply js_or_throws in Hv. }
  split.
  - destruct (to_string (get_own expected "name")) as [cliName|e1] eqn:H1.
    + destruct (to_string (get_own expected "message")) as [cliMessage|e2] eqn:H2.
      * exact Htruthy.
      * destruct (Hthrows "message" _ e2 eq_refl (fun v => eq_refl) H2)
          as (v & Hparse & Hv).
        exists v. by split; [|right].
    + destruct (Hthrows "name" _ e1 eq_refl (fun v => eq_refl) H1) as (v & Hparse & Hv).
      exists v. by split; [|left].
  - intros Hparse. subst expected. rewrite Hparse. by eexists.
Qed.

End FalconMethodsFacts.

(* ===================================================================== *)
(** * More facts about the actions                                        *)
(* ===================================================================== *)

Section ActionFacts.
Import Result Appx.

(** X15: the option check of deploy-metadata does not protect its
    [executeAction].  An [mdapiSource] that is there but is not a string
    (a number, [null], an object) passes [validateActionOptions]; the
    action then hands no command to the Executor and its promise rejects
    with the [TypeError] of [path.join] instead of a Result Node. *)
Theorem deploy_metadata_validation_gap
    (recognized : Outcome -> bool) (path_join : string -> string -> string)
    (executeSfdxCommand : gmap string JsValue -> Settled Outcome Outcome)
    (actionContext : AppxEngineActionContext) (actionOptions : gmap string JsValue)
    (mdapiSource : JsValue) :
  actionOptions !! "mdapiSource" = Some mdapiSource ->
  typeof mdapiSource <> "undefined" ->
  typeof mdapiSource <> "string" ->
  let run := DeployMetadata.executeAction recognized path_join executeSfdxCommand
               actionContext actionOptions in
  DeployMetadataOptions.validateActionOptions actionOptions = Normal tt
  /\ DeployMetadata.commands run = []
  /\ exists e, DeployMetadata.settled run = Rejected (IsError e)
               /\ rt_name e = "TypeError".
Proof.
  intros Hsrc Hundef Hstr run. subst run.
  unfold DeployMetadataOptions.validateActionOptions, DeployMetadata.executeAction,
    DeployMetadata.path_join_any, get_own.
  rewrite Hsrc. change (default JUndefined (Some mdapiSource)) with mdapiSource.
  split.
  { destruct mdapiSource; try reflexivity. by destruct Hundef. }
  destruct (to_string mdapiSource) as [rendered|e] eqn:Hrendered.
  - destruct mdapiSource; try (by destruct Hstr);
      (split; [reflexivity|]; eexists; split; reflexivity).
  - split; [reflexivity|]. exists e. split; [reflexivity|].
    by rewrite (to_string_throws _ _ Hrendered).
Qed.

(** X16: the option [scratchOrgAlias] of delete-scratch-org reaches the
    messages only.  Whenever the alias can be rendered, the action composes
    a command, and its command name, arguments and flags are fixed by the
    instance and the context alone: the org to delete is the target org of
    the context, the Dev Hub is the one of the context, and no prompt and
    JSON output are requested; the rendered alias appears in the three
    messages.  When the alias cannot be rendered, the instance is left as
    it was, nothing is composed, and the action rejects with what the
    conversion threw. *)
Theorem delete_scratch_org_targets_context
    (executeSfdxCommand : gmap string JsValue -> Settled JsValue JsValue)
    (this : DeleteScratchOrg.DeleteScratchOrgAction)
    (actionContext : AppxEngineActionContext)
    (actionOptions : gmap string JsValue) :
  let after :=
    DeleteScratchOrg.executeAction executeSfdxCommand this actionContext actionOptions in
  match to_string (get_own actionOptions "scratchOrgAlias") with
  | Throw thrown => after = (this, Rejected thrown)
  | Normal scratchOrgAlias =>
      exists def,
        DeleteScratchOrg.sfdxCommandDef (fst after) = Some def
        /\ get_own def "command" = JStr (DeleteScratchOrg.command this)
        /\ get_own def "commandArgs" = JArr []
        /\ get_own def "commandFlags"
           = JObj (obj [("FLAG_TARGETUSERNAME", JStr (alias (targetOrg actionContext)));
                        ("FLAG_TARGETDEVHUBUSERNAME", JStr (devHubAlias actionContext));
                        ("FLAG_NOPROMPT", JBool true);
                        ("FLAG_JSON", JBool true);
                        ("FLAG_LOGLEVEL", JStr (logLevel actionContext))])
        /\ get_own def "progressMsg"
           = JStr ("Marking scratch org '" ++ scratchOrgAlias ++ "' for deletion")
        /\ get_own def "errorMsg"
           = JStr ("Request to mark scratch org '" ++ scratchOrgAlias
                     ++ "' for deletion failed")
        /\ get_own def "successMsg"
           = JStr ("Scratch org '" ++ scratchOrgAlias ++ "' successfully marked for deletion")
  end.
Proof.
  unfold DeleteScratchOrg.executeAction.
  destruct (to_string (get_own actionOptions "scratchOrgAlias")) as [rendered|e];
    [|reflexivity].
  cbn [fst DeleteScratchOrg.sfdxCommandDef].
  eexists. split; [reflexivity|].
  unfold get_own, obj, list_to_map. cbn [fold_right fst snd].
  repeat (rewrite lookup_insert; case_decide; [|congruence]). done.
Qed.

Lemma is_missing_false (actionOptions : gmap string JsValue) key :
  CreateUser.is_missing actionOptions key = false
  <-> exists v, actionOptions !! key = Some v /\ v <> JUndefined.
Proof.
  unfold CreateUser.is_missing. split.
  - destruct (actionOptions !! key) as [v|]; [|discriminate].
    intros H. exists v. split; [reflexivity|]. by intros ->.
  - intros (v & -> & Hv). by destruct v.
Qed.

(** X20: the option checks of configure-admin-user, deploy-metadata and
    delete-scratch-org look at one key each ([definitionFile],
    [mdapiSource], [scratchOrgAlias]) and only at whether it is there:
    the check returns exactly when the options hold the key with a value
    other than [undefined], so [null], an empty string or a number pass.
    Options that pass the check of create-user pass the one of
    configure-admin-user. *)
Theorem option_checks_accept_any_defined_value (actionOptions : gmap string JsValue) :
  (ConfigureAdminUser.validateActionOptions actionOptions = Normal tt
   <-> exists v, actionOptions !! "definitionFile" = Some v /\ v <> JUndefined)
  /\ (DeployMetadataOptions.validateActionOptions actionOptions = Normal tt
      <-> exists v, actionOptions !! "mdapiSource" = Some v /\ v <> JUndefined)
  /\ (DeleteScratchOrgOptions.validateActionOptions actionOptions = Normal tt
      <-> exists v, actionOptions !! "scratchOrgAlias" = Some v /\ v <> JUndefined)
  /\ (CreateUser.validateActionOptions actionOptions = Normal tt ->
      ConfigureAdminUser.validateActionOptions actionOptions = Normal tt).
Proof.
  unfold ConfigureAdminUser.validateActionOptions,
    DeployMetadataOptions.validateActionOptions,
    DeleteScratchOrgOptions.validateActionOptions, CreateUser.validateActionOptions.
  rewrite !typeof_missing, <- !is_missing_false.
  repeat split; repeat destruct (CreateUser.is_missing _ _); done.
Qed.

Section ConfigureAdminUserFacts.
Import ConfigureAdminUser.

Variable recognized : Outcome -> bool.
Variable readConfigFile : string -> JsValue -> Settled JsValue Outcome.
Variable getUsernameFromAlias : string -> Settled string Outcome.
Variable configureUser :
  string -> JsValue -> TargetOrg -> gmap string JsValue -> JsValue ->
  Settled Outcome Outcome.

(** X17: a definition file that cannot be read does not always stop
    configure-admin-user.  When the rejection of the reader is not yet a
    Result Node: if it is not an expected failure, the action rejects at
    once with its node in status [ERROR] and calls nothing else; if it is
    one, the node turns to [ERROR] but the action goes on, and once the
    username is found it calls the Executor with [undefined] as the user
    definition.  The promise then settles with the action's node, still in
    status [ERROR]; whether it is fulfilled or rejected depends on what
    attaching a child to a finished node does, which is left open here. *)
Theorem configure_admin_user_failed_read
    (actionContext : AppxEngineActionContext) (actionOptions : gmap string JsValue)
    (rejectedPromise : Outcome) :
  readConfigFile (configPath (projectContext actionContext))
                 (get_own actionOptions "definitionFile")
  = Rejected rejectedPromise ->
  (forall r, rejectedPromise <> IsResult r) ->
  let run := executeAction recognized readConfigFile getUsernameFromAlias configureUser
               actionContext actionOptions in
  let read := ReadConfigFile (configPath (projectContext actionContext))
                (get_own actionOptions "definitionFile") in
  let lookup := GetUsernameFromAlias (alias (targetOrg actionContext)) in
  if recognized rejectedPromise
  then
    forall adminUsername,
      getUsernameFromAlias (alias (targetOrg actionContext)) = Resolved adminUsername ->
      exists executorMessages node,
        calls run
        = [read; lookup;
           ConfigureUser adminUsername JUndefined (targetOrg actionContext)
             executorMessages (observer (listrExecOptions actionContext))]
        /\ (settled run = Resolved node \/ settled run = Rejected (IsResult node))
        /\ status node = ERROR
  else
    exists node,
      calls run = [read]
      /\ settled run = Rejected (IsResult node)
      /\ status node = ERROR.
Proof.
  intros Hread Hnot run read lookup. subst run read lookup.
  unfold executeAction. rewrite Hread.
  unfold addRejectedChild.
  assert (Hwrap : forall source kind,
             wrapRejectedPromise recognized rejectedPromise source kind
             = MkResult source kind (if recognized rejectedPromise then FAILURE else ERROR)
                 (outcome_detail rejectedPromise) JUndefined [] default_options).
  { intros source kind. destruct rejectedPromise as [r| |]; [|reflexivity..].
    by destruct (Hnot r). }
  rewrite Hwrap.
  destruct (recognized rejectedPromise) eqn:Hrec.
  - intros adminUsername Hname. cbn [addChild createActionResult with_detail status
      is_terminal startNow is_status andb options bubbleError bubbleFailure
      failureIsError with_children with_status].
    rewrite Hname.
    destruct (configureUser _ _ _ _ _) as [resolved|rejected].
    + eexists. eexists. split; [reflexivity|]. cbn. split; [right|]; reflexivity.
    + eexists. eexists. split; [reflexivity|]. cbn. split; [right|]; reflexivity.
  - eexists. split; [reflexivity|]. cbn. split; reflexivity.
Qed.

End ConfigureAdminUserFacts.

End ActionFacts.

Section CreateUserDetailFacts.
Import Result Appx CreateUser.

Variable recognized : Outcome -> bool.
Variable readConfigFile : string -> JsValue -> Settled JsValue Outcome.
Variable createUniqueUsername : JsValue -> string.
Variable createUser :
  string -> JsValue -> JsValue -> TargetOrg -> gmap string JsValue -> JsValue ->
  Settled SfdxFalconResult Outcome.

(** Once the definition file has been read, the action settles with its
    own node, returned or raised, whose detail is the object that
    [executeAction] filled member by member. *)
Lemma executeAction_node actionContext actionOptions
    (userDefinition : gmap string JsValue) :
  readConfigFile (configPath (projectContext actionContext))
                 (get_own actionOptions "definitionFile")
  = Resolved (JObj userDefinition) ->
  exists actionResult executorMessages,
    (executeAction recognized readConfigFile createUniqueUsername createUser
       actionContext actionOptions = Resolved actionResult
     \/ executeAction recognized readConfigFile createUniqueUsername createUser
          actionContext actionOptions = Rejected (IsResult actionResult))
    /\ Result.detail actionResult
       = JObj (<["executorMessages" := JObj executorMessages]>
                 (<["defaultPassword" :=
                      determineDefaultPassword (get_own userDefinition "password")]>
                    (<["uniqueUsername" :=
                         JStr (createUniqueUsername (get_own userDefinition "Username"))]>
                       (<["userDefinition" := JObj userDefinition]>
                          (obj [("userDefinition", JNull); ("uniqueUsername", JNull);
                                ("defaultPassword", JNull); ("executorMessages", JNull)]))))).
Proof.
  intros Hread. unfold executeAction. rewrite Hread. cbn [p_catch get_prop].
  fold (get_own userDefinition "Username"). fold (get_own userDefinition "password").
  unfold set_own.
  set (node := with_detail _ _).
  assert (Hnode : exists m,
             Result.detail node
             = JObj (<["executorMessages" := JObj m]>
                 (<["defaultPassword" :=
                      determineDefaultPassword (get_own userDefinition "password")]>
                    (<["uniqueUsername" :=
                         JStr (createUniqueUsername (get_own userDefinition "Username"))]>
                       (<["userDefinition" := JObj userDefinition]>
                          (obj [("userDefinition", JNull); ("uniqueUsername", JNull);
                                ("defaultPassword", JNull); ("executorMessages", JNull)]))))))
    by (eexists; reflexivity).
  destruct Hnode as (m & Hd).
  destruct (createUser _ _ _ _ _ _) as [executorResult|executorResult].
  - destruct (addChild node executorResult) as [r|r] eqn:E1.
    + exists r, m. split; [by left|].
      rewrite <- Hd. apply (addChild_detail node executorResult). by left.
    + assert (Hr : Result.detail r = Result.detail node).
      { apply (addChild_detail node executorResult). by right. }
      destruct (addChild r _) as [r'|r'] eqn:E2.
      * exists r', m. split; [by left|].
        rewrite <- Hd, <- Hr. eapply addChild_detail. left; exact E2.
      * exists r', m. split; [by right|].
        rewrite <- Hd, <- Hr. eapply addChild_detail. right; exact E2.
  - destruct (addChild node _) as [r|r] eqn:E.
    + exists r, m. split; [by left|].
      rewrite <- Hd. eapply addChild_detail. left; exact E.
    + exists r, m. split; [by right|].
      rewrite <- Hd. eapply addChild_detail. right; exact E.
Qed.

(** X18: the detail of the node that create-user settles with holds the
    four members [userDefinition], [uniqueUsername], [defaultPassword] and
    [executorMessages] and no other: the detail that [createActionResult]
    had put on the node (the options, the alias of the target org) is
    replaced, not merged.  [userDefinition] is the object read from the
    file and [uniqueUsername] is what [createUniqueUsername] made of its
    [Username]. *)
Theorem create_user_detail_members actionContext actionOptions
    (userDefinition : gmap string JsValue) :
  readConfigFile (configPath (projectContext actionContext))
                 (get_own actionOptions "definitionFile")
  = Resolved (JObj userDefinition) ->
  exists actionResult detail,
    (executeAction recognized readConfigFile createUniqueUsername createUser
       actionContext actionOptions = Resolved actionResult
     \/ executeAction recognized readConfigFile createUniqueUsername createUser
          actionContext actionOptions = Rejected (IsResult actionResult))
    /\ Result.detail actionResult = JObj detail
    /\ (forall k, is_Some (detail !! k)
                  <-> In k ["userDefinition"; "uniqueUsername"; "defaultPassword";
                            "executorMessages"])
    /\ detail !! "userDefinition" = Some (JObj userDefinition)
    /\ detail !! "uniqueUsername"
       = Some (JStr (createUniqueUsername (get_own userDefinition "Username"))).
Proof.
  intros Hread.
  destruct (executeAction_node actionContext actionOptions userDefinition Hread)
    as (actionResult & m & Hsettled & Hdetail).
  eexists actionResult, _. split; [exact Hsettled|]. split; [exact Hdetail|].
  unfold obj, list_to_map. cbn [fold_right fst snd].
  split; [|split].
  - intros k. cbn [In]. rewrite !lookup_insert_is_Some'.
    assert (Hempty : ~ is_Some ((∅ : gmap string JsValue) !! k))
      by (rewrite lookup_empty; by intros [? ?]).
    tauto.
  - rewrite !lookup_insert_ne by done. by rewrite lookup_insert_eq.
  - rewrite !lookup_insert_ne by done. by rewrite lookup_insert_eq.
Qed.

End CreateUserDetailFacts.

Section DemoDeployOutcomes.
Import DemoDeploy.

Variable Project : Type.
Variable StatusReport : Type.
Variable validateLocalPath : JsValue -> bool.
Variable path_resolve : string -> string.
Variable resolve : string -> JsValue -> Settled Project JsValue.
Variable validateDemo : Project -> Settled (Report StatusReport) JsValue.
Variable getRunTime : StatusReport -> bool -> Completion JsValue JsValue.

(** X19: [run] of falcon:demo:deploy resolves in one case only: the deploy
    directory (the flag, or [.] when the flag is absent or falsy) is a
    string and a valid path, the project resolves, its validation succeeds
    with a status report, and [getRunTime(true)] of that report returns
    something that can be printed; the response is then status 0 with the
    report.  The response kept on the instance does not follow the
    promise: as soon as the validation succeeds the instance holds the
    report and a response of status 0, also when [run] goes on to reject;
    in every other case it still holds the placeholder with status 1 and
    [ERROR_RESPONSE_NOT_SET]. *)
Theorem demo_deploy_run_outcomes (flags : gmap string JsValue) :
  let deployDirFlag := js_or (get_own flags "deploydir") (JStr ".") in
  let debugModeFlag := js_or (get_own flags "falcondebug") (JBool false) in
  let after :=
    run Project StatusReport validateLocalPath path_resolve resolve validateDemo
      getRunTime flags in
  let validated (report : Report StatusReport) :=
    exists deployDir appxDemoProject,
      validateLocalPath deployDirFlag = true
      /\ deployDirFlag = JStr deployDir
      /\ resolve (path_resolve deployDir) debugModeFlag = Resolved appxDemoProject
      /\ validateDemo appxDemoProject = Resolved report in
  (forall response,
     snd after = Resolved response
     <-> exists statusReport runTime printed,
           validated (Instance statusReport)
           /\ getRunTime statusReport true = Normal runTime
           /\ to_string runTime = Normal printed
           /\ response = {| status := 0; result := Instance statusReport |})
  /\ (forall report,
        validated report ->
        fst after = MkCommand (Some report) {| status := 0; result := report |})
  /\ ((exists report, validated report)
      \/ fst after
         = MkCommand None
             {| status := 1; result := Other (JStr "ERROR_RESPONSE_NOT_SET") |}).
Proof.
  cbv zeta. unfold run.
  set (deployDirFlag := js_or (get_own flags "deploydir") _).
  set (debugModeFlag := js_or (get_own flags "falcondebug") _).
  set (initial := MkCommand None _).
  destruct (validateLocalPath deployDirFlag) eqn:Hvalid; cbn [negb fst snd].
  2:{ split; [|split].
      - intros response. split; [discriminate|].
        by intros (r & t & p & (d & proj & H & _) & _).
      - by intros report (d & proj & H & _).
      - by right. }
  destruct deployDirFlag as [ | | | | |dir| |] eqn:Hdir; cbn [fst snd];
    try (split; [|split];
         [ intros response; split; [discriminate|];
           by intros (r & t & p & (d & proj & _ & H & _) & _)
         | by intros report (d & proj & _ & H & _)
         | by right ]).
  destruct (resolve (path_resolve dir) debugModeFlag) as [proj|e] eqn:Hproj;
    cbn [fst snd].
  2:{ split; [|split].
      - intros response. split; [discriminate|].
        intros (r & t & p & (d & proj & _ & [= <-] & H & _) & _).
        rewrite Hproj in H. discriminate.
      - intros report (d & proj & _ & [= <-] & H & _). rewrite Hproj in H. discriminate.
      - by right. }
  destruct (validateDemo proj) as [report|fe] eqn:Hreport.
  2:{ destruct (onError_throws (CaughtValue fe)) as (thrown & ->). cbn [fst snd].
      split; [|split].
      - intros response. split; [discriminate|].
        intros (r & t & p & (d & proj' & _ & [= <-] & H & H') & _).
        rewrite Hproj in H. injection H as <-. rewrite Hreport in H'. discriminate.
      - intros report (d & proj' & _ & [= <-] & H & H').
        rewrite Hproj in H. injection H as <-. rewrite Hreport in H'. discriminate.
      - by right. }
  assert (Hvalidated : forall report',
             (exists d proj',
                 true = true /\ JStr dir = JStr d
                 /\ resolve (path_resolve d) debugModeFlag = Resolved proj'
                 /\ validateDemo proj' = Resolved report')
             -> report' = report).
  { intros report' (d & proj' & _ & [= <-] & H & H').
    rewrite Hproj in H. injection H as <-. rewrite Hreport in H'. by injection H' as <-. }
  pose proof (onSuccess_instance StatusReport getRunTime initial report) as Hinst.
  assert (Hfst : forall (this : FalconDemoDeploy StatusReport) c,
             onSuccess StatusReport getRunTime initial report = (this, c) ->
             fst (match c with
                  | Normal _ => (this, Resolved (jsonResponse this))
                  | Throw thrown =>
                      match onError thrown with
                      | Normal _ => (this, Resolved (jsonResponse this))
                      | Throw thrown' => (this, Rejected thrown')
                      end
                  end)
             = MkCommand (Some report) {| status := 0; result := report |}).
  { intros this c Hc. rewrite Hc in Hinst. cbn [fst] in Hinst. subst this.
    destruct c as [[]|thrown]; [reflexivity|]. by destruct (onError thrown). }
  split; [|split].
  - intros response. unfold onSuccess. split.
    + destruct report as [r|v].
      * destruct (getRunTime r true) as [runTime|thrown] eqn:Hrun.
        -- destruct (to_string runTime) as [printed|e] eqn:Hprinted.
           ++ cbn [snd jsonResponse]. intros [= <-].
              exists r, runTime, printed. split; [by exists dir, proj|]. done.
           ++ destruct (onError_throws (CaughtError e)) as (thrown' & ->). discriminate.
        -- destruct (onError_throws (CaughtValue thrown)) as (thrown' & ->). discriminate.
      * destruct v;
          match goal with
          | |- context [onError ?x] =>
              destruct (onError_throws x) as (thrown' & ->)
          end; discriminate.
    + intros (r & runTime & printed & Hv & Hrun & Hprinted & ->).
      apply Hvalidated in Hv as <-. by rewrite Hrun, Hprinted.
  - intros report' Hv. apply Hvalidated in Hv as ->.
    destruct (onSuccess StatusReport getRunTime initial report) as [this c] eqn:Hc.
    by apply Hfst.
  - left. exists report. by exists dir, proj.
Qed.

End DemoDeployOutcomes.

Section FalconMethodsExamples.
Import FalconTypes FalconMethods.

Lemma bubble_then_wrap_witness :
  let e := new_SfdxFalconError2 "boom" (Some "Oops") [] 1 in
  let h : gmap positive ErrorObject := {[ 3%positive := FalconError2 e ]} in
  exists h' stack,
    bubble h 3%positive (Some "at ACTION result from create-user") = Some (h', Ref 3%positive)
    /\ wrap h' (Ref 3%positive) = Some (Normal (h', 3%positive))
    /\ falconStack h 3%positive = Some stack
    /\ falconStack h' 3%positive
       = Some (stack ++ String (ascii_of_nat 10)
                          ("    " ++ "at ACTION result from create-user"))
    /\ dom h' = dom h
    /\ forall l', l' <> 3%positive -> h' !! l' = h !! l'.
Proof.
  intros e h.
  apply (bubble_then_wrap h 3%positive (FalconError2 e)
           "at ACTION result from create-user").
  - reflexivity.
  - reflexivity.
Defined.

End FalconMethodsExamples.

Section ActionExamples.
Import Result Appx.

Lemma deploy_metadata_validation_gap_witness :
  let actionContext :=
    {| targetOrg := {| alias := "demo-org" |};
       devHubAlias := "hub";
       projectContext := {| configPath := "config"; mdapiSourcePath := "mdapi" |};
       logLevel := "error";
       listrExecOptions := {| observer := JNull |} |} in
  let actionOptions : gmap string JsValue := obj [("mdapiSource", JInt 42)] in
  let run :=
    DeployMetadata.executeAction (fun _ => false) (fun a b => a ++ "/" ++ b)
      (fun _ => Resolved (IsValue JNull)) actionContext actionOptions in
  DeployMetadataOptions.validateActionOptions actionOptions = Normal tt
  /\ DeployMetadata.commands run = []
  /\ exists e, DeployMetadata.settled run = Rejected (IsError e)
               /\ rt_name e = "TypeError".
Proof.
  intros actionContext actionOptions run.
  apply (deploy_metadata_validation_gap (fun _ => false) (fun a b => a ++ "/" ++ b)
           (fun _ => Resolved (IsValue JNull)) actionContext actionOptions (JInt 42)).
  - vm_compute; reflexivity.
  - discriminate.
  - discriminate.
Defined.

Lemma configure_admin_user_failed_read_witness :
  let actionContext :=
    {| targetOrg := {| alias := "demo-org" |};
       devHubAlias := "hub";
       projectContext := {| configPath := "config"; mdapiSourcePath := "mdapi" |};
       logLevel := "error";
       listrExecOptions := {| observer := JNull |} |} in
  let actionOptions : gmap string JsValue := obj [("definitionFile", JStr "admin.json")] in
  let run :=
    ConfigureAdminUser.executeAction (fun _ => true)
      (fun _ _ => Rejected (IsValue (JStr "file not found")))
      (fun _ => Resolved "admin@demo.org")
      (fun _ _ _ _ _ => Resolved (IsValue JNull))
      actionContext actionOptions in
  exists executorMessages node,
    ConfigureAdminUser.calls run
    = [ConfigureAdminUser.ReadConfigFile "config" (JStr "admin.json");
       ConfigureAdminUser.GetUsernameFromAlias "demo-org";
       ConfigureAdminUser.ConfigureUser "admin@demo.org" JUndefined
         {| alias := "demo-org" |} executorMessages JNull]
    /\ (ConfigureAdminUser.settled run = Resolved node
        \/ ConfigureAdminUser.settled run = Rejected (IsResult node))
    /\ status node = ERROR.
Proof.
  intros actionContext actionOptions run.
  apply (configure_admin_user_failed_read (fun _ => true)
           (fun _ _ => Rejected (IsValue (JStr "file not found")))
           (fun _ => Resolved "admin@demo.org")
           (fun _ _ _ _ _ => Resolved (IsValue JNull))
           actionContext actionOptions (IsValue (JStr "file not found"))).
  - reflexivity.
  - discriminate.
  - reflexivity.
Defined.

Lemma create_user_detail_members_witness :
  let actionContext :=
    {| targetOrg := {| alias := "demo-org" |};
       devHubAlias := "hub";
       projectContext := {| configPath := "config"; mdapiSourcePath := "mdapi" |};
       logLevel := "error";
       listrExecOptions := {| observer := JNull |} |} in
  let actionOptions : gmap string JsValue :=
    obj [("definitionFile", JStr "demo-user.json"); ("sfdxUserAlias", JStr "demo-user")] in
  let userDefinition : gmap string JsValue := obj [("Username", JStr "demo@example.com")] in
  let settled :=
    CreateUser.executeAction (fun _ => false) (fun _ _ => Resolved (JObj userDefinition))
      (fun username => as_string username ++ ".1")
      (fun _ _ _ _ _ _ => Rejected (IsValue (JStr "no such org")))
      actionContext actionOptions in
  exists actionResult detail,
    (settled = Resolved actionResult \/ settled = Rejected (IsResult actionResult))
    /\ Result.detail actionResult = JObj detail
    /\ detail !! "actionOptions" = None
    /\ detail !! "uniqueUsername" = Some (JStr "demo@example.com.1").
Proof.
  intros actionContext actionOptions userDefinition settled.
  destruct (create_user_detail_members (fun _ => false)
              (fun _ _ => Resolved (JObj userDefinition))
              (fun username => as_string username ++ ".1")
              (fun _ _ _ _ _ _ => Rejected (IsValue (JStr "no such org")))
              actionContext actionOptions userDefinition eq_refl)
    as (actionResult & detail & Hsettled & Hdetail & Hkeys & _ & Hname).
  exists actionResult, detail.
  split; [exact Hsettled|]. split; [exact Hdetail|]. split; [|exact Hname].
  destruct (detail !! "actionOptions") as [v|] eqn:E; [|reflexivity].
  exfalso.
  destruct (proj1 (Hkeys "actionOptions") (ex_intro _ v E)) as [H|[H|[H|[H|[]]]]];
    discriminate H.
Defined.

End ActionExamples.
